(** * Rolling-update risk estimator: the simulation and scoring engine

    A shallow embedding of [app/risk_engine.py], [app/storage.py],
    [app/models.py], [app/config.py] and the lookup helpers of
    [app/main.py], together with the properties the specification states
    about them.

    Modelling conventions.
    - The engine is embedded twice.  In the first embedding Python floats
      are read as exact rationals ([Q]): [+], [*], [/] and the comparisons
      are the rational ones, and [round(x, 2)] is rounding to the nearest
      multiple of 1/100, ties to even.  It carries the statements about
      order, range, membership and structure, which do not depend on the
      binary rounding of the IEEE operations.
    - In the second embedding (module [Ieee]) a float is the binary64 value
      it is and every operation rounds as the processor does.  It carries
      the statements that fix the value of a score, a rate or an average.
    - Exceptions are values: a computation returns [Ok v] or [Raise e].
    - The numpy generator and networkx's betweenness centrality are external
      libraries; the engine is stated over an interface for each.
    - [networkx.DiGraph] keeps nodes and successors in insertion order; the
      graph is an ordered association list from node to successor list.
    - The clock read by [datetime.now] and the entropy behind
      [default_rng(None)] are explicit inputs ([Env]). *)

From Stdlib Require Import ZArith QArith Qabs Lia Lqa String List Sorted.
From Stdlib Require PrimFloat SpecFloat FloatOps.
From stdpp Require Import gmap strings list pretty.

(* Decimal numerals denote the nearest double, as in Python. *)
Set Warnings "-inexact-float".

Local Open Scope Z_scope.

(* ===================================================================== *)
(** * Numbers                                                             *)
(* ===================================================================== *)

(** [a < b] on floats, as a boolean. *)
Definition Qltb (a b : Q) : bool := negb (Qle_bool b a).

(** Python's two-argument [max(a, b)]: [b] only when [b > a]. *)
Definition py_max2 (a b : Q) : Q := if Qltb a b then b else a.

(** Python's two-argument [min(a, b)]: [b] only when [b < a]. *)
Definition py_min2 (a b : Q) : Q := if Qltb b a then b else a.

(** Nearest integer, ties to the even neighbour. *)
Definition round_half_even (q : Q) : Z :=
  let n := Qnum q in
  let d := Z.pos (Qden q) in
  let fl := n / d in
  match (2 * (n mod d) ?= d) with
  | Lt => fl
  | Gt => fl + 1
  | Eq => if Z.even fl then fl else fl + 1
  end.

(** [round(x, 2)]. *)
Definition py_round2 (x : Q) : Q := (round_half_even (x * 100) # 100)%Q.

(** [min(max(x, 0), 100)]. *)
Definition clamp_0_100 (x : Q) : Q := py_min2 (py_max2 x 0) 100.

(** [sum(xs)] and [numpy.mean(xs)] of a non-empty list. *)
Definition Qsum (xs : list Q) : Q := foldl Qplus 0%Q xs.
Definition np_mean (xs : list Q) : Q := (Qsum xs / inject_Z (Z.of_nat (length xs)))%Q.

(** [f"{x:.0f}"] of a non-negative [x]: the nearest integer, ties to even,
    in decimal. *)
Definition format_0f (x : Q) : string := pretty (round_half_even x).

(* ===================================================================== *)
(** * Exceptions                                                          *)
(* ===================================================================== *)

Inductive PyError : Set :=
| ValueError        (* raised by numpy and by [max] of an empty sequence *)
| ValidationError.  (* raised by pydantic on a violated [Field] bound *)

Inductive Result (A : Type) : Type :=
| Ok (a : A)
| Raise (e : PyError).
Arguments Ok {A} a.
Arguments Raise {A} e.

#[global] Instance Result_ret : MRet Result := fun A a => Ok a.
#[global] Instance Result_bind : MBind Result := fun A B f m =>
  match m with
  | Ok a => f a
  | Raise e => Raise e
  end.
#[global] Instance Result_fmap : FMap Result := fun A B f m =>
  match m with
  | Ok a => Ok (f a)
  | Raise e => Raise e
  end.

(** A Python [for] loop whose body may raise, over a loop state. *)
Fixpoint for_each {A S : Type} (body : A -> S -> Result S) (xs : list A) (s : S)
  : Result S :=
  match xs with
  | [] => Ok s
  | x :: xs' => s' ← body x s; for_each body xs' s'
  end.

(* ===================================================================== *)
(** * Data model ([app/models.py])                                        *)
(* ===================================================================== *)

Inductive DeploymentDecision : Set :=
| AUTO_APPROVE
| MANUAL_REVIEW
| BLOCK_DEPLOYMENT.

#[global] Instance DeploymentDecision_eq_dec : EqDecision DeploymentDecision.
Proof. solve_decision. Defined.

(** The enum's [.value]. *)
Definition decision_value (d : DeploymentDecision) : string :=
  match d with
  | AUTO_APPROVE => "Auto Approve"
  | MANUAL_REVIEW => "Manual Review"
  | BLOCK_DEPLOYMENT => "Block Deployment"
  end.

Record ServiceMetrics : Type := {
  service_name : string;
  dependency_impact_score : Q;
  rollback_rate : Q;
  change_frequency : Q;
  error_spike_history : Q;
  latency_instability : Q;
  risk_score : Q;
  decision : DeploymentDecision;
}.

Record GraphEdge : Type := {
  source : string;
  target : string;
}.

Record SimulationSummary : Type := {
  average_risk : Q;
  highest_risk_service : string;
  highest_risk_score : Q;
  blocked_services : list string;
  blocked_count : Z;
  timestamp_utc : Z;
}.

Record SimulationResult : Type := {
  result_summary : SimulationSummary;
  result_services : list ServiceMetrics;
  result_edges : list GraphEdge;
}.

Record HistoricalRecord : Type := {
  record_summary : SimulationSummary;
  record_services : list ServiceMetrics;
}.

Record CICDHookRequest : Type := {
  pipeline_id : string;
  request_service_name : string;
  requested_by : option string;
}.

Record CICDHookResponse : Type := {
  message : string;
  response_risk_score : Q;
  response_decision : DeploymentDecision;
}.

(** [Field(..., ge=0, le=100)]. *)
Definition ge0_le100 (x : Q) : bool := Qle_bool 0 x && Qle_bool x 100.

(** Constructing a [ServiceMetrics] validates the six bounded fields. *)
Definition ServiceMetrics_init (m : ServiceMetrics) : Result ServiceMetrics :=
  if ge0_le100 (dependency_impact_score m)
     && ge0_le100 (rollback_rate m)
     && ge0_le100 (change_frequency m)
     && ge0_le100 (error_spike_history m)
     && ge0_le100 (latency_instability m)
     && ge0_le100 (risk_score m)
  then Ok m else Raise ValidationError.

(** Constructing a [SimulationSummary] validates its bounded fields. *)
Definition SimulationSummary_init (s : SimulationSummary) : Result SimulationSummary :=
  if ge0_le100 (average_risk s)
     && ge0_le100 (highest_risk_score s)
     && (0 <=? blocked_count s)
  then Ok s else Raise ValidationError.

(** Constructing a [CICDHookResponse] validates the score. *)
Definition CICDHookResponse_init (r : CICDHookResponse) : Result CICDHookResponse :=
  if ge0_le100 (response_risk_score r) then Ok r else Raise ValidationError.

(* ===================================================================== *)
(** * Configuration ([app/config.py])                                     *)
(* ===================================================================== *)

Record Settings : Type := {
  service_names : list string;
  dependency_candidates : gmap string (list string);
  history_limit : Z;
}.

(** [Settings._validate_history_limit]. *)
Definition _validate_history_limit (value : Z) : Result Z :=
  if value <? 1 then Raise ValueError
  else if 20 <? value then Raise ValueError
  else Ok value.

Definition DEFAULT_SERVICE_NAMES : list string :=
  [ "auth-service"; "payment-service"; "inventory-service"; "email-service";
    "orders-service"; "analytics-service"; "search-service";
    "notification-service"; "reporting-service"; "billing-service" ]%string.

Definition DEFAULT_DEPENDENCY_CANDIDATES : gmap string (list string) :=
  list_to_map
    [ ("auth-service", ["orders-service"; "payment-service"; "notification-service"]);
      ("payment-service", ["billing-service"; "orders-service"]);
      ("inventory-service", ["orders-service"; "analytics-service"]);
      ("email-service", ["notification-service"]);
      ("orders-service", ["inventory-service"; "payment-service"; "analytics-service"]);
      ("analytics-service", ["reporting-service"; "search-service"]);
      ("search-service", ["analytics-service"]);
      ("notification-service", ["email-service"]);
      ("reporting-service", ["analytics-service"; "billing-service"]);
      ("billing-service", ["payment-service"; "reporting-service"]) ]%string.

Definition default_settings : Settings :=
  {| service_names := DEFAULT_SERVICE_NAMES;
     dependency_candidates := DEFAULT_DEPENDENCY_CANDIDATES;
     history_limit := 5 |}.

(* ===================================================================== *)
(** * Directed graphs ([networkx.DiGraph], the operations the engine uses) *)
(* ===================================================================== *)

(** Nodes in insertion order, each with its successors in insertion
    order. *)
Definition DiGraph : Type := list (string * list string).

Definition nodes (g : DiGraph) : list string := g.*1.

Definition add_node (n : string) (g : DiGraph) : DiGraph :=
  if decide (n ∈ nodes g) then g else g ++ [(n, [])].

Definition add_nodes_from (ns : list string) (g : DiGraph) : DiGraph :=
  foldl (fun g n => add_node n g) g ns.

(** Record [v] as a successor of [u] (a second [u -> v] changes nothing). *)
Definition add_succ (u v : string) (g : DiGraph) : DiGraph :=
  (fun '(n, vs) =>
     if decide (n = u)
     then (n, if decide (v ∈ vs) then vs else vs ++ [v])
     else (n, vs)) <$> g.

(** [graph.add_edge(u, v)]: both endpoints become nodes, [u] first. *)
Definition add_edge (u v : string) (g : DiGraph) : DiGraph :=
  add_succ u v (add_node v (add_node u g)).

(** [graph.edges()]: by source in node order, then by insertion. *)
Definition graph_edges (g : DiGraph) : list (string * string) :=
  '(u, vs) ← g; (fun v => (u, v)) <$> vs.

Definition in_degree (g : DiGraph) (n : string) : Z :=
  Z.of_nat (length (filter (fun e => e.2 = n) (graph_edges g))).

Definition out_degree (g : DiGraph) (n : string) : Z :=
  Z.of_nat (length (filter (fun e => e.1 = n) (graph_edges g))).

(** A node is incident to an edge when it is its source or its target. *)
Definition incident (g : DiGraph) (n : string) : Prop :=
  exists e, e ∈ graph_edges g /\ (e.1 = n \/ e.2 = n).

(** No edge from a node to itself. *)
Definition no_self_loop (g : DiGraph) : Prop :=
  forall u v, (u, v) ∈ graph_edges g -> u <> v.

(** Nodes and edge endpoints are configured services. *)
Definition within_configured (settings : Settings) (g : DiGraph) : Prop :=
  (forall n, n ∈ nodes g -> n ∈ service_names settings) /\
  (forall u v, (u, v) ∈ graph_edges g ->
               u ∈ service_names settings /\ v ∈ service_names settings).

(** [networkx.isolates]: the nodes of degree zero, in node order. *)
Definition isolates (g : DiGraph) : list string :=
  filter (fun n => in_degree g n + out_degree g n = 0) (nodes g).

(** [networkx.betweenness_centrality(graph, normalized=True, weight=None)],
    a dictionary from node to centrality. *)
Class Betweenness := betweenness_centrality : DiGraph -> gmap string Q.

(* ===================================================================== *)
(** * The random source ([numpy.random.Generator])                        *)
(* ===================================================================== *)

(** The draws the engine makes, each returning the advanced generator. *)
Class Generator (G : Type) := {
  (** [default_rng(seed)] for a non-negative seed *)
  seed_rng : Z -> G;
  (** [rng.integers(low, high)] *)
  rng_integers : Z -> Z -> G -> Z * G;
  (** [rng.choice(a, size=k, replace=False)] *)
  rng_sample : list string -> Z -> G -> list string * G;
  (** [rng.choice(a)] *)
  rng_pick : list string -> G -> string * G;
  (** [rng.uniform(low, high)] *)
  rng_uniform : Q -> Q -> G -> Q * G;
}.

(** What numpy documents of these draws. *)
Class GeneratorLaws (G : Type) `{Generator G} : Prop := {
  integers_range : forall lo hi g,
    lo < hi -> lo <= (rng_integers lo hi g).1 < hi;
  sample_elem_of : forall a k g x,
    x ∈ (rng_sample a k g).1 -> x ∈ a;
  pick_elem_of : forall a g,
    a <> [] -> (rng_pick a g).1 ∈ a;
  uniform_range : forall lo hi g,
    (lo < hi)%Q -> (lo <= (rng_uniform lo hi g).1)%Q /\ ((rng_uniform lo hi g).1 < hi)%Q;
}.

Section Numpy.
Context {G : Type} `{Generator G}.

(** [default_rng(seed)]: fresh entropy without a seed; a negative seed is
    refused. *)
Definition default_rng (seed : option Z) (entropy : G) : Result G :=
  match seed with
  | None => Ok entropy
  | Some s => if s <? 0 then Raise ValueError else Ok (seed_rng s)
  end.

(** [rng.integers(low, high)] refuses an empty range. *)
Definition np_integers (low high : Z) (rng : G) : Result (Z * G) :=
  if low <? high then Ok (rng_integers low high rng) else Raise ValueError.

(** [rng.choice(a, size=k, replace=False)] refuses a negative size and a
    sample larger than the population. *)
Definition np_choice_sample (a : list string) (k : Z) (rng : G)
  : Result (list string * G) :=
  if (0 <=? k) && (k <=? Z.of_nat (length a))
  then Ok (rng_sample a k rng) else Raise ValueError.

(** [rng.choice(a)] refuses an empty population. *)
Definition np_choice (a : list string) (rng : G) : Result (string * G) :=
  match a with
  | [] => Raise ValueError
  | _ => Ok (rng_pick a rng)
  end.

End Numpy.

(* ===================================================================== *)
(** * The risk engine ([app/risk_engine.py])                              *)
(* ===================================================================== *)

(** [RiskEngine._classify_risk]. *)
Definition _classify_risk (score : Q) : DeploymentDecision :=
  if Qltb score 40 then AUTO_APPROVE
  else if Qltb score 70 then MANUAL_REVIEW
  else BLOCK_DEPLOYMENT.

(** [RiskEngine._normalise_to_percentage]. *)
Definition _normalise_to_percentage (value : Q) : Q :=
  if Qltb value 0 then 0.0%Q
  else if Qltb 1 value then 100.0%Q
  else (value * 100)%Q.

(** The [metrics] dictionary handed to [_build_service_metrics]; its five
    keys are fixed. *)
Record MetricsDict : Type := {
  md_dependency_impact_score : Q;
  md_rollback_rate : Q;
  md_change_frequency : Q;
  md_error_spike_history : Q;
  md_latency_instability : Q;
}.

(** The weighted sum of [_build_service_metrics], before clamping. *)
Definition weighted_risk (dependency_score rollback change error_spike latency : Q) : Q :=
  (0.4 * dependency_score
   + 0.2 * rollback
   + 0.15 * change
   + 0.15 * error_spike
   + 0.1 * latency)%Q.

(** [RiskEngine._build_service_metrics]. *)
Definition _build_service_metrics (service : string) (metrics : MetricsDict)
  : Result ServiceMetrics :=
  let dependency_score := md_dependency_impact_score metrics in
  let rollback := md_rollback_rate metrics in
  let change := md_change_frequency metrics in
  let error_spike := md_error_spike_history metrics in
  let latency := md_latency_instability metrics in
  let risk := weighted_risk dependency_score rollback change error_spike latency in
  let risk := py_round2 (clamp_0_100 risk) in
  let decision := _classify_risk risk in
  ServiceMetrics_init
    {| service_name := service;
       dependency_impact_score := py_round2 dependency_score;
       rollback_rate := py_round2 rollback;
       change_frequency := py_round2 change;
       error_spike_history := py_round2 error_spike;
       latency_instability := py_round2 latency;
       risk_score := risk;
       decision := decision |}.

(** [RiskEngine._collect_blocked_services]. *)
Definition _collect_blocked_services (history : list HistoricalRecord) : gset string :=
  match last history with
  | None => ∅
  | Some latest =>
      list_to_set
        (service_name <$>
           filter (fun metrics => decision metrics = BLOCK_DEPLOYMENT)
                  (record_services latest))
  end.

(** [max(items, key=...)]: the first item whose key no later item exceeds;
    raises on an empty sequence. *)
Definition py_max_by {A : Type} (key : A -> Q) (items : list A) : Result A :=
  match items with
  | [] => Raise ValueError
  | x :: rest =>
      Ok (foldl (fun best item => if Qltb (key best) (key item) then item else best)
                x rest)
  end.

(** [sorted(services, key=lambda item: item.service_name)]: insertion
    after the last element that is not greater keeps equal names in their
    original order. *)
Fixpoint insert_by_name (m : ServiceMetrics) (sorted : list ServiceMetrics)
  : list ServiceMetrics :=
  match sorted with
  | [] => [m]
  | x :: rest =>
      if String.ltb (service_name m) (service_name x)
      then m :: x :: rest
      else x :: insert_by_name m rest
  end.

Definition sorted_by_name (services : list ServiceMetrics) : list ServiceMetrics :=
  foldl (fun acc m => insert_by_name m acc) [] services.

(** [RiskEngine._summarise_services]; [now] is the instant
    [datetime.now(timezone.utc)] returns. *)
Definition _summarise_services (now : Z) (services : list ServiceMetrics)
  : Result SimulationSummary :=
  let risks := risk_score <$> services in
  let average := match risks with
                 | [] => 0.0%Q
                 | _ => py_round2 (np_mean risks)
                 end in
  highest ← py_max_by risk_score services;
  let blocked := service_name <$>
                   filter (fun svc => decision svc = BLOCK_DEPLOYMENT) services in
  SimulationSummary_init
    {| average_risk := average;
       highest_risk_service := service_name highest;
       highest_risk_score := risk_score highest;
       blocked_services := blocked;
       blocked_count := Z.of_nat (length blocked);
       timestamp_utc := now |}.

(** [history[-limit:]] and, in general, [xs[i:]]. *)
Definition py_slice_from {A : Type} (i : Z) (xs : list A) : list A :=
  let len := Z.of_nat (length xs) in
  let start := if i <? 0 then Z.max 0 (len + i) else i in
  drop (Z.to_nat start) xs.

(** The last [n] elements of a list, in order (the whole list when it has
    fewer). *)
Definition keep_last {A : Type} (n : nat) (xs : list A) : list A :=
  drop (length xs - n) xs.

(** [m] sits at index [i] of [items], no item has a larger key, and every
    item before it has a smaller one. *)
Definition first_max_at {A : Type} (key : A -> Q) (items : list A) (i : nat) (m : A)
  : Prop :=
  items !! i = Some m /\
  (forall m', m' ∈ items -> (key m' <= key m)%Q) /\
  (forall j m', (j < i)%nat -> items !! j = Some m' -> (key m' < key m)%Q).

(** What the engine reads from the process around it. *)
Record Env (G : Type) : Type := {
  clock : Z;     (* the instant [datetime.now(timezone.utc)] returns *)
  entropy : G;   (* the generator [default_rng(None)] returns *)
}.
Arguments clock {G} _.
Arguments entropy {G} _.

Section Engine.
Context {G : Type} `{Generator G} `{Betweenness}.
Variable settings : Settings.

(** The body of [for dependency in chosen]. *)
Definition add_chosen_edges (service : string) (chosen : list string)
           (graph : DiGraph) : DiGraph :=
  foldl (fun graph dependency =>
           if decide (dependency <> service)
           then add_edge dependency service graph
           else graph)
        graph chosen.

(** The body of [for service in service_names]. *)
Definition draw_edges (service : string) (st : DiGraph * G)
  : Result (DiGraph * G) :=
  let '(graph, rng) := st in
  let candidates := default [] (dependency_candidates settings !! service) in
  match candidates with
  | [] => Ok (graph, rng)
  | _ =>
      let max_edges := Z.max 1 (Z.of_nat (length candidates) / 2) in
      '(edge_count, rng) ← np_integers 0 (max_edges + 1) rng;
      '(chosen, rng) ← (if edge_count =? 0 then Ok ([], rng)
                        else np_choice_sample candidates edge_count rng);
      Ok (add_chosen_edges service chosen graph, rng)
  end.

(** The body of [for node in isolated_nodes]. *)
Definition repair_node (node : string) (st : DiGraph * G)
  : Result (DiGraph * G) :=
  let '(graph, rng) := st in
  '(other, rng) ← np_choice (filter (fun n => n <> node) (service_names settings)) rng;
  Ok (add_edge other node graph, rng).

(** [RiskEngine._generate_dependency_graph], returning the graph and the
    advanced generator. *)
Definition _generate_dependency_graph (rng : G) : Result (DiGraph * G) :=
  let graph := add_nodes_from (service_names settings) [] in
  '(graph, rng) ← for_each draw_edges (service_names settings) (graph, rng);
  let isolated_nodes := isolates graph in
  for_each repair_node isolated_nodes (graph, rng).

(** The [metrics] dictionary built for one service, after the three
    directly drawn signals have been rounded in place. *)
Definition draw_metrics (graph : DiGraph) (blocked_lookup : gset string)
           (max_in_degree : Z) (service : string) (rng : G) : MetricsDict * G :=
  let dependency_score :=
    _normalise_to_percentage
      (0.6 * default 0.0%Q (betweenness_centrality graph !! service)
       + 0.4 * (if max_in_degree =? 0 then 0
                else inject_Z (in_degree graph service) / inject_Z max_in_degree))%Q in
  let '(rollback, rng) := rng_uniform 0 100 rng in
  let rollback := if decide (service ∈ blocked_lookup)
                  then (rollback * 0.85)%Q else rollback in
  let rollback := _normalise_to_percentage (rollback / 100) in
  let '(change, rng) := rng_uniform 0 100 rng in
  let '(error_spike, rng) := rng_uniform 0 100 rng in
  let '(latency, rng) := rng_uniform 0 100 rng in
  ({| md_dependency_impact_score := dependency_score;
      md_rollback_rate := rollback;
      md_change_frequency := py_round2 change;
      md_error_spike_history := py_round2 error_spike;
      md_latency_instability := py_round2 latency |}, rng).

(** The body of [for service in graph.nodes()]. *)
Definition service_step (graph : DiGraph) (blocked_lookup : gset string)
           (max_in_degree : Z) (service : string)
           (st : list ServiceMetrics * G) : Result (list ServiceMetrics * G) :=
  let '(services, rng) := st in
  let '(metrics, rng) := draw_metrics graph blocked_lookup max_in_degree service rng in
  final_metrics ← _build_service_metrics service metrics;
  Ok (services ++ [final_metrics], rng).

(** [max(in_degrees.values()) if in_degrees else 1]. *)
Definition max_in_degree_of (graph : DiGraph) : Z :=
  match in_degree graph <$> nodes graph with
  | [] => 1
  | d :: ds => foldl Z.max d ds
  end.

(** [RiskEngine._generate_service_metrics]. *)
Definition _generate_service_metrics (graph : DiGraph) (blocked_services : gset string)
           (rng : G) : Result (list ServiceMetrics) :=
  let blocked_lookup := blocked_services in
  let max_in_degree := max_in_degree_of graph in
  '(services, _) ← for_each (service_step graph blocked_lookup max_in_degree)
                            (nodes graph) ([], rng);
  Ok (sorted_by_name services).

(** [RiskEngine.run_simulation]. *)
Definition run_simulation (env : Env G) (history : list HistoricalRecord)
           (seed : option Z) : Result SimulationResult :=
  rng ← default_rng seed (entropy env);
  '(graph, rng) ← _generate_dependency_graph rng;
  let blocked_services := _collect_blocked_services history in
  services ← _generate_service_metrics graph blocked_services rng;
  summary ← _summarise_services (clock env) services;
  let edges := (fun '(u, v) => {| source := u; target := v |}) <$> graph_edges graph in
  Ok {| result_summary := summary; result_services := services; result_edges := edges |}.

(** [RiskEngine.build_history_entry]. *)
Definition build_history_entry (result : SimulationResult) : HistoricalRecord :=
  {| record_summary := result_summary result;
     record_services := result_services result |}.

(** [RiskEngine.update_history]. *)
Definition update_history (history : list HistoricalRecord)
           (new_entry : HistoricalRecord) : list HistoricalRecord :=
  let new_history := history ++ [new_entry] in
  if history_limit settings <? Z.of_nat (length new_history)
  then py_slice_from (- history_limit settings) new_history
  else new_history.

End Engine.

(* ===================================================================== *)
(** * The history ledger ([app/storage.py])                               *)
(* ===================================================================== *)

Record SimulationStorage : Type := {
  _history : list HistoricalRecord;
  _latest_result : option SimulationResult;
}.

(** [SimulationStorage.__init__]. *)
Definition storage_init : SimulationStorage :=
  {| _history := []; _latest_result := None |}.

Section Storage.
Variable settings : Settings.

(** [SimulationStorage.record]. *)
Definition record (entry : HistoricalRecord) (result : option SimulationResult)
           (self : SimulationStorage) : SimulationStorage :=
  let history := _history self ++ [entry] in
  let history :=
    if history_limit settings <? Z.of_nat (length history)
    then py_slice_from (- history_limit settings) history
    else history in
  {| _history := history;
     _latest_result := match result with
                       | Some r => Some r
                       | None => _latest_result self
                       end |}.

(** [SimulationStorage.clear]. *)
Definition clear (self : SimulationStorage) : SimulationStorage :=
  {| _history := []; _latest_result := None |}.

(** [SimulationStorage.snapshot] and the [history] property: copies. *)
Definition snapshot (self : SimulationStorage) : list HistoricalRecord :=
  _history self.

(** A sequence of [record] calls, each with its entry and optional
    result, in order. *)
Definition record_all (calls : list (HistoricalRecord * option SimulationResult))
           (self : SimulationStorage) : SimulationStorage :=
  foldl (fun self call => record call.1 call.2 self) self calls.

End Storage.

(* ===================================================================== *)
(** * The request handlers' helpers ([app/main.py])                       *)
(* ===================================================================== *)

(** [_find_service_metric]: the first service of that name, otherwise the
    highest-risk service. *)
Definition _find_service_metric (result : SimulationResult) (name : string)
  : Result ServiceMetrics :=
  match List.find (fun metric => bool_decide (service_name metric = name))
                  (result_services result) with
  | Some metric => Ok metric
  | None => py_max_by risk_score (result_services result)
  end.

(** The response [cicd_hook] builds from the metrics it looked up. *)
Definition hook_response (service_metric : ServiceMetrics) : Result CICDHookResponse :=
  let message :=
    ("Risk Estimator Hook Triggered → Calculated Risk Score = "
       +:+ format_0f (risk_score service_metric) +:+ ". "
       +:+ decision_value (decision service_metric) +:+ ".")%string in
  CICDHookResponse_init
    {| message := message;
       response_risk_score := risk_score service_metric;
       response_decision := decision service_metric |}.

(** What [cicd_hook] answers for a requested name once the run is made:
    the lookup followed by the response. *)
Definition hook_lookup (result : SimulationResult) (name : string)
  : Result CICDHookResponse :=
  service_metric ← _find_service_metric result name;
  hook_response service_metric.

(** The specification's reading of the lookup-miss policy, "the
    substitution is surfaced to the caller": something in the response
    tells a caller whether the requested name was absent. *)
Definition substitution_surfaced : Prop :=
  exists substituted : CICDHookResponse -> bool,
    forall (result : SimulationResult) (name : string) (response : CICDHookResponse),
      hook_lookup result name = Ok response ->
      (substituted response = true <-> name ∉ (service_name <$> result_services result)).

Section Main.
Context {G : Type} `{Generator G} `{Betweenness}.
Variable settings : Settings.

(** [_execute_simulation]: run against the ledger's snapshot, then record
    the run. *)
Definition _execute_simulation (env : Env G) (storage : SimulationStorage)
           (seed : option Z) : Result (SimulationResult * SimulationStorage) :=
  let history_snapshot := snapshot storage in
  result ← run_simulation settings env history_snapshot seed;
  let history_entry := build_history_entry result in
  Ok (result, record settings history_entry (Some result) storage).

(** [cicd_hook]. *)
Definition cicd_hook (env : Env G) (payload : CICDHookRequest)
           (storage : SimulationStorage)
  : Result (CICDHookResponse * SimulationStorage) :=
  '(result, storage) ← _execute_simulation env storage None;
  service_metric ← _find_service_metric result (request_service_name payload);
  response ← hook_response service_metric;
  Ok (response, storage).

End Main.

(* ===================================================================== *)
(** * A scripted random source                                            *)
(* ===================================================================== *)

(** A generator that replays a tape of integers, one per draw, standing in
    for numpy's where a run is evaluated on concrete draws.  An exhausted
    tape yields zeros. *)
Module Scripted.

Definition next (tape : list Z) : Z * list Z :=
  match tape with
  | [] => (0, [])
  | x :: tape' => (x, tape')
  end.

(** A tape grown from a seed by a linear congruential step. *)
Fixpoint stream (n : nat) (x : Z) : list Z :=
  match n with
  | O => []
  | S n' =>
      let x' := (6364136223846793005 * x + 1442695040888963407) mod 2 ^ 64 in
      x' / 2 ^ 33 :: stream n' x'
  end.

#[global] Instance generator : Generator (list Z) := {|
  seed_rng s := stream 256 s;
  rng_integers lo hi tape :=
    let '(x, tape) := next tape in (lo + x mod (hi - lo), tape);
  rng_sample a k tape :=
    let '(x, tape) := next tape in
    (take (Z.to_nat k) (rotate (Z.to_nat (x mod Z.of_nat (length a))) a), tape);
  rng_pick a tape :=
    let '(x, tape) := next tape in
    (nth (Z.to_nat (x mod Z.of_nat (length a))) a ""%string, tape);
  rng_uniform lo hi tape :=
    let '(x, tape) := next tape in
    (lo + (hi - lo) * (inject_Z (x mod 100000) / 100000), tape)%Q;
|}.

(** Betweenness of a graph in which no shortest path has an interior
    node: every node scores zero. *)
Definition no_interior : Betweenness := fun _ => ∅.

(** Two services without candidate dependencies. *)
Definition two_services : Settings :=
  {| service_names := ["a"; "b"]%string;
     dependency_candidates := ∅;
     history_limit := 5 |}.

Definition env (now : Z) (tape : list Z) : Env (list Z) :=
  {| clock := now; entropy := tape |}.

(** A run of [two_services] at instant 0 on a tape whose draws are: the
    repair partners of [a] and of [b], then for [a] the rollback draw
    0.016 and the change-frequency draw 0.01; all later draws are zero. *)
Definition tape : list Z := [0; 0; 16; 10].

(** What is left of [tape] after the two repair draws. *)
Definition signal_tape : list Z := [16; 10].

Definition service_a : ServiceMetrics :=
  {| service_name := "a";
     dependency_impact_score := 40.00;
     rollback_rate := 0.02;
     change_frequency := 0.01;
     error_spike_history := 0.00;
     latency_instability := 0.00;
     risk_score := 16.00;
     decision := AUTO_APPROVE |}.

Definition service_b : ServiceMetrics :=
  {| service_name := "b";
     dependency_impact_score := 40.00;
     rollback_rate := 0.00;
     change_frequency := 0.00;
     error_spike_history := 0.00;
     latency_instability := 0.00;
     risk_score := 16.00;
     decision := AUTO_APPROVE |}.

Definition sample_graph : DiGraph := [("a", ["b"]); ("b", ["a"])]%string.

Definition sample_result : SimulationResult :=
  {| result_summary :=
       {| average_risk := 16.00;
          highest_risk_service := "a";
          highest_risk_score := 16.00;
          blocked_services := [];
          blocked_count := 0;
          timestamp_utc := 0 |};
     result_services := [service_a; service_b];
     result_edges := [ {| source := "a"; target := "b" |};
                       {| source := "b"; target := "a" |} ] |}.

(** A hook request for the service [name]. *)
Definition request (name : string) : CICDHookRequest :=
  {| pipeline_id := "pipeline-1";
     request_service_name := name;
     requested_by := None |}.

(** A history entry stamped with the instant [t]. *)
Definition entry (t : Z) : HistoricalRecord :=
  {| record_summary :=
       {| average_risk := 16.00;
          highest_risk_service := "a";
          highest_risk_score := 16.00;
          blocked_services := [];
          blocked_count := 0;
          timestamp_utc := t |};
     record_services := [service_a; service_b] |}.

(** Six [record] calls without a result. *)
Definition six_calls : list (HistoricalRecord * option SimulationResult) :=
  (fun t => (entry t, None)) <$> [1; 2; 3; 4; 5; 6].

End Scripted.

(* ===================================================================== *)
(** * Settings construction, queries and chart helpers                    *)
(* ===================================================================== *)

(** Constructing [Settings] runs the [history_limit] validator; pydantic
    reports a validator's [ValueError] as a validation error. *)
Definition Settings_init (s : Settings) : Result Settings :=
  match _validate_history_limit (history_limit s) with
  | Ok limit =>
      Ok {| service_names := service_names s;
            dependency_candidates := dependency_candidates s;
            history_limit := limit |}
  | Raise _ => Raise ValidationError
  end.

(** The position of a decision in the enum's declaration order, from the
    most lenient to the strictest. *)
Definition severity (d : DeploymentDecision) : Z :=
  match d with
  | AUTO_APPROVE => 0
  | MANUAL_REVIEW => 1
  | BLOCK_DEPLOYMENT => 2
  end.

(** [SummaryResponse] of [app/models.py]. *)
Record SummaryResponse : Type := {
  summary_average_risk : Q;
  summary_highest_risk_service : string;
  summary_highest_risk_score : Q;
  summary_blocked_count : Z;
}.

Definition SummaryResponse_init (r : SummaryResponse) : Result SummaryResponse :=
  if ge0_le100 (summary_average_risk r)
     && ge0_le100 (summary_highest_risk_score r)
     && (0 <=? summary_blocked_count r)
  then Ok r else Raise ValidationError.

(** [HistoricalSimulationResult] of [app/models.py]: a result with the
    history beside it. *)
Record HistoricalSimulationResult : Type := {
  hist_summary : SimulationSummary;
  hist_services : list ServiceMetrics;
  hist_edges : list GraphEdge;
  hist_history : list HistoricalRecord;
}.

(** What a request handler hands back: a payload, an [HTTPException] with
    its status code and detail, or an exception that escapes it. *)
Inductive Response (A : Type) : Type :=
| Served (a : A)
| HTTPException (status_code : Z) (detail : string)
| Escaped (e : PyError).
Arguments Served {A} a.
Arguments HTTPException {A} status_code detail.
Arguments Escaped {A} e.

(** The [history] property of [SimulationStorage]: a copy of the list. *)
Definition storage_history (self : SimulationStorage) : list HistoricalRecord :=
  _history self.

(** [get_services] of [app/main.py]. *)
Definition get_services (storage : SimulationStorage) : Response SimulationResult :=
  match _latest_result storage with
  | None => HTTPException 404 "No simulation results available yet."
  | Some latest => Served latest
  end.

(** [get_summary] of [app/main.py]. *)
Definition get_summary (storage : SimulationStorage) : Response SummaryResponse :=
  match _latest_result storage with
  | None => HTTPException 404 "Simulation not run yet."
  | Some latest =>
      let summary := result_summary latest in
      match SummaryResponse_init
              {| summary_average_risk := average_risk summary;
                 summary_highest_risk_service := highest_risk_service summary;
                 summary_highest_risk_score := highest_risk_score summary;
                 summary_blocked_count := blocked_count summary |} with
      | Ok response => Served response
      | Raise e => Escaped e
      end
  end.

Section Handlers.
Context {G : Type} `{Generator G} `{Betweenness}.
Variable settings : Settings.

(** [simulate] of [app/main.py]. *)
Definition simulate (env : Env G) (storage : SimulationStorage) (seed : option Z)
  : Result (SimulationResult * SimulationStorage) :=
  _execute_simulation settings env storage seed.

(** [simulate_with_history] of [app/main.py]. *)
Definition simulate_with_history (env : Env G) (storage : SimulationStorage)
           (seed : option Z)
  : Result (HistoricalSimulationResult * SimulationStorage) :=
  '(result, storage) ← _execute_simulation settings env storage seed;
  let history := storage_history storage in
  Ok ({| hist_summary := result_summary result;
         hist_services := result_services result;
         hist_edges := result_edges result;
         hist_history := history |}, storage).

End Handlers.

(** [min(values)] and [max(values)] of a non-empty list of floats, given as
    its head and tail: the first minimal, respectively maximal, element. *)
Definition py_min_of (first : Q) (rest : list Q) : Q :=
  foldl (fun best v => if Qltb v best then v else best) first rest.

Definition py_max_of (first : Q) (rest : list Q) : Q :=
  foldl (fun best v => if Qltb best v then v else best) first rest.

(** [_get_colour_gradient] of [app/viz.py]. *)
Definition _get_colour_gradient (values : list Q) : list Q :=
  match values with
  | [] => []
  | v :: vs =>
      let min_value := py_min_of v vs in
      let max_value := py_max_of v vs in
      if Qeq_bool max_value min_value
      then replicate (length values) 0.5%Q
      else (fun value => (value - min_value) / (max_value - min_value))%Q <$> values
  end.

(** [sorted(services, key=lambda svc: svc.risk_score, reverse=True)]:
    insertion after the last element whose score is not smaller keeps
    equal scores in their original order. *)
Fixpoint insert_by_risk (m : ServiceMetrics) (sorted : list ServiceMetrics)
  : list ServiceMetrics :=
  match sorted with
  | [] => [m]
  | x :: rest =>
      if Qltb (risk_score x) (risk_score m)
      then m :: x :: rest
      else x :: insert_by_risk m rest
  end.

(** [_sort_services_by_risk] of [app/viz.py]. *)
Definition _sort_services_by_risk (services : list ServiceMetrics)
  : list ServiceMetrics :=
  foldl (fun acc m => insert_by_risk m acc) [] services.

(** The result of the last call of a sequence that carried one. *)
Definition last_result (calls : list (HistoricalRecord * option SimulationResult))
  : option SimulationResult :=
  foldl (fun latest call => match call.2 with
                            | Some r => Some r
                            | None => latest
                            end) None calls.

(** Every edge joins two nodes of the graph. *)
Definition edge_closed (g : DiGraph) : Prop :=
  forall u v, (u, v) ∈ graph_edges g -> u ∈ nodes g /\ v ∈ nodes g.

(** The graph invariants every step of the generator keeps. *)
Definition well_formed (g : DiGraph) : Prop := NoDup (nodes g) /\ edge_closed g.

(** The non-decreasing order of [sorted(..., key=service_name)]. *)
Definition name_le (a b : ServiceMetrics) : Prop :=
  String.ltb (service_name b) (service_name a) = false.

(** The non-increasing order of [sorted(..., key=risk_score,
    reverse=True)]. *)
Definition risk_ge (a b : ServiceMetrics) : Prop :=
  (risk_score b <= risk_score a)%Q.

(* ===================================================================== *)
(** * The engine on binary64 values                                       *)
(* ===================================================================== *)

(** The scoring functions of [app/risk_engine.py] once more, with a Python
    float as the IEEE binary64 value it is.  [+], [*] and [/] are the
    correctly rounded operations of the processor, so every intermediate
    result is rounded as the interpreter rounds it; a comparison compares
    the numbers the two floats stand for. *)
Module Ieee.
Import PrimFloat SpecFloat FloatOps.

(** What a float stands for. *)
Inductive Real : Type :=
| Finite (q : Q)
| Infinite (negative : bool)
| NaN.

Definition real_of (x : float) : Real :=
  match Prim2SF x with
  | S754_zero _ => Finite 0
  | S754_finite s m e =>
      let n := if s then Z.neg m else Z.pos m in
      Finite (if 0 <=? e then inject_Z (n * 2 ^ e) else n # Z.to_pos (2 ^ (- e)))
  | S754_infinity s => Infinite s
  | S754_nan => NaN
  end.

(** [x < y] and [x <= y]; a NaN compares false. *)
Definition float_lt (x y : float) : bool :=
  match real_of x, real_of y with
  | Finite p, Finite q => Qltb p q
  | Finite _, Infinite negative => negb negative
  | Infinite negative, Finite _ => negative
  | Infinite n1, Infinite n2 => n1 && negb n2
  | _, _ => false
  end.

Definition float_le (x y : float) : bool :=
  match real_of x, real_of y with
  | Finite p, Finite q => Qle_bool p q
  | Finite _, Infinite negative => negb negative
  | Infinite negative, Finite _ => negative
  | Infinite n1, Infinite n2 => n1 || negb n2
  | _, _ => false
  end.

(** An integer as an unrounded binary number. *)
Definition spec_of_int (z : Z) : spec_float :=
  match z with
  | Z0 => S754_zero false
  | Zpos p => S754_finite false p 0
  | Zneg p => S754_finite true p 0
  end.

(** The double nearest to the quotient [a/b] of two integers, [b] not
    zero: Python's [a / b] on integers, and the double a decimal numeral
    of that value is read as. *)
Definition int_div (a b : Z) : float :=
  SF2Prim (SFdiv prec emax (spec_of_int a) (spec_of_int b)).

(** [round(x, 2)]: the decimal with two places nearest to the value of
    [x], ties to the even one, read back as a double; it keeps the sign of
    [x], and an infinity or a NaN is returned as it is. *)
Definition py_round2 (x : float) : float :=
  match real_of x with
  | Finite q =>
      let hundredths := round_half_even (q * 100) in
      if hundredths =? 0
      then (if get_sign x then (-0)%float else 0%float)
      else int_div hundredths 100
  | _ => x
  end.

(** Python's two-argument [max(a, b)] and [min(a, b)]. *)
Definition py_max2 (a b : float) : float := if float_lt a b then b else a.
Definition py_min2 (a b : float) : float := if float_lt b a then b else a.

(** [min(max(x, 0), 100)]. *)
Definition clamp_0_100 (x : float) : float := py_min2 (py_max2 x 0%float) 100%float.

(** [numpy.mean] of a list of floats. *)
Class Mean := np_mean : list float -> float.

(** [rng.uniform(low, high)] as a float. *)
Class FloatSource (G : Type) := rng_uniform : float -> float -> G -> float * G.

(** [networkx.betweenness_centrality], a dictionary of floats. *)
Class Betweenness := betweenness_centrality : DiGraph -> gmap string float.

Record ServiceMetrics : Type := {
  service_name : string;
  dependency_impact_score : float;
  rollback_rate : float;
  change_frequency : float;
  error_spike_history : float;
  latency_instability : float;
  risk_score : float;
  decision : DeploymentDecision;
}.

Record SimulationSummary : Type := {
  average_risk : float;
  highest_risk_service : string;
  highest_risk_score : float;
  blocked_services : list string;
  blocked_count : Z;
  timestamp_utc : Z;
}.

Record SimulationResult : Type := {
  result_summary : SimulationSummary;
  result_services : list ServiceMetrics;
  result_edges : list GraphEdge;
}.

Record HistoricalRecord : Type := {
  record_summary : SimulationSummary;
  record_services : list ServiceMetrics;
}.

(** [Field(..., ge=0, le=100)]. *)
Definition ge0_le100 (x : float) : bool := float_le 0%float x && float_le x 100%float.

(** What numpy documents of [rng.uniform(0, 100)]: the draw lies between
    the two limits. *)
Class FloatSourceLaws (G : Type) `{FloatSource G} : Prop :=
  uniform_percentage :
    forall rng : G, ge0_le100 (rng_uniform 0%float 100%float rng).1 = true.

Definition ServiceMetrics_init (m : ServiceMetrics) : Result ServiceMetrics :=
  if ge0_le100 (dependency_impact_score m)
     && ge0_le100 (rollback_rate m)
     && ge0_le100 (change_frequency m)
     && ge0_le100 (error_spike_history m)
     && ge0_le100 (latency_instability m)
     && ge0_le100 (risk_score m)
  then Ok m else Raise ValidationError.

Definition SimulationSummary_init (s : SimulationSummary) : Result SimulationSummary :=
  if ge0_le100 (average_risk s)
     && ge0_le100 (highest_risk_score s)
     && (0 <=? blocked_count s)
  then Ok s else Raise ValidationError.

(** [RiskEngine._classify_risk]. *)
Definition _classify_risk (score : float) : DeploymentDecision :=
  if float_lt score 40%float then AUTO_APPROVE
  else if float_lt score 70%float then MANUAL_REVIEW
  else BLOCK_DEPLOYMENT.

(** [RiskEngine._normalise_to_percentage]. *)
Definition _normalise_to_percentage (value : float) : float :=
  if float_lt value 0%float then 0%float
  else if float_lt 1%float value then 100%float
  else (value * 100)%float.

Record MetricsDict : Type := {
  md_dependency_impact_score : float;
  md_rollback_rate : float;
  md_change_frequency : float;
  md_error_spike_history : float;
  md_latency_instability : float;
}.

(** [RiskEngine._build_service_metrics]. *)
Definition _build_service_metrics (service : string) (metrics : MetricsDict)
  : Result ServiceMetrics :=
  let dependency_score := md_dependency_impact_score metrics in
  let rollback := md_rollback_rate metrics in
  let change := md_change_frequency metrics in
  let error_spike := md_error_spike_history metrics in
  let latency := md_latency_instability metrics in
  let risk := (0.4 * dependency_score
               + 0.2 * rollback
               + 0.15 * change
               + 0.15 * error_spike
               + 0.1 * latency)%float in
  let risk := py_round2 (clamp_0_100 risk) in
  let decision := _classify_risk risk in
  ServiceMetrics_init
    {| service_name := service;
       dependency_impact_score := py_round2 dependency_score;
       rollback_rate := py_round2 rollback;
       change_frequency := py_round2 change;
       error_spike_history := py_round2 error_spike;
       latency_instability := py_round2 latency;
       risk_score := risk;
       decision := decision |}.

(** The published formula evaluated on a record's own stored signals. *)
Definition formula_on_stored (m : ServiceMetrics) : float :=
  py_round2
    (clamp_0_100
       (0.4 * dependency_impact_score m
        + 0.2 * rollback_rate m
        + 0.15 * change_frequency m
        + 0.15 * error_spike_history m
        + 0.1 * latency_instability m)%float).

(** [RiskEngine._collect_blocked_services]. *)
Definition _collect_blocked_services (history : list HistoricalRecord) : gset string :=
  match last history with
  | None => ∅
  | Some latest =>
      list_to_set
        (service_name <$>
           filter (fun metrics => decision metrics = BLOCK_DEPLOYMENT)
                  (record_services latest))
  end.

(** [max(items, key=...)]. *)
Definition py_max_by {A : Type} (key : A -> float) (items : list A) : Result A :=
  match items with
  | [] => Raise ValueError
  | x :: rest =>
      Ok (foldl (fun best item => if float_lt (key best) (key item) then item else best)
                x rest)
  end.

(** [sorted(services, key=lambda item: item.service_name)]. *)
Fixpoint insert_by_name (m : ServiceMetrics) (sorted : list ServiceMetrics)
  : list ServiceMetrics :=
  match sorted with
  | [] => [m]
  | x :: rest =>
      if String.ltb (service_name m) (service_name x)
      then m :: x :: rest
      else x :: insert_by_name m rest
  end.

Definition sorted_by_name (services : list ServiceMetrics) : list ServiceMetrics :=
  foldl (fun acc m => insert_by_name m acc) [] services.

(** [RiskEngine._summarise_services]. *)
Definition _summarise_services `{Mean} (now : Z) (services : list ServiceMetrics)
  : Result SimulationSummary :=
  let risks := risk_score <$> services in
  let average := match risks with
                 | [] => 0%float
                 | _ => py_round2 (np_mean risks)
                 end in
  highest ← py_max_by risk_score services;
  let blocked := service_name <$>
                   filter (fun svc => decision svc = BLOCK_DEPLOYMENT) services in
  SimulationSummary_init
    {| average_risk := average;
       highest_risk_service := service_name highest;
       highest_risk_score := risk_score highest;
       blocked_services := blocked;
       blocked_count := Z.of_nat (length blocked);
       timestamp_utc := now |}.

(** [m] sits at index [i] of [items], no item has a larger key, and every
    item before it has a smaller one. *)
Definition first_max_at {A : Type} (key : A -> float) (items : list A) (i : nat) (m : A)
  : Prop :=
  items !! i = Some m /\
  (forall m', m' ∈ items -> float_le (key m') (key m) = true) /\
  (forall j m', (j < i)%nat -> items !! j = Some m' -> float_lt (key m') (key m) = true).

Section Engine.
Context {G : Type} `{Generator G} `{FloatSource G} `{Betweenness} `{Mean}.
Variable settings : Settings.

(** The [metrics] dictionary built for one service, after the three
    directly drawn signals have been rounded in place. *)
Definition draw_metrics (graph : DiGraph) (blocked_lookup : gset string)
           (max_in_degree : Z) (service : string) (rng : G) : MetricsDict * G :=
  let dependency_score :=
    _normalise_to_percentage
      (0.6 * default 0%float (betweenness_centrality graph !! service)
       + 0.4 * (if Z.eqb max_in_degree 0 then 0%float
                else int_div (in_degree graph service) max_in_degree))%float in
  let '(rollback, rng) := rng_uniform 0%float 100%float rng in
  let rollback := if decide (service ∈ blocked_lookup)
                  then (rollback * 0.85)%float else rollback in
  let rollback := _normalise_to_percentage (rollback / 100)%float in
  let '(change, rng) := rng_uniform 0%float 100%float rng in
  let '(error_spike, rng) := rng_uniform 0%float 100%float rng in
  let '(latency, rng) := rng_uniform 0%float 100%float rng in
  ({| md_dependency_impact_score := dependency_score;
      md_rollback_rate := rollback;
      md_change_frequency := py_round2 change;
      md_error_spike_history := py_round2 error_spike;
      md_latency_instability := py_round2 latency |}, rng).

(** The body of [for service in graph.nodes()]. *)
Definition service_step (graph : DiGraph) (blocked_lookup : gset string)
           (max_in_degree : Z) (service : string)
           (st : list ServiceMetrics * G) : Result (list ServiceMetrics * G) :=
  let '(services, rng) := st in
  let '(metrics, rng) := draw_metrics graph blocked_lookup max_in_degree service rng in
  final_metrics ← _build_service_metrics service metrics;
  Ok (services ++ [final_metrics], rng).

(** The passes of that loop: each service with the generator as its pass
    finds it. *)
Fixpoint passes (graph : DiGraph) (blocked_lookup : gset string)
         (max_in_degree : Z) (services : list string) (rng : G) : list (string * G) :=
  match services with
  | [] => []
  | service :: rest =>
      (service, rng)
        :: passes graph blocked_lookup max_in_degree rest
                  (draw_metrics graph blocked_lookup max_in_degree service rng).2
  end.

(** [RiskEngine._generate_service_metrics]. *)
Definition _generate_service_metrics (graph : DiGraph) (blocked_services : gset string)
           (rng : G) : Result (list ServiceMetrics) :=
  let blocked_lookup := blocked_services in
  let max_in_degree := max_in_degree_of graph in
  '(services, _) ← for_each (service_step graph blocked_lookup max_in_degree)
                            (nodes graph) ([], rng);
  Ok (sorted_by_name services).

(** [RiskEngine.run_simulation]. *)
Definition run_simulation (env : Env G) (history : list HistoricalRecord)
           (seed : option Z) : Result SimulationResult :=
  rng ← default_rng seed (entropy env);
  '(graph, rng) ← _generate_dependency_graph settings rng;
  let blocked_services := _collect_blocked_services history in
  services ← _generate_service_metrics graph blocked_services rng;
  summary ← _summarise_services (clock env) services;
  let edges := (fun '(u, v) => {| source := u; target := v |}) <$> graph_edges graph in
  Ok {| result_summary := summary; result_services := services; result_edges := edges |}.

End Engine.

(** ** Scripted draws *)

(** A tape entry read as thousandths, 29000 drawing 29.0 and 16 drawing
    0.016; an entry beyond the limits of the engine's draws draws 0. *)
#[global] Instance tape_source : FloatSource (list Z) := fun _ _ tape =>
  let '(x, tape) := Scripted.next tape in
  let v := int_div x 1000 in
  (if ge0_le100 v then v else 0%float, tape).

(** Betweenness of a graph in which no shortest path has an interior
    node: every node scores zero. *)
Definition no_interior : Betweenness := fun _ => ∅.

(** The sum from left to right divided by the count. *)
Definition running_mean : Mean := fun xs =>
  (foldl add 0%float xs / int_div (Z.of_nat (length xs)) 1)%float.

Definition service_a : ServiceMetrics :=
  {| service_name := "a";
     dependency_impact_score := 40%float;
     rollback_rate := 0.02%float;
     change_frequency := 0.01%float;
     error_spike_history := 0%float;
     latency_instability := 0%float;
     risk_score := 16%float;
     decision := AUTO_APPROVE |}.

Definition service_b : ServiceMetrics :=
  {| service_name := "b";
     dependency_impact_score := 40%float;
     rollback_rate := 0%float;
     change_frequency := 0%float;
     error_spike_history := 0%float;
     latency_instability := 0%float;
     risk_score := 16%float;
     decision := AUTO_APPROVE |}.

Definition service_c : ServiceMetrics :=
  {| service_name := "c";
     dependency_impact_score := 40%float;
     rollback_rate := 0.05%float;
     change_frequency := 0%float;
     error_spike_history := 0%float;
     latency_instability := 0%float;
     risk_score := 16.01%float;
     decision := AUTO_APPROVE |}.

(** Floats of every kind, for checking the comparisons. *)
Definition order_samples : list float :=
  [ 0; -0; 1; -1; 0.1; 39.99; 40; 69.99; 70; 100; 100.00000000000001;
    16.005000000000003; 1e-320; -1e-320; 1e300; -1e300;
    infinity; neg_infinity; nan ]%float.



Definition sample_result : SimulationResult :=
  {| result_summary :=
       {| average_risk := 16%float;
          highest_risk_service := "a";
          highest_risk_score := 16%float;
          blocked_services := [];
          blocked_count := 0;
          timestamp_utc := 0 |};
     result_services := [service_a; service_b];
     result_edges := [ {| source := "a"; target := "b" |};
                       {| source := "b"; target := "a" |} ] |}.

End Ieee.

(* ===================================================================== *)
(** * Properties: numbers                                                 *)
(* ===================================================================== *)

Section NumberFacts.

Lemma Qltb_lt a b : Qltb a b = true <-> (a < b)%Q.
Proof.
  unfold Qltb. rewrite negb_true_iff. split.
  - intros Hb. apply Qnot_le_lt. intros Hle.
    apply Qle_bool_iff in Hle. congruence.
  - intros Hlt. destruct (Qle_bool b a) eqn:E; [|reflexivity].
    apply Qle_bool_iff in E. exfalso. exact (Qlt_not_le _ _ Hlt E).
Qed.

Lemma Qltb_ge a b : Qltb a b = false <-> (b <= a)%Q.
Proof. unfold Qltb. rewrite negb_false_iff. apply Qle_bool_iff. Qed.

Lemma ge0_le100_spec x : ge0_le100 x = true <-> (0 <= x)%Q /\ (x <= 100)%Q.
Proof.
  unfold ge0_le100. rewrite andb_true_iff, !Qle_bool_iff. reflexivity.
Qed.

(** The rounded integer is within one half of the argument, stated on
    numerator and denominator. *)
Lemma round_half_even_near (q : Q) :
  2 * Z.abs (Qnum q - round_half_even q * Z.pos (Qden q)) <= Z.pos (Qden q).
Proof.
  unfold round_half_even.
  set (n := Qnum q). set (d := Z.pos (Qden q)).
  assert (Hd : 0 < d) by (unfold d; lia).
  pose proof (Z.div_mod n d ltac:(lia)) as Hdm.
  pose proof (Z.mod_pos_bound n d Hd) as Hr.
  destruct (Z.compare_spec (2 * (n mod d)) d) as [E|E|E];
    [destruct (Z.even (n / d))| |]; nia.
Qed.

Lemma round_half_even_lower (q : Q) : (inject_Z (round_half_even q) - 0.5 <= q)%Q.
Proof.
  pose proof (round_half_even_near q) as Hn.
  destruct q as [n d]. cbn [Qnum Qden] in Hn.
  unfold Qle, Qminus, Qplus, Qopp, inject_Z. cbn [Qnum Qden].
  set (z := round_half_even (n # d)) in *. lia.
Qed.

Lemma round_half_even_upper (q : Q) : (q <= inject_Z (round_half_even q) + 0.5)%Q.
Proof.
  pose proof (round_half_even_near q) as Hn.
  destruct q as [n d]. cbn [Qnum Qden] in Hn.
  unfold Qle, Qplus, inject_Z. cbn [Qnum Qden].
  set (z := round_half_even (n # d)) in *. lia.
Qed.

Lemma hundredths (z : Z) : (z # 100 == inject_Z z * 0.01)%Q.
Proof. unfold Qeq, Qmult, inject_Z. cbn. lia. Qed.

Lemma round_half_even_hundredths (z : Z) :
  round_half_even ((z # 100) * 100) = z.
Proof.
  unfold round_half_even, Qmult. cbn [Qnum Qden].
  change (Z.pos (100 * 1)) with 100.
  rewrite Z.div_mul, Z.mod_mul by lia. reflexivity.
Qed.

(** A value with two decimals is a fixed point of [round(x, 2)]. *)
Lemma py_round2_idempotent (x : Q) : py_round2 (py_round2 x) = py_round2 x.
Proof.
  unfold py_round2. by rewrite round_half_even_hundredths.
Qed.

Lemma clamp_0_100_cases (x : Q) :
  ((x < 0)%Q /\ clamp_0_100 x = 0%Q) \/
  ((0 <= x)%Q /\ (x <= 100)%Q /\ clamp_0_100 x = x) \/
  ((100 < x)%Q /\ clamp_0_100 x = 100%Q).
Proof.
  unfold clamp_0_100, py_min2, py_max2.
  destruct (Qltb x 0) eqn:E0.
  - apply Qltb_lt in E0. left. split; [exact E0|reflexivity].
  - apply Qltb_ge in E0. destruct (Qltb 100 x) eqn:E1.
    + apply Qltb_lt in E1. right. right. split; [exact E1|reflexivity].
    + apply Qltb_ge in E1. right. left. repeat split; assumption.
Qed.

Lemma clamp_0_100_range (x : Q) : (0 <= clamp_0_100 x)%Q /\ (clamp_0_100 x <= 100)%Q.
Proof.
  destruct (clamp_0_100_cases x) as [[Hx ->]|[(Hx0 & Hx1 & ->)|[Hx ->]]];
    split; lra.
Qed.

(** Rounding keeps a percentage a percentage. *)
Lemma py_round2_range (x : Q) :
  (0 <= x)%Q -> (x <= 100)%Q -> (0 <= py_round2 x)%Q /\ (py_round2 x <= 100)%Q.
Proof.
  intros H0 H1.
  pose proof (round_half_even_lower (x * 100)) as Hl.
  pose proof (round_half_even_upper (x * 100)) as Hu.
  unfold py_round2. set (z := round_half_even (x * 100)) in *.
  assert (Ha : (inject_Z z <= 10000.5)%Q) by lra.
  assert (Hb : (-0.5 <= inject_Z z)%Q) by lra.
  unfold Qle, inject_Z in Ha, Hb |- *. cbn in Ha, Hb |- *. lia.
Qed.

End NumberFacts.

(* ===================================================================== *)
(** * Properties: decision thresholds                                     *)
(* ===================================================================== *)

(** C2: the decision is a function of the risk score alone, cut at 40 and
    70: below 40 is AutoApprove, from 40 up to but excluding 70 is
    ManualReview, 70 and above is BlockDeployment; 39.99, 40.00, 69.99 and
    70.00 fall on the sides the threshold table gives them. *)
Theorem classify_risk_thresholds :
  (forall score : Q,
      ((score < 40)%Q <-> _classify_risk score = AUTO_APPROVE) /\
      ((40 <= score)%Q /\ (score < 70)%Q <-> _classify_risk score = MANUAL_REVIEW) /\
      ((70 <= score)%Q <-> _classify_risk score = BLOCK_DEPLOYMENT)) /\
  _classify_risk 39.99 = AUTO_APPROVE /\
  _classify_risk 40.00 = MANUAL_REVIEW /\
  _classify_risk 69.99 = MANUAL_REVIEW /\
  _classify_risk 70.00 = BLOCK_DEPLOYMENT.
Proof.
  split; [|repeat split; reflexivity].
  intros score. unfold _classify_risk.
  destruct (Qltb score 40) eqn:E40; destruct (Qltb score 70) eqn:E70;
    try apply Qltb_lt in E40; try apply Qltb_ge in E40;
    try apply Qltb_lt in E70; try apply Qltb_ge in E70;
    repeat split; try discriminate; try tauto; intros; exfalso; lra.
Qed.

(* ===================================================================== *)
(** * Properties: the risk score                                          *)
(* ===================================================================== *)

Section RiskScore.
Context {G : Type} `{Generator G} `{Betweenness}.

Lemma ServiceMetrics_init_Ok (m m' : ServiceMetrics) :
  ServiceMetrics_init m = Ok m' -> m' = m.
Proof.
  unfold ServiceMetrics_init. intros Hinit.
  destruct (_ && _) in Hinit; congruence.
Qed.

(** What a successfully built record holds, field by field. *)
Lemma build_service_metrics_fields (service : string) (md : MetricsDict)
      (m : ServiceMetrics) :
  _build_service_metrics service md = Ok m ->
  service_name m = service /\
  dependency_impact_score m = py_round2 (md_dependency_impact_score md) /\
  rollback_rate m = py_round2 (md_rollback_rate md) /\
  change_frequency m = py_round2 (md_change_frequency md) /\
  error_spike_history m = py_round2 (md_error_spike_history md) /\
  latency_instability m = py_round2 (md_latency_instability md) /\
  risk_score m =
    py_round2 (clamp_0_100
                 (weighted_risk (md_dependency_impact_score md) (md_rollback_rate md)
                                (md_change_frequency md) (md_error_spike_history md)
                                (md_latency_instability md))) /\
  decision m = _classify_risk (risk_score m).
Proof.
  unfold _build_service_metrics. intros Hb.
  apply ServiceMetrics_init_Ok in Hb. subst m. cbn. repeat split; reflexivity.
Qed.

Lemma insert_by_name_perm (m : ServiceMetrics) (l : list ServiceMetrics) :
  insert_by_name m l ≡ₚ m :: l.
Proof.
  induction l as [|x l IH]; cbn; [reflexivity|].
  destruct (String.ltb _ _); [reflexivity|].
  rewrite IH. apply Permutation_swap.
Qed.

(** Sorting rearranges and nothing else. *)
Lemma sorted_by_name_perm (l : list ServiceMetrics) : sorted_by_name l ≡ₚ l.
Proof.
  unfold sorted_by_name.
  assert (Hgen : forall acc, foldl (fun acc m => insert_by_name m acc) acc l ≡ₚ acc ++ l).
  { induction l as [|x l IH]; intros acc; cbn.
    - by rewrite app_nil_r.
    - rewrite IH, insert_by_name_perm.
      by rewrite (Permutation_middle acc l x). }
  apply (Hgen []).
Qed.

(** Every record the service loop appends was built from the dictionary
    drawn for some node. *)
Lemma service_loop_built (graph : DiGraph) (blocked : gset string) (mx : Z)
      (ns : list string) (acc out : list ServiceMetrics) (rng rng' : G) :
  for_each (service_step graph blocked mx) ns (acc, rng) = Ok (out, rng') ->
  forall m, m ∈ out ->
    m ∈ acc \/
    exists service rng0,
      service ∈ ns /\
      _build_service_metrics service (draw_metrics graph blocked mx service rng0).1 = Ok m.
Proof.
  revert acc rng. induction ns as [|n ns IH]; intros acc rng Hloop m Hm; cbn in Hloop.
  - injection Hloop as <- <-. by left.
  - unfold service_step at 1 in Hloop.
    destruct (draw_metrics graph blocked mx n rng) as [md rng1] eqn:Hdraw.
    destruct (_build_service_metrics n md) as [fm|e] eqn:Hbuild; cbn in Hloop;
      [|discriminate].
    destruct (IH _ _ Hloop m Hm) as [Hacc|(s & rng0 & Hs & Hb)].
    + apply elem_of_app in Hacc as [Hacc|Hnew]; [by left|].
      apply list_elem_of_singleton in Hnew. subst m. right.
      exists n, rng. split; [left|]. by rewrite Hdraw.
    + right. exists s, rng0. split; [by right|exact Hb].
Qed.

End RiskScore.

Section RunFacts.
Context {G : Type} `{Generator G} `{Betweenness}.

Lemma bind_Ok {A B : Type} (f : A -> Result B) (m : Result A) (b : B) :
  m ≫= f = Ok b -> exists a, m = Ok a /\ f a = Ok b.
Proof. destruct m as [a|e]; cbn; [eauto|discriminate]. Qed.

(** The stages of a successful run. *)
Lemma run_simulation_Ok (settings : Settings) (env : Env G)
      (history : list HistoricalRecord) (seed : option Z) (result : SimulationResult) :
  run_simulation settings env history seed = Ok result ->
  exists rng graph rng' summary,
    default_rng seed (entropy env) = Ok rng /\
    _generate_dependency_graph settings rng = Ok (graph, rng') /\
    _generate_service_metrics graph (_collect_blocked_services history) rng'
      = Ok (result_services result) /\
    _summarise_services (clock env) (result_services result) = Ok summary /\
    result_summary result = summary /\
    result_edges result =
      (fun '(u, v) => {| source := u; target := v |}) <$> graph_edges graph.
Proof.
  unfold run_simulation. intros Hrun.
  apply bind_Ok in Hrun as (rng & Hrng & Hrun).
  apply bind_Ok in Hrun as ([graph rng'] & Hgraph & Hrun).
  apply bind_Ok in Hrun as (services & Hservices & Hrun).
  apply bind_Ok in Hrun as (summary & Hsummary & Hrun).
  injection Hrun as <-. cbn.
  exists rng, graph, rng', summary. repeat split; assumption.
Qed.

(** Every record of a run was built from the dictionary drawn for a node
    of that run's graph. *)
Lemma generated_metrics_built (graph : DiGraph) (blocked : gset string) (rng : G)
      (services : list ServiceMetrics) (m : ServiceMetrics) :
  _generate_service_metrics graph blocked rng = Ok services ->
  m ∈ services ->
  exists service rng0,
    service ∈ nodes graph /\
    _build_service_metrics service
      (draw_metrics graph blocked (max_in_degree_of graph) service rng0).1 = Ok m.
Proof.
  unfold _generate_service_metrics. intros Hgen Hm.
  apply bind_Ok in Hgen as ([out rng'] & Hloop & Hsort).
  injection Hsort as <-. rewrite sorted_by_name_perm in Hm.
  destruct (service_loop_built _ _ _ _ _ _ _ _ Hloop m Hm) as [Hnil|Hbuilt].
  - by apply elem_of_nil in Hnil.
  - exact Hbuilt.
Qed.

End RunFacts.

(** The scripted run evaluates to [Scripted.sample_result]. *)
Lemma sample_run :
  @run_simulation _ Scripted.generator Scripted.no_interior
    Scripted.two_services (Scripted.env 0 Scripted.tape) [] None
  = Ok Scripted.sample_result.
Proof. vm_compute. reflexivity. Qed.

(* ===================================================================== *)
(** * Properties: graphs                                                  *)
(* ===================================================================== *)

Section GraphFacts.

Lemma elem_of_graph_edges (g : DiGraph) (u v : string) :
  (u, v) ∈ graph_edges g <-> exists vs, (u, vs) ∈ g /\ v ∈ vs.
Proof.
  unfold graph_edges. rewrite list_elem_of_bind. split.
  - intros ([u' vs] & Hin & Hg). apply list_elem_of_fmap in Hin as (v' & Heq & Hv).
    injection Heq as -> ->. eauto.
  - intros (vs & Hg & Hv). exists (u, vs). split; [|exact Hg].
    apply list_elem_of_fmap. eauto.
Qed.

Lemma nodes_add_node (n n' : string) (g : DiGraph) :
  n' ∈ nodes (add_node n g) <-> n' = n \/ n' ∈ nodes g.
Proof.
  unfold add_node. destruct (decide (n ∈ nodes g)) as [Hin|Hout].
  - split; [by right|]. intros [->|Hn]; assumption.
  - unfold nodes. rewrite fmap_app, elem_of_app. cbn.
    rewrite list_elem_of_singleton. tauto.
Qed.

Lemma graph_edges_add_node (n : string) (g : DiGraph) :
  graph_edges (add_node n g) = graph_edges g.
Proof.
  unfold add_node. destruct (decide (n ∈ nodes g)); [reflexivity|].
  unfold graph_edges. rewrite bind_app. cbn. by rewrite app_nil_r.
Qed.

Lemma graph_edges_add_nodes_from (ns : list string) (g : DiGraph) :
  graph_edges (add_nodes_from ns g) = graph_edges g.
Proof.
  unfold add_nodes_from. revert g.
  induction ns as [|n ns IH]; intros g; cbn; [reflexivity|].
  by rewrite IH, graph_edges_add_node.
Qed.

Lemma nodes_add_succ (u v : string) (g : DiGraph) :
  nodes (add_succ u v g) = nodes g.
Proof.
  unfold nodes, add_succ. rewrite <- list_fmap_compose.
  apply list_fmap_ext. intros i [n vs] _. cbn. by destruct (decide (n = u)).
Qed.

Lemma graph_edges_add_succ (u v a b : string) (g : DiGraph) :
  (a, b) ∈ graph_edges (add_succ u v g) <->
  (a, b) ∈ graph_edges g \/ (a = u /\ b = v /\ u ∈ nodes g).
Proof.
  rewrite !elem_of_graph_edges. unfold add_succ. split.
  - intros (vs' & Hin & Hb).
    apply list_elem_of_fmap in Hin as ([n vs] & Heq & Hg).
    destruct (decide (n = u)) as [->|Hne].
    + injection Heq as -> ->.
      destruct (decide (v ∈ vs)) as [Hv|Hv]; [left; eauto|].
      apply elem_of_app in Hb as [Hb|Hb]; [left; eauto|].
      apply list_elem_of_singleton in Hb. subst b. right.
      repeat split. unfold nodes. apply list_elem_of_fmap. by exists (u, vs).
    + injection Heq as -> ->. left. eauto.
  - intros [(vs & Hg & Hb)|(-> & -> & Hu)].
    + destruct (decide (a = u)) as [->|Hne].
      * exists (if decide (v ∈ vs) then vs else vs ++ [v]). split.
        -- apply list_elem_of_fmap. exists (u, vs). split; [|exact Hg].
           by destruct (decide (u = u)).
        -- destruct (decide (v ∈ vs)); [exact Hb|]. apply elem_of_app. by left.
      * exists vs. split; [|exact Hb].
        apply list_elem_of_fmap. exists (a, vs). split; [|exact Hg].
        by destruct (decide (a = u)).
    + unfold nodes in Hu. apply list_elem_of_fmap in Hu as ([n vs] & Heq & Hg).
      cbn in Heq. subst n.
      exists (if decide (v ∈ vs) then vs else vs ++ [v]). split.
      * apply list_elem_of_fmap. exists (u, vs). split; [|exact Hg].
        by destruct (decide (u = u)).
      * destruct (decide (v ∈ vs)) as [Hv|Hv]; [exact Hv|].
        apply elem_of_app. right. by apply list_elem_of_singleton.
Qed.

(** [add_edge] adds exactly the edge [u -> v]. *)
Lemma graph_edges_add_edge (u v a b : string) (g : DiGraph) :
  (a, b) ∈ graph_edges (add_edge u v g) <->
  (a, b) ∈ graph_edges g \/ (a = u /\ b = v).
Proof.
  unfold add_edge. rewrite graph_edges_add_succ, !graph_edges_add_node.
  rewrite !nodes_add_node. split.
  - intros [Hg|(-> & -> & _)]; [by left|by right].
  - intros [Hg|(-> & ->)]; [by left|]. right. repeat split. right. by left.
Qed.

(** [add_edge] adds at most its two endpoints as nodes. *)
Lemma nodes_add_edge (u v n : string) (g : DiGraph) :
  n ∈ nodes (add_edge u v g) <-> n = u \/ n = v \/ n ∈ nodes g.
Proof.
  unfold add_edge. rewrite nodes_add_succ, !nodes_add_node. tauto.
Qed.

Lemma filter_length_pos {A : Type} (P : A -> Prop) `{forall x, Decision (P x)}
      (l : list A) :
  (0 < length (filter P l))%nat <-> exists x, x ∈ l /\ P x.
Proof.
  split.
  - destruct (filter P l) as [|x l'] eqn:E; cbn; [lia|]. intros _.
    assert (Hx : x ∈ filter P l) by (rewrite E; left).
    apply list_elem_of_filter in Hx as [HP Hx]. eauto.
  - intros (x & Hx & HP).
    assert (Hf : x ∈ filter P l) by (apply list_elem_of_filter; auto).
    destruct (filter P l); [by apply elem_of_nil in Hf|cbn; lia].
Qed.

(** Degree at least one is incidence to some edge. *)
Lemma degree_incident (g : DiGraph) (n : string) :
  1 <= in_degree g n + out_degree g n <-> incident g n.
Proof.
  unfold in_degree, out_degree, incident. split.
  - intros Hdeg.
    assert (Hpos : (0 < length (filter (fun e => e.2 = n) (graph_edges g)))%nat \/
                   (0 < length (filter (fun e => e.1 = n) (graph_edges g)))%nat) by lia.
    destruct Hpos as [Hpos|Hpos]; apply filter_length_pos in Hpos as (e & He & HP);
      exists e; auto.
  - intros (e & He & [HP|HP]).
    + assert (0 < length (filter (fun e => e.1 = n) (graph_edges g)))%nat
        by (apply filter_length_pos; eauto). lia.
    + assert (0 < length (filter (fun e => e.2 = n) (graph_edges g)))%nat
        by (apply filter_length_pos; eauto). lia.
Qed.

Lemma elem_of_isolates (g : DiGraph) (n : string) :
  n ∈ isolates g <-> n ∈ nodes g /\ ~ incident g n.
Proof.
  unfold isolates. rewrite list_elem_of_filter, <- degree_incident.
  unfold in_degree, out_degree. split; intros [H1 H2]; split; auto; lia.
Qed.

Lemma incident_add_edge_mono (u v n : string) (g : DiGraph) :
  incident g n -> incident (add_edge u v g) n.
Proof.
  intros ([a b] & He & Hn). exists (a, b). split; [|exact Hn].
  apply graph_edges_add_edge. by left.
Qed.

Lemma incident_add_edge_target (u v : string) (g : DiGraph) :
  incident (add_edge u v g) v.
Proof.
  exists (u, v). split; [|by right]. apply graph_edges_add_edge. by right.
Qed.

Lemma incident_add_edge_source (u v : string) (g : DiGraph) :
  incident (add_edge u v g) u.
Proof.
  exists (u, v). split; [|by left]. apply graph_edges_add_edge. by right.
Qed.

End GraphFacts.

(* ===================================================================== *)
(** * Properties: the graph generator                                     *)
(* ===================================================================== *)

Section GraphGenerator.
Context {G : Type} `{GeneratorLaws G}.
Variable settings : Settings.

Lemma for_each_cons {A S : Type} (body : A -> S -> Result S) (x : A) (xs : list A)
      (s : S) :
  for_each body (x :: xs) s = body x s ≫= for_each body xs.
Proof. reflexivity. Qed.

Lemma for_each_total {A S : Type} (body : A -> S -> Result S) (xs : list A) :
  (forall x s, x ∈ xs -> exists s', body x s = Ok s') ->
  forall s, exists s', for_each body xs s = Ok s'.
Proof.
  induction xs as [|x xs IH]; intros Hbody s; cbn; [eauto|].
  destruct (Hbody x s) as [s1 Hs1]; [left|]. rewrite Hs1. cbn.
  apply IH. intros y s2 Hy. apply Hbody. by right.
Qed.

Lemma for_each_invariant {A S : Type} (P : S -> Prop) (body : A -> S -> Result S)
      (xs : list A) :
  (forall x s s', x ∈ xs -> P s -> body x s = Ok s' -> P s') ->
  forall s s', P s -> for_each body xs s = Ok s' -> P s'.
Proof.
  induction xs as [|x xs IH]; intros Hbody s s' HP Hloop; cbn in Hloop.
  - by injection Hloop as <-.
  - destruct (body x s) as [s1|e] eqn:Hs1; cbn in Hloop; [|discriminate].
    apply (IH (fun y t t' Hy => Hbody y t t' (list_elem_of_further _ _ _ Hy)) s1 s');
      [|exact Hloop].
    apply (Hbody x s s1); [left|exact HP|exact Hs1].
Qed.

(** The candidate loop's body never raises: the sample size drawn is
    between 0 and the number of candidates. *)
Lemma draw_edges_total (service : string) (st : DiGraph * G) :
  exists st', draw_edges settings service st = Ok st'.
Proof.
  destruct st as [graph rng]. unfold draw_edges.
  destruct (default [] (dependency_candidates settings !! service)) as [|c cs] eqn:Hc;
    [eauto|].
  set (candidates := c :: cs).
  set (max_edges := Z.max 1 (Z.of_nat (length candidates) / 2)).
  assert (Hlen : 1 <= Z.of_nat (length candidates)) by (cbn; lia).
  assert (Hmax : 1 <= max_edges <= Z.of_nat (length candidates)).
  { unfold max_edges. split; [lia|].
    apply Z.max_lub; [exact Hlen|].
    apply Z.div_le_upper_bound; lia. }
  unfold np_integers.
  destruct (0 <? max_edges + 1) eqn:Hlt; [|lia]. cbn.
  pose proof (integers_range 0 (max_edges + 1) rng ltac:(lia)) as Hrange.
  destruct (rng_integers 0 (max_edges + 1) rng) as [edge_count rng1]. cbn in Hrange.
  destruct (edge_count =? 0) eqn:Hz; cbn; [eauto|].
  unfold np_choice_sample.
  destruct ((0 <=? edge_count) && (edge_count <=? Z.of_nat (length candidates))) eqn:Hk.
  - cbn. destruct (rng_sample candidates edge_count rng1). cbn. eauto.
  - apply andb_false_iff in Hk as [Hk|Hk]; lia.
Qed.

(** With two distinct configured services, every node has a repair
    partner to draw. *)
Lemma repair_node_total (node : string) (st : DiGraph * G) :
  (exists a b, a ∈ service_names settings /\ b ∈ service_names settings /\ a <> b) ->
  exists st', repair_node settings node st = Ok st'.
Proof.
  intros (a & b & Ha & Hb & Hab). destruct st as [graph rng]. unfold repair_node.
  assert (Hne : filter (fun n => n <> node) (service_names settings) <> []).
  { destruct (decide (a = node)) as [->|Hna].
    - intros Hnil.
      assert (Hin : b ∈ filter (fun n => n <> node) (service_names settings))
        by (apply list_elem_of_filter; split; [congruence|exact Hb]).
      rewrite Hnil in Hin. by apply elem_of_nil in Hin.
    - intros Hnil.
      assert (Hin : a ∈ filter (fun n => n <> node) (service_names settings))
        by (apply list_elem_of_filter; split; [exact Hna|exact Ha]).
      rewrite Hnil in Hin. by apply elem_of_nil in Hin. }
  unfold np_choice.
  destruct (filter (fun n => n <> node) (service_names settings)) as [|x xs];
    [congruence|].
  cbn. destruct (rng_pick (x :: xs) rng). cbn. eauto.
Qed.

(** What one repair step returns. *)
Lemma repair_node_Ok (node : string) (graph graph' : DiGraph) (rng rng' : G) :
  repair_node settings node (graph, rng) = Ok (graph', rng') ->
  exists other,
    other ∈ service_names settings /\ other <> node /\
    graph' = add_edge other node graph.
Proof.
  unfold repair_node, np_choice. intros Hrep.
  destruct (filter (fun n => n <> node) (service_names settings)) as [|x xs] eqn:Hf;
    [discriminate|].
  pose proof (pick_elem_of (x :: xs) rng ltac:(discriminate)) as Hpick.
  cbn in Hrep. destruct (rng_pick (x :: xs) rng) as [other rng1]. cbn in Hrep, Hpick.
  injection Hrep as <- <-. exists other.
  rewrite <- Hf in Hpick. apply list_elem_of_filter in Hpick as [Hne Hin].
  repeat split; assumption.
Qed.

(** The repair loop keeps every edge, gives each node it visits an
    incoming edge, and adds no node without an edge. *)
Lemma repair_loop_spec (isolated : list string) (graph graph' : DiGraph)
      (rng rng' : G) :
  for_each (repair_node settings) isolated (graph, rng) = Ok (graph', rng') ->
  (forall n, incident graph n -> incident graph' n) /\
  (forall n, n ∈ isolated -> incident graph' n) /\
  (forall n, n ∈ nodes graph' -> n ∈ nodes graph \/ incident graph' n).
Proof.
  revert graph rng. induction isolated as [|node rest IH]; intros graph rng Hloop.
  - cbn in Hloop. injection Hloop as <- <-. repeat split; auto.
    intros n Hn. by apply elem_of_nil in Hn.
  - rewrite for_each_cons in Hloop.
    apply bind_Ok in Hloop as ([g1 rng1] & Hstep & Hloop).
    apply repair_node_Ok in Hstep as (other & _ & _ & ->).
    destruct (IH _ _ Hloop) as (Hmono & Hvisited & Hnodes).
    split; [|split].
    + intros n Hn. by apply Hmono, incident_add_edge_mono.
    + intros n Hn. apply elem_of_cons in Hn as [->|Hn]; [|by apply Hvisited].
      apply Hmono, incident_add_edge_target.
    + intros n Hn. destruct (Hnodes n Hn) as [Hold|Hinc]; [|by right].
      apply nodes_add_edge in Hold as [->|[->|Hold]].
      * right. apply Hmono, incident_add_edge_source.
      * right. apply Hmono, incident_add_edge_target.
      * by left.
Qed.

Lemma add_chosen_edges_no_self_loop (service : string) (chosen : list string)
      (graph : DiGraph) :
  no_self_loop graph -> no_self_loop (add_chosen_edges service chosen graph).
Proof.
  unfold add_chosen_edges. revert graph.
  induction chosen as [|d chosen IH]; intros graph Hg; cbn; [exact Hg|].
  apply IH. destruct (decide (d <> service)) as [Hne|_]; [|exact Hg].
  intros u v Huv. apply graph_edges_add_edge in Huv as [Huv|[-> ->]];
    [by apply Hg|exact Hne].
Qed.

Lemma draw_edges_no_self_loop (service : string) (graph graph' : DiGraph)
      (rng rng' : G) :
  no_self_loop graph ->
  draw_edges settings service (graph, rng) = Ok (graph', rng') ->
  no_self_loop graph'.
Proof.
  intros Hg. unfold draw_edges.
  destruct (default [] (dependency_candidates settings !! service)) as [|c cs].
  - intros Hd. by injection Hd as <- <-.
  - intros Hd.
    apply bind_Ok in Hd as ([edge_count rng1] & _ & Hd).
    apply bind_Ok in Hd as ([chosen rng2] & _ & Hd).
    injection Hd as <- <-. by apply add_chosen_edges_no_self_loop.
Qed.

Lemma repair_node_no_self_loop (node : string) (graph graph' : DiGraph)
      (rng rng' : G) :
  no_self_loop graph ->
  repair_node settings node (graph, rng) = Ok (graph', rng') ->
  no_self_loop graph'.
Proof.
  intros Hg Hrep. apply repair_node_Ok in Hrep as (other & _ & Hne & ->).
  intros u v Huv. apply graph_edges_add_edge in Huv as [Huv|[-> ->]];
    [by apply Hg|exact Hne].
Qed.

End GraphGenerator.

(** The scripted source draws as numpy documents. *)
#[global] Instance scripted_laws : GeneratorLaws (list Z).
Proof.
  split.
  - intros lo hi tape Hlt. cbn. destruct (Scripted.next tape) as [x tape']. cbn.
    pose proof (Z.mod_pos_bound x (hi - lo) ltac:(lia)). lia.
  - intros a k tape x. cbn. destruct (Scripted.next tape) as [y tape']. cbn.
    intros Hx. apply elem_of_take in Hx as (i & Hi & _).
    apply list_elem_of_lookup_2 in Hi. by apply elem_of_rotate in Hi.
  - intros a tape Ha. cbn. destruct (Scripted.next tape) as [x tape']. cbn.
    apply list_elem_of_In, nth_In.
    assert (Hlen : 0 < Z.of_nat (length a)) by (destruct a; [congruence|cbn; lia]).
    pose proof (Z.mod_pos_bound x _ Hlen). lia.
  - intros lo hi tape Hlt. cbn. destruct (Scripted.next tape) as [x tape']. cbn.
    pose proof (Z.mod_pos_bound x 100000 ltac:(lia)) as Hm.
    set (m := x mod 100000) in *.
    assert (H0 : (0 <= inject_Z m / 100000)%Q).
    { unfold Qle, Qdiv, Qmult, Qinv, inject_Z. cbn. lia. }
    assert (H1 : (inject_Z m / 100000 < 1)%Q).
    { unfold Qlt, Qdiv, Qmult, Qinv, inject_Z. cbn. lia. }
    set (f := (inject_Z m / 100000)%Q) in *. split; nra.
Qed.

(** With two distinct configured services both loops of the generator run
    to completion: the candidate loop yields a graph [g1] and the repair
    loop, over the nodes isolated in [g1], the returned graph. *)
Lemma generate_dependency_graph_stages
      {G : Type} `{GeneratorLaws G} (settings : Settings) (rng : G) :
  (exists a b, a ∈ service_names settings /\ b ∈ service_names settings /\ a <> b) ->
  exists g1 rng1 graph rng',
    for_each (draw_edges settings) (service_names settings)
             (add_nodes_from (service_names settings) [], rng) = Ok (g1, rng1) /\
    for_each (repair_node settings) (isolates g1) (g1, rng1) = Ok (graph, rng') /\
    _generate_dependency_graph settings rng = Ok (graph, rng').
Proof.
  intros Hdistinct.
  destruct (for_each_total (draw_edges settings) (service_names settings)
              (fun x s _ => draw_edges_total settings x s)
              (add_nodes_from (service_names settings) [], rng)) as [[g1 rng1] Hdraw].
  destruct (for_each_total (repair_node settings) (isolates g1)
              (fun x s _ => repair_node_total settings x s Hdistinct)
              (g1, rng1)) as [[g2 rng2] Hrepair].
  exists g1, rng1, g2, rng2. split; [exact Hdraw|]. split; [exact Hrepair|].
  unfold _generate_dependency_graph. rewrite Hdraw. exact Hrepair.
Qed.

(** C10: a generated graph has no self-loop.  The candidate step skips a
    drawn candidate equal to the service, and the repair partner is drawn
    among the configured services other than the isolated node. *)
Theorem generated_graph_has_no_self_loop
        {G : Type} `{GeneratorLaws G} (settings : Settings) (rng rng' : G)
        (graph : DiGraph) :
  _generate_dependency_graph settings rng = Ok (graph, rng') ->
  forall u v, (u, v) ∈ graph_edges graph -> u <> v.
Proof.
  unfold _generate_dependency_graph. intros Hgen.
  apply bind_Ok in Hgen as ([g1 rng1] & Hdraw & Hrepair).
  assert (Hinit : no_self_loop (add_nodes_from (service_names settings) [])).
  { intros u v Huv. rewrite graph_edges_add_nodes_from in Huv.
    by apply elem_of_nil in Huv. }
  assert (Hdrawn : no_self_loop g1).
  { apply (for_each_invariant (fun st : DiGraph * G => no_self_loop st.1)
             (draw_edges settings) (service_names settings)) with
      (s := (add_nodes_from (service_names settings) [], rng)) (s' := (g1, rng1));
      [|exact Hinit|exact Hdraw].
    intros x [g r] [g' r'] _ Hg Hstep. cbn in *.
    exact (draw_edges_no_self_loop settings x g g' r r' Hg Hstep). }
  apply (for_each_invariant (fun st : DiGraph * G => no_self_loop st.1)
           (repair_node settings) (isolates g1)) with
    (s := (g1, rng1)) (s' := (graph, rng')); [|exact Hdrawn|exact Hrepair].
  intros x [g r] [g' r'] _ Hg Hstep. cbn in *.
  exact (repair_node_no_self_loop settings x g g' r r' Hg Hstep).
Qed.

(** C10 at the two-service configuration, where both edges come from the
    repair pass. *)
Lemma generated_graph_has_no_self_loop_witness :
  _generate_dependency_graph Scripted.two_services Scripted.tape
  = Ok (Scripted.sample_graph, Scripted.signal_tape) /\
  forall u v, (u, v) ∈ graph_edges Scripted.sample_graph -> u <> v.
Proof.
  split; [vm_compute; reflexivity|].
  apply (generated_graph_has_no_self_loop (G := list Z)
           Scripted.two_services Scripted.tape Scripted.signal_tape Scripted.sample_graph).
  vm_compute. reflexivity.
Defined.

(* ===================================================================== *)
(** * Properties: the history ledger                                      *)
(* ===================================================================== *)

Lemma length_keep_last {A : Type} (n : nat) (xs : list A) :
  (length (keep_last n xs) <= n)%nat.
Proof. unfold keep_last. rewrite length_drop. lia. Qed.

(** Trimming twice, with more entries appended in between, is trimming
    once. *)
Lemma keep_last_app {A : Type} (n : nat) (xs ys : list A) :
  keep_last n (keep_last n xs ++ ys) = keep_last n (xs ++ ys).
Proof.
  unfold keep_last.
  rewrite <- (drop_app_le xs ys (length xs - n)) by lia.
  rewrite drop_drop. f_equal.
  rewrite length_drop, !length_app. lia.
Qed.

Section Ledger.
Variable settings : Settings.
Hypothesis limit_valid : 1 <= history_limit settings <= 20.

Let N : nat := Z.to_nat (history_limit settings).

(** The trim of [record] and of [update_history] keeps the last [N]. *)
Lemma trim_keep_last (history : list HistoricalRecord) :
  (if history_limit settings <? Z.of_nat (length history)
   then py_slice_from (- history_limit settings) history
   else history) = keep_last N history.
Proof.
  unfold keep_last, py_slice_from, N.
  destruct (history_limit settings <? Z.of_nat (length history)) eqn:Hlt.
  - destruct (- history_limit settings <? 0) eqn:Hneg; [|lia].
    f_equal. lia.
  - replace (length history - Z.to_nat (history_limit settings))%nat with 0%nat by lia.
    reflexivity.
Qed.

Lemma record_history (entry : HistoricalRecord) (result : option SimulationResult)
      (self : SimulationStorage) :
  _history (record settings entry result self) = keep_last N (_history self ++ [entry]).
Proof. unfold record. cbn. apply trim_keep_last. Qed.

Lemma record_all_history (calls : list (HistoricalRecord * option SimulationResult))
      (call : HistoricalRecord * option SimulationResult) (self : SimulationStorage) :
  _history (record_all settings (call :: calls) self)
  = keep_last N (_history self ++ (call :: calls).*1).
Proof.
  revert call self. induction calls as [|c calls IH]; intros call self.
  - destruct call as [entry result]. cbn. apply (record_history entry result).
  - change (record_all settings (call :: c :: calls) self)
      with (record_all settings (c :: calls) (record settings call.1 call.2 self)).
    rewrite IH, record_history, keep_last_app.
    by rewrite <- app_assoc.
Qed.

End Ledger.

(** The capacities the settings validator accepts are those from 1 to
    20. *)
Lemma validate_history_limit_range (value : Z) :
  _validate_history_limit value = Ok value <-> 1 <= value <= 20.
Proof.
  unfold _validate_history_limit.
  destruct (value <? 1) eqn:E1; [split; [discriminate|lia]|].
  destruct (20 <? value) eqn:E2; [split; [discriminate|lia]|].
  split; [lia|reflexivity].
Qed.

(** C4: with a capacity [N] between 1 and 20, every [record] call leaves at
    most [N] entries, evicts from the front only and puts the new entry
    last; after any non-empty sequence of calls the ledger holds the last
    [N] of everything inserted, in insertion order, so after [N+1] calls
    exactly the last [N] inserted entries; [update_history] trims the same
    way. *)
Theorem ledger_bounded_fifo (settings : Settings) :
  1 <= history_limit settings <= 20 ->
  let N := Z.to_nat (history_limit settings) in
  (forall self entry result,
      let self' := record settings entry result self in
      (length (_history self') <= N)%nat /\
      (exists evicted, _history self ++ [entry] = evicted ++ _history self') /\
      last (_history self') = Some entry) /\
  (forall self calls,
      calls <> [] ->
      let inserted := _history self ++ calls.*1 in
      _history (record_all settings calls self)
      = drop (length inserted - N) inserted /\
      (length (_history (record_all settings calls self)) <= N)%nat) /\
  (forall calls,
      (length (_history (record_all settings calls storage_init)) <= N)%nat) /\
  (forall self calls,
      length calls = S N ->
      _history (record_all settings calls self) = drop 1 calls.*1 /\
      length (_history (record_all settings calls self)) = N) /\
  (forall history new_entry result latest,
      update_history settings history new_entry
      = _history (record settings new_entry result
                         {| _history := history; _latest_result := latest |})).
Proof.
  intros Hlimit N. split; [|split; [|split; [|split]]].
  - intros self entry result self'. unfold self'.
    rewrite record_history by exact Hlimit. split; [|split].
    + apply length_keep_last.
    + unfold keep_last.
      exists (take (length (_history self ++ [entry]) - Z.to_nat (history_limit settings))
                   (_history self ++ [entry])).
      by rewrite take_drop.
    + unfold keep_last.
      rewrite drop_app_le by (rewrite length_app; cbn; lia).
      apply last_snoc.
  - intros self calls Hne inserted. unfold inserted.
    destruct calls as [|call calls]; [congruence|].
    rewrite record_all_history by exact Hlimit.
    split; [reflexivity|apply length_keep_last].
  - intros calls. destruct calls as [|call calls]; [cbn; lia|].
    rewrite record_all_history by exact Hlimit. apply length_keep_last.
  - intros self calls Hlen.
    destruct calls as [|call calls]; [discriminate|].
    rewrite record_all_history by exact Hlimit. unfold keep_last.
    rewrite length_drop, length_app, length_fmap, Hlen.
    replace (length (_history self) + S N - Z.to_nat (history_limit settings))%nat
      with (length (_history self) + 1)%nat by (unfold N; lia).
    split; [by rewrite drop_app_add|unfold N; lia].
  - intros history new_entry result latest.
    unfold update_history. rewrite record_history by exact Hlimit. cbn.
    by apply trim_keep_last.
Qed.

(** C4 at the default capacity 5, six calls on an empty ledger. *)
Lemma ledger_bounded_fifo_witness :
  _history (record_all default_settings
              ((fun t => (Scripted.entry t, None)) <$> [1; 2; 3; 4; 5; 6])
              storage_init)
  = Scripted.entry <$> [2; 3; 4; 5; 6].
Proof.
  pose proof (ledger_bounded_fifo default_settings ltac:(cbn; lia))
    as (_ & _ & _ & Hsix & _).
  destruct (Hsix storage_init ((fun t => (Scripted.entry t, None)) <$> [1; 2; 3; 4; 5; 6]))
    as [Heq _]; [reflexivity|].
  exact Heq.
Defined.

(* ===================================================================== *)
(** * Properties: history feedback                                        *)
(* ===================================================================== *)

(** C5: on an empty snapshot the blocked set is empty; on a non-empty one
    it is exactly the set of names whose decision in the last record is
    BlockDeployment, whatever the earlier records hold. *)
Theorem blocked_set_from_latest_record :
  _collect_blocked_services [] = ∅ /\
  forall (earlier : list HistoricalRecord) (latest : HistoricalRecord),
    (forall name : string,
        name ∈ _collect_blocked_services (earlier ++ [latest]) <->
        exists metrics,
          metrics ∈ record_services latest /\
          service_name metrics = name /\
          decision metrics = BLOCK_DEPLOYMENT) /\
    _collect_blocked_services (earlier ++ [latest]) = _collect_blocked_services [latest].
Proof.
  split; [reflexivity|]. intros earlier latest.
  unfold _collect_blocked_services. rewrite last_snoc. cbn [last]. split; [|reflexivity].
  intros name. rewrite elem_of_list_to_set, list_elem_of_fmap. split.
  - intros (m & -> & Hm). apply list_elem_of_filter in Hm as [Hblock Hin]. eauto.
  - intros (m & Hin & <- & Hblock). exists m. split; [reflexivity|].
    apply list_elem_of_filter. auto.
Qed.

(* ===================================================================== *)
(** * Properties: determinism                                             *)
(* ===================================================================== *)

(** The summary depends on the clock through its timestamp only. *)
Lemma summarise_clock (now1 now2 : Z) (services : list ServiceMetrics) :
  (fun _ : SimulationSummary => ()) <$> _summarise_services now1 services
  = (fun _ : SimulationSummary => ()) <$> _summarise_services now2 services.
Proof.
  unfold _summarise_services.
  destruct (py_max_by risk_score services) as [highest|e]; [|reflexivity].
  cbn. unfold SimulationSummary_init. cbn.
  destruct (_ && _); reflexivity.
Qed.

(** C7: two invocations of [run_simulation] with the same integer seed and
    the same ledger snapshot produce the same per-service metrics, in the
    same order, and the same edge list (or fail alike), whatever the clock
    and the process entropy of each invocation. *)
Theorem run_simulation_deterministic
        {G : Type} `{Generator G} `{Betweenness}
        (settings : Settings) (env1 env2 : Env G)
        (history : list HistoricalRecord) (seed : Z) :
  (fun r => (result_services r, result_edges r))
    <$> run_simulation settings env1 history (Some seed)
  = (fun r => (result_services r, result_edges r))
      <$> run_simulation settings env2 history (Some seed).
Proof.
  unfold run_simulation. cbn [default_rng].
  destruct (seed <? 0); [reflexivity|]. cbn.
  destruct (_generate_dependency_graph settings (seed_rng seed)) as [[graph rng]|e];
    [|reflexivity].
  cbn.
  destruct (_generate_service_metrics graph (_collect_blocked_services history) rng)
    as [services|e]; [|reflexivity].
  cbn. pose proof (summarise_clock (clock env1) (clock env2) services) as Hclock.
  destruct (_summarise_services (clock env1) services) as [s1|e1];
    destruct (_summarise_services (clock env2) services) as [s2|e2];
    cbn in Hclock |- *; congruence.
Qed.

(* ===================================================================== *)
(** * Properties: the summary                                             *)
(* ===================================================================== *)

Section MaxAndMean.
Context {A : Type} (key : A -> Q).

Lemma first_max_at_snoc (done : list A) (i : nat) (best item : A) :
  first_max_at key done i best ->
  exists i',
    first_max_at key (done ++ [item]) i'
                 (if Qltb (key best) (key item) then item else best).
Proof.
  intros (Hat & Hall & Hbefore).
  pose proof (lookup_lt_Some _ _ _ Hat) as Hi.
  destruct (Qltb (key best) (key item)) eqn:E.
  - apply Qltb_lt in E. exists (length done). split; [|split].
    + by apply list_lookup_middle.
    + intros m' Hm'. apply elem_of_app in Hm' as [Hm'|Hm'].
      * specialize (Hall m' Hm'). lra.
      * apply list_elem_of_singleton in Hm'. subst m'. lra.
    + intros j m' Hj Hm'. rewrite lookup_app_l in Hm' by exact Hj.
      apply list_elem_of_lookup_2 in Hm'. specialize (Hall m' Hm'). lra.
  - apply Qltb_ge in E. exists i. split; [|split].
    + rewrite lookup_app_l by exact Hi. exact Hat.
    + intros m' Hm'. apply elem_of_app in Hm' as [Hm'|Hm'].
      * by apply Hall.
      * apply list_elem_of_singleton in Hm'. by subst m'.
    + intros j m' Hj Hm'. rewrite lookup_app_l in Hm' by lia.
      by apply (Hbefore j).
Qed.

Lemma foldl_first_max (rest done : list A) (i : nat) (best : A) :
  first_max_at key done i best ->
  exists i',
    first_max_at key (done ++ rest) i'
      (foldl (fun best item => if Qltb (key best) (key item) then item else best)
             best rest).
Proof.
  revert done i best. induction rest as [|item rest IH]; intros done i best Hbest.
  - cbn. rewrite app_nil_r. eauto.
  - cbn. destruct (first_max_at_snoc done i best item Hbest) as [i1 H1].
    destruct (IH _ _ _ H1) as [i2 H2].
    rewrite <- app_assoc in H2. eauto.
Qed.

(** [max(items, key=...)] returns the first item of maximal key. *)
Lemma py_max_by_first_max (items : list A) :
  items <> [] ->
  exists i m, py_max_by key items = Ok m /\ first_max_at key items i m.
Proof.
  destruct items as [|x rest]; [congruence|]. intros _.
  destruct (foldl_first_max rest [x] 0 x) as [i Hi].
  - split; [reflexivity|]. split.
    + intros m' Hm'. apply list_elem_of_singleton in Hm'. subst m'. lra.
    + intros j m' Hj. lia.
  - cbn in Hi. eauto.
Qed.

End MaxAndMean.

Lemma inject_Z_of_nat_S (n : nat) :
  (inject_Z (Z.of_nat (S n)) == inject_Z (Z.of_nat n) + 1)%Q.
Proof. rewrite Nat2Z.inj_succ. unfold Z.succ. rewrite inject_Z_plus. reflexivity. Qed.

Lemma foldl_Qplus_bounds (xs : list Q) (a : Q) :
  Forall (fun x => (0 <= x)%Q /\ (x <= 100)%Q) xs ->
  (a <= foldl Qplus a xs)%Q /\
  (foldl Qplus a xs <= a + 100 * inject_Z (Z.of_nat (length xs)))%Q.
Proof.
  revert a. induction xs as [|x xs IH]; intros a Hall.
  - cbn [foldl length]. change (inject_Z (Z.of_nat 0)) with 0%Q. split; lra.
  - apply Forall_cons in Hall as [[Hx0 Hx1] Hall].
    destruct (IH (a + x)%Q Hall) as [Hlo Hhi].
    cbn [foldl length]. rewrite inject_Z_of_nat_S. split; lra.
Qed.

(** The mean of percentages is a percentage. *)
Lemma np_mean_range (xs : list Q) :
  xs <> [] ->
  Forall (fun x => (0 <= x)%Q /\ (x <= 100)%Q) xs ->
  (0 <= np_mean xs)%Q /\ (np_mean xs <= 100)%Q.
Proof.
  intros Hne Hall. unfold np_mean, Qsum.
  destruct (foldl_Qplus_bounds xs 0 Hall) as [Hlo Hhi].
  assert (Hn : (0 < inject_Z (Z.of_nat (length xs)))%Q).
  { destruct xs; [congruence|]. cbn [length]. rewrite inject_Z_of_nat_S.
    assert (0 <= inject_Z (Z.of_nat (length xs)))%Q
      by (unfold Qle, inject_Z; cbn; lia).
    lra. }
  split.
  - apply Qle_shift_div_l; [exact Hn|lra].
  - apply Qle_shift_div_r; [exact Hn|lra].
Qed.

Lemma ServiceMetrics_init_risk (m : ServiceMetrics) :
  ServiceMetrics_init m = Ok m -> (0 <= risk_score m)%Q /\ (risk_score m <= 100)%Q.
Proof.
  unfold ServiceMetrics_init.
  destruct (ge0_le100 (risk_score m)) eqn:E.
  - intros _. by apply ge0_le100_spec.
  - rewrite andb_false_r. discriminate.
Qed.

(** The summary built from a non-empty list of validated records, field by
    field. *)
Lemma summarise_services_Ok (now : Z) (services : list ServiceMetrics) :
  services <> [] ->
  Forall (fun m => ServiceMetrics_init m = Ok m) services ->
  exists i m,
    first_max_at risk_score services i m /\
    _summarise_services now services
    = Ok {| average_risk := py_round2 (np_mean (risk_score <$> services));
            highest_risk_service := service_name m;
            highest_risk_score := risk_score m;
            blocked_services :=
              service_name <$>
                filter (fun svc => decision svc = BLOCK_DEPLOYMENT) services;
            blocked_count :=
              Z.of_nat (length (service_name <$>
                filter (fun svc => decision svc = BLOCK_DEPLOYMENT) services));
            timestamp_utc := now |}.
Proof.
  intros Hne Hvalid.
  destruct (py_max_by_first_max risk_score services Hne) as (i & m & Hmax & Hfirst).
  exists i, m. split; [exact Hfirst|].
  assert (Hrisks : Forall (fun x => (0 <= x)%Q /\ (x <= 100)%Q) (risk_score <$> services)).
  { apply Forall_fmap. eapply Forall_impl; [exact Hvalid|].
    intros x Hx. by apply ServiceMetrics_init_risk. }
  assert (Hrne : risk_score <$> services <> [])
    by (destruct services; [congruence|discriminate]).
  destruct (np_mean_range _ Hrne Hrisks) as [Hm0 Hm1].
  destruct (py_round2_range _ Hm0 Hm1) as [Ha0 Ha1].
  assert (Hm : m ∈ services)
    by (destruct Hfirst as (Hat & _); by apply list_elem_of_lookup_2 in Hat).
  destruct (ServiceMetrics_init_risk m) as [Hr0 Hr1].
  { rewrite Forall_forall in Hvalid. by apply Hvalid. }
  unfold _summarise_services. rewrite Hmax. cbn.
  destruct (risk_score <$> services) as [|r rs] eqn:Hrs; [congruence|].
  rewrite <- Hrs in *. clear Hrs r rs.
  unfold SimulationSummary_init. cbn.
  assert (Hok : ge0_le100 (py_round2 (np_mean (risk_score <$> services)))
                && ge0_le100 (risk_score m)
                && (0 <=? Z.of_nat (length (service_name <$>
                      filter (fun svc => decision svc = BLOCK_DEPLOYMENT) services)))
                = true).
  { rewrite !andb_true_iff, !ge0_le100_spec, Z.leb_le.
    repeat split; try assumption. lia. }
  by rewrite Hok.
Qed.

(* ===================================================================== *)
(** * Properties: service lookup                                          *)
(* ===================================================================== *)

Lemma find_first {A : Type} (f : A -> bool) (l : list A) (x : A) :
  List.find f l = Some x ->
  exists i, l !! i = Some x /\ f x = true /\
            forall j y, (j < i)%nat -> l !! j = Some y -> f y = false.
Proof.
  induction l as [|a l IH]; cbn; [discriminate|].
  destruct (f a) eqn:Ea.
  - intros Hx. injection Hx as <-. exists 0%nat. repeat split; [exact Ea|].
    intros j y Hj. lia.
  - intros Hx. destruct (IH Hx) as (i & Hi & Hfx & Hbefore).
    exists (S i). repeat split; [exact Hi|exact Hfx|].
    intros [|j] y Hj Hy; cbn in Hy.
    + injection Hy as <-. exact Ea.
    + apply (Hbefore j); [lia|exact Hy].
Qed.

Lemma find_absent {A : Type} (f : A -> bool) (l : list A) :
  List.find f l = None -> forall x, x ∈ l -> f x = false.
Proof.
  intros Hnone x Hx. apply list_elem_of_In in Hx.
  exact (List.find_none f l Hnone x Hx).
Qed.

Lemma ServiceMetrics_init_hook (m : ServiceMetrics) :
  ServiceMetrics_init m = Ok m ->
  hook_response m
  = Ok {| message :=
            ("Risk Estimator Hook Triggered → Calculated Risk Score = "
               +:+ format_0f (risk_score m) +:+ ". "
               +:+ decision_value (decision m) +:+ ".")%string;
          response_risk_score := risk_score m;
          response_decision := decision m |}.
Proof.
  intros Hvalid. apply ServiceMetrics_init_risk in Hvalid.
  apply ge0_le100_spec in Hvalid.
  unfold hook_response, CICDHookResponse_init. cbn. by rewrite Hvalid.
Qed.

(** C9 (as amended): on a run result with a non-empty service list the
    lookup always returns a record of that list.  A requested name that is
    absent yields the first service of maximal risk score; a requested name
    that is present yields the first service of that name.  The hook's
    response is made of that record's risk score and decision alone: it
    names no service and does not say whether a substitution took place. *)
Theorem find_service_metric_fallback (result : SimulationResult) (name : string) :
  result_services result <> [] ->
  Forall (fun m => ServiceMetrics_init m = Ok m) (result_services result) ->
  exists i m,
    _find_service_metric result name = Ok m /\
    result_services result !! i = Some m /\
    (name ∉ (service_name <$> result_services result) ->
     first_max_at risk_score (result_services result) i m) /\
    (name ∈ (service_name <$> result_services result) ->
     service_name m = name /\
     forall j m', (j < i)%nat -> result_services result !! j = Some m' ->
                  service_name m' <> name) /\
    hook_response m
    = Ok {| message :=
              ("Risk Estimator Hook Triggered → Calculated Risk Score = "
                 +:+ format_0f (risk_score m) +:+ ". "
                 +:+ decision_value (decision m) +:+ ".")%string;
            response_risk_score := risk_score m;
            response_decision := decision m |}.
Proof.
  intros Hne Hvalid. unfold _find_service_metric.
  destruct (List.find _ (result_services result)) as [m|] eqn:Hfind.
  - apply find_first in Hfind as (i & Hi & Hname & Hbefore).
    apply bool_decide_eq_true in Hname.
    exists i, m. split; [reflexivity|]. split; [exact Hi|].
    assert (Hin : m ∈ result_services result) by (by apply list_elem_of_lookup_2 in Hi).
    split; [|split].
    + intros Habsent. exfalso. apply Habsent.
      apply list_elem_of_fmap. exists m. auto.
    + intros _. split; [exact Hname|].
      intros j m' Hj Hm'. specialize (Hbefore j m' Hj Hm').
      by apply bool_decide_eq_false in Hbefore.
    + apply ServiceMetrics_init_hook. rewrite Forall_forall in Hvalid. by apply Hvalid.
  - pose proof (find_absent _ _ Hfind) as Habsent.
    destruct (py_max_by_first_max risk_score (result_services result) Hne)
      as (i & m & Hmax & Hfirst).
    exists i, m. split; [exact Hmax|].
    pose proof Hfirst as (Hi & _ & _). split; [exact Hi|].
    assert (Hin : m ∈ result_services result) by (by apply list_elem_of_lookup_2 in Hi).
    split; [|split].
    + intros _. exact Hfirst.
    + intros Hpresent. exfalso.
      apply list_elem_of_fmap in Hpresent as (m' & -> & Hm').
      specialize (Habsent m' Hm'). by apply bool_decide_eq_false in Habsent.
    + apply ServiceMetrics_init_hook. rewrite Forall_forall in Hvalid. by apply Hvalid.
Qed.

(** C9 as the specification states it does not hold: on the scripted run
    the hook answers a request for the unknown service [zzz] exactly as it
    answers a request for [a], so nothing in the response surfaces the
    substitution. *)
Lemma lookup_miss_not_surfaced :
  ("a"%string ∈ service_name <$> result_services Scripted.sample_result) /\
  ("zzz"%string ∉ service_name <$> result_services Scripted.sample_result) /\
  _find_service_metric Scripted.sample_result "zzz" = Ok Scripted.service_a /\
  hook_lookup Scripted.sample_result "zzz" = hook_lookup Scripted.sample_result "a" /\
  @cicd_hook _ Scripted.generator Scripted.no_interior Scripted.two_services
     (Scripted.env 0 Scripted.tape) (Scripted.request "zzz") storage_init
  = @cicd_hook _ Scripted.generator Scripted.no_interior Scripted.two_services
      (Scripted.env 0 Scripted.tape) (Scripted.request "a") storage_init /\
  ~ substitution_surfaced.
Proof.
  assert (Ha : "a"%string ∈ (service_name <$> result_services Scripted.sample_result))
    by (cbn; left).
  assert (Hz : "zzz"%string ∉ (service_name <$> result_services Scripted.sample_result)).
  { cbn. intros Hin. repeat (apply elem_of_cons in Hin as [Hin|Hin]; [discriminate|]).
    by apply elem_of_nil in Hin. }
  split; [exact Ha|]. split; [exact Hz|].
  split; [vm_compute; reflexivity|].
  split; [vm_compute; reflexivity|].
  split; [vm_compute; reflexivity|].
  intros [substituted Hsub].
  destruct (hook_lookup Scripted.sample_result "zzz") as [response|e] eqn:Hmiss;
    [|vm_compute in Hmiss; discriminate].
  assert (Hhit : hook_lookup Scripted.sample_result "a" = Ok response).
  { rewrite <- Hmiss. vm_compute. reflexivity. }
  apply (proj2 (Hsub _ _ _ Hmiss)) in Hz.
  apply (proj1 (Hsub _ _ _ Hhit)) in Hz.
  exact (Hz Ha).
Qed.

(** C9 as amended, on the scripted run and the unknown service [zzz]. *)
Lemma find_service_metric_fallback_witness :
  exists i m,
    _find_service_metric Scripted.sample_result "zzz" = Ok m /\
    result_services Scripted.sample_result !! i = Some m /\
    ("zzz"%string ∉ (service_name <$> result_services Scripted.sample_result) ->
     first_max_at risk_score (result_services Scripted.sample_result) i m) /\
    ("zzz"%string ∈ (service_name <$> result_services Scripted.sample_result) ->
     service_name m = "zzz"%string /\
     forall j m', (j < i)%nat -> result_services Scripted.sample_result !! j = Some m' ->
                  service_name m' <> "zzz"%string) /\
    hook_response m
    = Ok {| message :=
              ("Risk Estimator Hook Triggered → Calculated Risk Score = "
                 +:+ format_0f (risk_score m) +:+ ". "
                 +:+ decision_value (decision m) +:+ ".")%string;
            response_risk_score := risk_score m;
            response_decision := decision m |}.
Proof.
  apply (find_service_metric_fallback Scripted.sample_result "zzz").
  - discriminate.
  - constructor; [vm_compute; reflexivity|].
    constructor; [vm_compute; reflexivity|]. constructor.
Defined.

(* ===================================================================== *)
(** * Properties: a run returns                                           *)
(* ===================================================================== *)

Section RunReturns.
Context {G : Type} `{GeneratorLaws G} `{Betweenness}.
Variable settings : Settings.

Lemma normalise_range (x : Q) :
  (0 <= _normalise_to_percentage x)%Q /\ (_normalise_to_percentage x <= 100)%Q.
Proof.
  unfold _normalise_to_percentage.
  destruct (Qltb x 0) eqn:E0; [split; lra|]. apply Qltb_ge in E0.
  destruct (Qltb 1 x) eqn:E1; [split; lra|]. apply Qltb_ge in E1.
  split; lra.
Qed.

Lemma ge0_le100_round2 (x : Q) :
  (0 <= x)%Q -> (x <= 100)%Q -> ge0_le100 (py_round2 x) = true.
Proof. intros Hlo Hhi. by apply ge0_le100_spec, py_round2_range. Qed.

(** A dictionary of percentages passes the record's validation. *)
Lemma build_service_metrics_total (service : string) (md : MetricsDict) :
  (0 <= md_dependency_impact_score md)%Q /\ (md_dependency_impact_score md <= 100)%Q ->
  (0 <= md_rollback_rate md)%Q /\ (md_rollback_rate md <= 100)%Q ->
  (0 <= md_change_frequency md)%Q /\ (md_change_frequency md <= 100)%Q ->
  (0 <= md_error_spike_history md)%Q /\ (md_error_spike_history md <= 100)%Q ->
  (0 <= md_latency_instability md)%Q /\ (md_latency_instability md <= 100)%Q ->
  exists m, _build_service_metrics service md = Ok m.
Proof.
  intros [Hd0 Hd1] [Hr0 Hr1] [Hc0 Hc1] [He0 He1] [Hl0 Hl1].
  unfold _build_service_metrics, ServiceMetrics_init. cbn.
  rewrite !ge0_le100_round2 by (assumption || apply clamp_0_100_range).
  cbn. eauto.
Qed.

(** Every entry of a drawn dictionary is a percentage. *)
Lemma draw_metrics_range (graph : DiGraph) (blocked : gset string) (mx : Z)
      (service : string) (rng : G) :
  let md := (draw_metrics graph blocked mx service rng).1 in
  ((0 <= md_dependency_impact_score md)%Q /\ (md_dependency_impact_score md <= 100)%Q) /\
  ((0 <= md_rollback_rate md)%Q /\ (md_rollback_rate md <= 100)%Q) /\
  ((0 <= md_change_frequency md)%Q /\ (md_change_frequency md <= 100)%Q) /\
  ((0 <= md_error_spike_history md)%Q /\ (md_error_spike_history md <= 100)%Q) /\
  ((0 <= md_latency_instability md)%Q /\ (md_latency_instability md <= 100)%Q).
Proof.
  unfold draw_metrics.
  destruct (rng_uniform 0 100 rng) as [v0 r0].
  pose proof (uniform_range 0 100 r0 ltac:(lra)) as [Ha1 Hb1].
  destruct (rng_uniform 0 100 r0) as [v1 r1].
  pose proof (uniform_range 0 100 r1 ltac:(lra)) as [Ha2 Hb2].
  destruct (rng_uniform 0 100 r1) as [v2 r2].
  pose proof (uniform_range 0 100 r2 ltac:(lra)) as [Ha3 Hb3].
  destruct (rng_uniform 0 100 r2) as [v3 r3].
  cbn in *.
  repeat split; try apply normalise_range; apply py_round2_range; lra.
Qed.

Lemma service_step_total (graph : DiGraph) (blocked : gset string) (mx : Z)
      (service : string) (st : list ServiceMetrics * G) :
  exists st', service_step graph blocked mx service st = Ok st'.
Proof.
  destruct st as [services rng]. unfold service_step.
  pose proof (draw_metrics_range graph blocked mx service rng) as (Hd & Hr & Hc & He & Hl).
  destruct (draw_metrics graph blocked mx service rng) as [md rng1]. cbn in *.
  destruct (build_service_metrics_total service md Hd Hr Hc He Hl) as [m Hm].
  rewrite Hm. cbn. eauto.
Qed.

Lemma service_loop_length (graph : DiGraph) (blocked : gset string) (mx : Z)
      (ns : list string) (acc out : list ServiceMetrics) (rng rng' : G) :
  for_each (service_step graph blocked mx) ns (acc, rng) = Ok (out, rng') ->
  length out = (length acc + length ns)%nat.
Proof.
  revert acc rng. induction ns as [|n ns IH]; intros acc rng Hloop.
  - cbn in Hloop. injection Hloop as <- <-. cbn. lia.
  - rewrite for_each_cons in Hloop.
    apply bind_Ok in Hloop as ([acc1 rng1] & Hstep & Hloop).
    apply IH in Hloop. rewrite Hloop. clear Hloop.
    unfold service_step in Hstep.
    destruct (draw_metrics graph blocked mx n rng) as [md rng0].
    apply bind_Ok in Hstep as (m & _ & Hstep). injection Hstep as <- <-.
    rewrite length_app. cbn. lia.
Qed.

(** One validated record per node of the graph. *)
Lemma generate_service_metrics_total (graph : DiGraph) (blocked : gset string) (rng : G) :
  exists services,
    _generate_service_metrics graph blocked rng = Ok services /\
    length services = length (nodes graph) /\
    Forall (fun m => ServiceMetrics_init m = Ok m) services.
Proof.
  destruct (for_each_total (service_step graph blocked (max_in_degree_of graph))
              (nodes graph)
              (fun x s _ => service_step_total graph blocked _ x s) ([], rng))
    as [[out rng'] Hloop].
  exists (sorted_by_name out).
  assert (Hgen : _generate_service_metrics graph blocked rng = Ok (sorted_by_name out)).
  { unfold _generate_service_metrics. by rewrite Hloop. }
  split; [exact Hgen|]. split.
  - rewrite sorted_by_name_perm. by apply service_loop_length in Hloop.
  - apply Forall_forall. intros m Hm.
    destruct (generated_metrics_built _ _ _ _ _ Hgen Hm) as (s & rng0 & _ & Hbuild).
    unfold _build_service_metrics in Hbuild.
    pose proof (ServiceMetrics_init_Ok _ _ Hbuild) as Heq.
    by rewrite <- Heq in Hbuild.
Qed.

Lemma nodes_add_nodes_from (ns : list string) (g : DiGraph) (n : string) :
  n ∈ nodes (add_nodes_from ns g) <-> n ∈ ns \/ n ∈ nodes g.
Proof.
  unfold add_nodes_from. revert g. induction ns as [|x ns IH]; intros g; cbn.
  - split; [by right|]. intros [Hn|Hn]; [by apply elem_of_nil in Hn|exact Hn].
  - rewrite IH, nodes_add_node, elem_of_cons. tauto.
Qed.

Lemma add_chosen_edges_nodes (service : string) (chosen : list string)
      (graph : DiGraph) (n : string) :
  n ∈ nodes graph -> n ∈ nodes (add_chosen_edges service chosen graph).
Proof.
  unfold add_chosen_edges. revert graph.
  induction chosen as [|d chosen IH]; intros graph Hn; cbn; [exact Hn|].
  apply IH. destruct (decide (d <> service)); [|exact Hn].
  apply nodes_add_edge. auto.
Qed.

(** Generation never drops a node. *)
Lemma generated_graph_keeps_nodes (rng rng' : G) (graph : DiGraph) (n : string) :
  _generate_dependency_graph settings rng = Ok (graph, rng') ->
  n ∈ service_names settings -> n ∈ nodes graph.
Proof.
  unfold _generate_dependency_graph. intros Hgen Hn.
  apply bind_Ok in Hgen as ([g1 rng1] & Hdraw & Hrepair).
  assert (Hg1 : n ∈ nodes g1).
  { apply (for_each_invariant (fun st : DiGraph * G => n ∈ nodes st.1)
             (draw_edges settings) (service_names settings)) with
      (s := (add_nodes_from (service_names settings) [], rng)) (s' := (g1, rng1));
      [|apply nodes_add_nodes_from; by left|exact Hdraw].
    intros x [g r] [g' r'] _ Hg Hstep. cbn in *. unfold draw_edges in Hstep.
    destruct (default [] (dependency_candidates settings !! x)) as [|c cs].
    - by injection Hstep as <- <-.
    - apply bind_Ok in Hstep as ([k r1] & _ & Hstep).
      apply bind_Ok in Hstep as ([chosen r2] & _ & Hstep).
      injection Hstep as <- <-. by apply add_chosen_edges_nodes. }
  apply (for_each_invariant (fun st : DiGraph * G => n ∈ nodes st.1)
           (repair_node settings) (isolates g1)) with
    (s := (g1, rng1)) (s' := (graph, rng')); [|exact Hg1|exact Hrepair].
  intros x [g r] [g' r'] _ Hg Hstep. cbn in *.
  apply repair_node_Ok in Hstep as (other & _ & _ & ->).
  apply nodes_add_edge. auto.
Qed.

(** With a generator (no seed, or a non-negative one) and two distinct
    configured services, [run_simulation] returns a result with at least
    one validated record per configured name. *)
Lemma run_simulation_returns (env : Env G) (history : list HistoricalRecord)
      (seed : option Z) :
  (forall s, seed = Some s -> 0 <= s) ->
  (exists a b, a ∈ service_names settings /\ b ∈ service_names settings /\ a <> b) ->
  exists result,
    run_simulation settings env history seed = Ok result /\
    result_services result <> [] /\
    Forall (fun m => ServiceMetrics_init m = Ok m) (result_services result).
Proof.
  intros Hseed Hdistinct.
  assert (Hrng : exists rng, default_rng seed (entropy env) = Ok rng).
  { destruct seed as [s|]; cbn; [|eauto].
    specialize (Hseed s eq_refl). destruct (s <? 0) eqn:E; [lia|eauto]. }
  destruct Hrng as [rng Hrng].
  destruct (generate_dependency_graph_stages settings rng Hdistinct)
    as (g1 & rng1 & graph & rng' & _ & _ & Hgraph).
  destruct (generate_service_metrics_total graph (_collect_blocked_services history) rng')
    as (services & Hservices & Hlen & Hvalid).
  assert (Hne : services <> []).
  { destruct Hdistinct as (a & _ & Ha & _).
    pose proof (generated_graph_keeps_nodes _ _ _ a Hgraph Ha) as Hin.
    destruct services; [|discriminate]. cbn in Hlen.
    destruct (nodes graph); [by apply elem_of_nil in Hin|discriminate]. }
  destruct (summarise_services_Ok (clock env) services Hne Hvalid)
    as (i & m & _ & Hsum).
  unfold run_simulation. rewrite Hrng. cbn. rewrite Hgraph. cbn.
  rewrite Hservices. cbn. rewrite Hsum. cbn.
  eexists. split; [reflexivity|]. cbn. auto.
Qed.

End RunReturns.

(** C3: for every state of the random source (so for every seed) and every
    configuration naming at least two distinct services, graph generation
    returns a graph; every configured service is a node of it, and after
    the repair pass no node is isolated: in-degree plus out-degree is at
    least 1 for every node, so for every configured service. *)
Theorem generated_graph_has_no_isolated_node
        {G : Type} `{GeneratorLaws G} (settings : Settings) (rng : G) :
  (exists a b, a ∈ service_names settings /\ b ∈ service_names settings /\ a <> b) ->
  exists graph rng',
    _generate_dependency_graph settings rng = Ok (graph, rng') /\
    (forall n, n ∈ service_names settings -> n ∈ nodes graph) /\
    isolates graph = [] /\
    (forall n, n ∈ nodes graph -> 1 <= in_degree graph n + out_degree graph n) /\
    (forall n, n ∈ service_names settings ->
               1 <= in_degree graph n + out_degree graph n).
Proof.
  intros Hdistinct.
  destruct (generate_dependency_graph_stages settings rng Hdistinct)
    as (g1 & rng1 & g2 & rng2 & _ & Hrepair & Hgen).
  exists g2, rng2. split; [exact Hgen|].
  assert (Hkeeps : forall n, n ∈ service_names settings -> n ∈ nodes g2)
    by (intros n Hn; exact (generated_graph_keeps_nodes settings _ _ _ n Hgen Hn)).
  split; [exact Hkeeps|].
  apply repair_loop_spec in Hrepair as (Hmono & Hvisited & Hnodes).
  assert (Hall : forall n, n ∈ nodes g2 -> incident g2 n).
  { intros n Hn. destruct (Hnodes n Hn) as [Hold|Hinc]; [|exact Hinc].
    destruct (decide (1 <= in_degree g1 n + out_degree g1 n)) as [Hdeg|Hdeg].
    - by apply Hmono, degree_incident.
    - apply Hvisited, elem_of_isolates. split; [exact Hold|].
      by rewrite <- degree_incident. }
  split; [|split].
  - destruct (isolates g2) as [|n rest] eqn:Hiso; [reflexivity|].
    assert (Hn : n ∈ isolates g2) by (rewrite Hiso; left).
    apply elem_of_isolates in Hn as [Hn Hnot]. destruct (Hnot (Hall n Hn)).
  - intros n Hn. by apply degree_incident, Hall.
  - intros n Hn. by apply degree_incident, Hall, Hkeeps.
Qed.

(** C3 at the default configuration and seed 123. *)
Lemma generated_graph_has_no_isolated_node_witness :
  exists graph rng',
    _generate_dependency_graph default_settings (seed_rng 123) = Ok (graph, rng') /\
    (forall n, n ∈ service_names default_settings -> n ∈ nodes graph) /\
    isolates graph = [] /\
    (forall n, n ∈ nodes graph -> 1 <= in_degree graph n + out_degree graph n) /\
    (forall n, n ∈ service_names default_settings ->
               1 <= in_degree graph n + out_degree graph n).
Proof.
  apply (generated_graph_has_no_isolated_node (G := list Z) default_settings (seed_rng 123)).
  exists "auth-service"%string, "payment-service"%string.
  split; [left|]. split; [right; left|]. discriminate.
Defined.

(* ===================================================================== *)
(** * Properties: edges stay within the configured services               *)
(* ===================================================================== *)

Section ConfiguredEndpoints.
Context {G : Type} `{GeneratorLaws G}.
Variable settings : Settings.

(** The candidate table names configured services only, as the default
    table does. *)
Hypothesis candidates_configured :
  forall service candidates d,
    dependency_candidates settings !! service = Some candidates ->
    d ∈ candidates -> d ∈ service_names settings.

Lemma within_configured_add_edge (u v : string) (g : DiGraph) :
  u ∈ service_names settings -> v ∈ service_names settings ->
  within_configured settings g -> within_configured settings (add_edge u v g).
Proof.
  intros Hu Hv [Hnodes Hedges]. split.
  - intros n Hn. apply nodes_add_edge in Hn as [->|[->|Hn]]; auto.
  - intros a b Hab. apply graph_edges_add_edge in Hab as [Hab|[-> ->]]; auto.
Qed.

Lemma within_configured_add_chosen (service : string) (chosen : list string)
      (g : DiGraph) :
  service ∈ service_names settings ->
  (forall d, d ∈ chosen -> d ∈ service_names settings) ->
  within_configured settings g -> within_configured settings (add_chosen_edges service chosen g).
Proof.
  intros Hs. unfold add_chosen_edges. revert g.
  induction chosen as [|d chosen IH]; intros g Hchosen Hg; cbn; [exact Hg|].
  apply IH; [intros d' Hd'; apply Hchosen; by right|].
  destruct (decide (d <> service)); [|exact Hg].
  apply within_configured_add_edge; [apply Hchosen; left|exact Hs|exact Hg].
Qed.

Lemma within_configured_draw_edges (service : string) (g g' : DiGraph) (rng rng' : G) :
  service ∈ service_names settings ->
  within_configured settings g ->
  draw_edges settings service (g, rng) = Ok (g', rng') ->
  within_configured settings g'.
Proof.
  intros Hs Hg. unfold draw_edges.
  destruct (dependency_candidates settings !! service) as [candidates|] eqn:Hc; cbn;
    [|intros Hd; by injection Hd as <- <-].
  destruct candidates as [|c cs]; [intros Hd; by injection Hd as <- <-|].
  intros Hd.
  apply bind_Ok in Hd as ([edge_count rng1] & _ & Hd).
  apply bind_Ok in Hd as ([chosen rng2] & Hchosen & Hd).
  injection Hd as <- <-. apply within_configured_add_chosen; [exact Hs| |exact Hg].
  intros d Hin. apply (candidates_configured service (c :: cs) d Hc).
  destruct (edge_count =? 0).
  - injection Hchosen as <- <-. by apply elem_of_nil in Hin.
  - unfold np_choice_sample in Hchosen.
    destruct (_ && _) in Hchosen; [|discriminate].
    injection Hchosen as Hsample.
    apply (sample_elem_of (c :: cs) edge_count rng1 d).
    destruct (rng_sample (c :: cs) edge_count rng1) as [chosen' rng'']. cbn.
    injection Hsample as -> _. exact Hin.
Qed.

(** Every node and every edge endpoint of a generated graph is a
    configured service, and every configured service is a node. *)
Lemma generated_graph_within_configured (rng rng' : G) (graph : DiGraph) :
  _generate_dependency_graph settings rng = Ok (graph, rng') ->
  (forall n, n ∈ nodes graph <-> n ∈ service_names settings) /\
  (forall u v, (u, v) ∈ graph_edges graph ->
               u ∈ service_names settings /\ v ∈ service_names settings).
Proof.
  intros Hgen. pose proof Hgen as Hkeeps.
  unfold _generate_dependency_graph in Hgen.
  apply bind_Ok in Hgen as ([g1 rng1] & Hdraw & Hrepair).
  assert (Hinit : within_configured settings (add_nodes_from (service_names settings) [])).
  { split.
    - intros n Hn. apply nodes_add_nodes_from in Hn as [Hn|Hn]; [exact Hn|].
      by apply elem_of_nil in Hn.
    - intros u v Huv. rewrite graph_edges_add_nodes_from in Huv.
      by apply elem_of_nil in Huv. }
  assert (Hg1 : within_configured settings g1).
  { apply (for_each_invariant (fun st : DiGraph * G => within_configured settings st.1)
             (draw_edges settings) (service_names settings)) with
      (s := (add_nodes_from (service_names settings) [], rng)) (s' := (g1, rng1));
      [|exact Hinit|exact Hdraw].
    intros x [g r] [g' r'] Hx Hg Hstep. cbn in *.
    exact (within_configured_draw_edges x g g' r r' Hx Hg Hstep). }
  assert (Hfinal : within_configured settings graph).
  { apply (for_each_invariant
             (fun st : DiGraph * G =>
                within_configured settings st.1 /\ forall n, n ∈ nodes g1 -> n ∈ nodes st.1)
             (repair_node settings) (isolates g1)) with
      (s := (g1, rng1)) (s' := (graph, rng')); [|by split|exact Hrepair].
    intros x [g r] [g' r'] Hx [Hg Hsub] Hstep. cbn in *.
    apply repair_node_Ok in Hstep as (other & Hother & _ & ->).
    apply elem_of_isolates in Hx as [Hx _]. split.
    - apply within_configured_add_edge; [exact Hother| |exact Hg].
      destruct Hg1 as [Hnodes _]. by apply Hnodes.
    - intros n Hn. apply nodes_add_edge. right. right. by apply Hsub. }
  destruct Hfinal as [Hnodes Hedges]. split; [|exact Hedges].
  intros n. split; [apply Hnodes|].
  exact (generated_graph_keeps_nodes settings rng rng' graph n Hkeeps).
Qed.

End ConfiguredEndpoints.

(** The default candidate table names configured services only. *)
Lemma default_candidates_configured :
  forall service candidates d,
    dependency_candidates default_settings !! service = Some candidates ->
    d ∈ candidates -> d ∈ service_names default_settings.
Proof.
  assert (Hall : map_Forall (fun _ cs => Forall (fun d => d ∈ DEFAULT_SERVICE_NAMES) cs)
                            DEFAULT_DEPENDENCY_CANDIDATES).
  { apply (bool_decide_unpack _). vm_compute. exact I. }
  intros service candidates d Hc Hd.
  specialize (Hall service candidates Hc). rewrite Forall_forall in Hall. by apply Hall.
Qed.

(* ===================================================================== *)
(** * Further properties: scoring                                         *)
(* ===================================================================== *)

(** [_normalise_to_percentage] always lands in [0,100] and never reverses
    the order of two inputs. *)
Theorem normalise_to_percentage_monotone (x y : Q) :
  (x <= y)%Q ->
  (0 <= _normalise_to_percentage x)%Q /\
  (_normalise_to_percentage x <= _normalise_to_percentage y)%Q /\
  (_normalise_to_percentage y <= 100)%Q.
Proof.
  intros Hxy. unfold _normalise_to_percentage.
  destruct (Qltb x 0) eqn:Ex0; destruct (Qltb y 0) eqn:Ey0;
    destruct (Qltb 1 x) eqn:Ex1; destruct (Qltb 1 y) eqn:Ey1;
    try apply Qltb_lt in Ex0; try apply Qltb_ge in Ex0;
    try apply Qltb_lt in Ey0; try apply Qltb_ge in Ey0;
    try apply Qltb_lt in Ex1; try apply Qltb_ge in Ex1;
    try apply Qltb_lt in Ey1; try apply Qltb_ge in Ey1;
    repeat split; lra.
Qed.

Lemma normalise_to_percentage_monotone_witness :
  (0 <= _normalise_to_percentage 0.2)%Q /\
  (_normalise_to_percentage 0.2 <= _normalise_to_percentage 1.5)%Q /\
  (_normalise_to_percentage 1.5 <= 100)%Q.
Proof.
  apply (normalise_to_percentage_monotone 0.2 1.5). vm_compute. discriminate.
Defined.

(** A higher risk score never earns a more lenient decision. *)
Theorem classify_risk_monotone (low high : Q) :
  (low <= high)%Q ->
  severity (_classify_risk low) <= severity (_classify_risk high).
Proof.
  intros Hle. unfold _classify_risk.
  destruct (Qltb low 40) eqn:El40; destruct (Qltb low 70) eqn:El70;
    destruct (Qltb high 40) eqn:Eh40; destruct (Qltb high 70) eqn:Eh70;
    cbn; try lia;
    try apply Qltb_lt in El40; try apply Qltb_ge in El40;
    try apply Qltb_lt in El70; try apply Qltb_ge in El70;
    try apply Qltb_lt in Eh40; try apply Qltb_ge in Eh40;
    try apply Qltb_lt in Eh70; try apply Qltb_ge in Eh70;
    exfalso; lra.
Qed.

Lemma classify_risk_monotone_witness :
  severity (_classify_risk 39.99) <= severity (_classify_risk 70.00).
Proof.
  apply (classify_risk_monotone 39.99 70.00). vm_compute. discriminate.
Defined.

(** [_build_service_metrics] either returns a record whose six numbers are
    percentages, whose score is the rounded clamped weighted sum and whose
    decision is the classification of that stored score, or it raises a
    validation error, and then one of the five signals rounds outside
    [0,100]: the score itself never fails the validation. *)
Theorem build_service_metrics_outcome (service : string) (md : MetricsDict) :
  (exists m,
      _build_service_metrics service md = Ok m /\
      service_name m = service /\
      Forall (fun x => (0 <= x)%Q /\ (x <= 100)%Q)
             [dependency_impact_score m; rollback_rate m; change_frequency m;
              error_spike_history m; latency_instability m; risk_score m] /\
      decision m = _classify_risk (risk_score m)) \/
  (_build_service_metrics service md = Raise ValidationError /\
   Exists (fun x => ~ ((0 <= py_round2 x)%Q /\ (py_round2 x <= 100)%Q))
          [md_dependency_impact_score md; md_rollback_rate md;
           md_change_frequency md; md_error_spike_history md;
           md_latency_instability md]).
Proof.
  destruct (_build_service_metrics service md) as [m|e] eqn:Hbuild.
  - left. exists m. split; [reflexivity|].
    pose proof Hbuild as Hfields.
    apply build_service_metrics_fields in Hfields
      as (Hname & _ & _ & _ & _ & _ & _ & Hdec).
    split; [exact Hname|]. split; [|exact Hdec].
    unfold _build_service_metrics in Hbuild.
    pose proof (ServiceMetrics_init_Ok _ _ Hbuild) as Heq.
    rewrite <- Heq in Hbuild. unfold ServiceMetrics_init in Hbuild.
    destruct (_ && _) eqn:Hall in Hbuild; [|discriminate].
    rewrite !andb_true_iff, !ge0_le100_spec in Hall.
    destruct Hall as (((((H1 & H2) & H3) & H4) & H5) & H6).
    repeat constructor; tauto.
  - right. unfold _build_service_metrics, ServiceMetrics_init in Hbuild.
    cbn in Hbuild.
    rewrite (ge0_le100_round2 (clamp_0_100 _)) in Hbuild
      by apply clamp_0_100_range.
    rewrite andb_true_r in Hbuild.
    destruct (ge0_le100 (py_round2 (md_dependency_impact_score md))) eqn:E1;
      [|split; [cbn in Hbuild; congruence|];
        apply Exists_cons_hd; rewrite <- ge0_le100_spec; congruence].
    destruct (ge0_le100 (py_round2 (md_rollback_rate md))) eqn:E2;
      [|split; [cbn in Hbuild; congruence|];
        apply Exists_cons_tl, Exists_cons_hd; rewrite <- ge0_le100_spec; congruence].
    destruct (ge0_le100 (py_round2 (md_change_frequency md))) eqn:E3;
      [|split; [cbn in Hbuild; congruence|];
        do 2 apply Exists_cons_tl; apply Exists_cons_hd;
        rewrite <- ge0_le100_spec; congruence].
    destruct (ge0_le100 (py_round2 (md_error_spike_history md))) eqn:E4;
      [|split; [cbn in Hbuild; congruence|];
        do 3 apply Exists_cons_tl; apply Exists_cons_hd;
        rewrite <- ge0_le100_spec; congruence].
    destruct (ge0_le100 (py_round2 (md_latency_instability md))) eqn:E5;
      [|split; [cbn in Hbuild; congruence|];
        do 4 apply Exists_cons_tl; apply Exists_cons_hd;
        rewrite <- ge0_le100_spec; congruence].
    cbn in Hbuild. discriminate.
Qed.

(* ===================================================================== *)
(** * Further properties: the records of a run                            *)
(* ===================================================================== *)

Section RunRecords.
Context {G : Type} `{Generator G} `{Betweenness}.

Lemma ltb_asym (a b : string) : String.ltb a b = true -> String.ltb b a = false.
Proof.
  unfold String.ltb. rewrite (String.compare_antisym b a).
  destruct (String.compare a b); cbn; congruence.
Qed.

Lemma insert_by_name_hd (x m : ServiceMetrics) (rest : list ServiceMetrics) :
  HdRel name_le x rest -> name_le x m -> HdRel name_le x (insert_by_name m rest).
Proof.
  intros Hhd Hxm. destruct rest as [|y rest]; cbn; [by constructor|].
  destruct (String.ltb (service_name m) (service_name y)); constructor;
    [exact Hxm|by inversion Hhd].
Qed.

Lemma insert_by_name_sorted (m : ServiceMetrics) (l : list ServiceMetrics) :
  Sorted name_le l -> Sorted name_le (insert_by_name m l).
Proof.
  induction 1 as [|x rest Hsorted IH Hhd]; cbn; [repeat constructor|].
  destruct (String.ltb (service_name m) (service_name x)) eqn:E.
  - constructor; [by constructor|]. constructor. by apply ltb_asym.
  - constructor; [exact IH|]. by apply insert_by_name_hd.
Qed.

(** [sorted] by name returns a list in non-decreasing name order. *)
Lemma sorted_by_name_sorted (l : list ServiceMetrics) :
  Sorted name_le (sorted_by_name l).
Proof.
  unfold sorted_by_name.
  assert (Hgen : forall acc, Sorted name_le acc ->
            Sorted name_le (foldl (fun acc m => insert_by_name m acc) acc l)).
  { induction l as [|x l IH]; intros acc Hacc; cbn; [exact Hacc|].
    by apply IH, insert_by_name_sorted. }
  apply Hgen. constructor.
Qed.

(** The service loop names its records after the nodes, in node order. *)
Lemma service_loop_names (graph : DiGraph) (blocked : gset string) (mx : Z)
      (ns : list string) (acc out : list ServiceMetrics) (rng rng' : G) :
  for_each (service_step graph blocked mx) ns (acc, rng) = Ok (out, rng') ->
  service_name <$> out = (service_name <$> acc) ++ ns.
Proof.
  revert acc rng. induction ns as [|n ns IH]; intros acc rng Hloop.
  - cbn in Hloop. injection Hloop as <- <-. by rewrite app_nil_r.
  - rewrite for_each_cons in Hloop.
    apply bind_Ok in Hloop as ([acc1 rng1] & Hstep & Hloop).
    apply IH in Hloop. rewrite Hloop. clear Hloop.
    unfold service_step in Hstep.
    destruct (draw_metrics graph blocked mx n rng) as [md rng0].
    apply bind_Ok in Hstep as (m & Hm & Hstep). injection Hstep as <- <-.
    apply build_service_metrics_fields in Hm as (Hname & _).
    rewrite fmap_app. cbn. rewrite Hname. by rewrite <- app_assoc.
Qed.

(** One record per node: the names of the records are the nodes,
    rearranged. *)
Lemma generate_service_metrics_names (graph : DiGraph) (blocked : gset string)
      (rng : G) (services : list ServiceMetrics) :
  _generate_service_metrics graph blocked rng = Ok services ->
  service_name <$> services ≡ₚ nodes graph.
Proof.
  unfold _generate_service_metrics. intros Hgen.
  apply bind_Ok in Hgen as ([out rng'] & Hloop & Hsort).
  injection Hsort as <-. rewrite sorted_by_name_perm.
  apply service_loop_names in Hloop. by rewrite Hloop.
Qed.

(** What holds of a record that was built. *)
Lemma built_record_facts (service : string) (md : MetricsDict) (m : ServiceMetrics) :
  _build_service_metrics service md = Ok m ->
  ServiceMetrics_init m = Ok m /\
  decision m = _classify_risk (risk_score m) /\
  Forall (fun x => py_round2 x = x)
         [dependency_impact_score m; rollback_rate m; change_frequency m;
          error_spike_history m; latency_instability m; risk_score m].
Proof.
  intros Hbuild. pose proof Hbuild as Hfields.
  apply build_service_metrics_fields in Hfields
    as (_ & Hdep & Hrb & Hcf & Hes & Hli & Hrisk & Hdec).
  split; [|split; [exact Hdec|]].
  - unfold _build_service_metrics in Hbuild.
    pose proof (ServiceMetrics_init_Ok _ _ Hbuild) as Heq.
    by rewrite <- Heq in Hbuild.
  - rewrite Hdep, Hrb, Hcf, Hes, Hli, Hrisk.
    repeat constructor; apply py_round2_idempotent.
Qed.

Lemma add_node_NoDup (n : string) (g : DiGraph) :
  NoDup (nodes g) -> NoDup (nodes (add_node n g)).
Proof.
  intros Hg. unfold add_node. destruct (decide (n ∈ nodes g)) as [Hin|Hout]; [exact Hg|].
  unfold nodes in *. rewrite fmap_app. cbn.
  apply NoDup_app. split; [exact Hg|]. split.
  - intros x Hx Hx'. apply list_elem_of_singleton in Hx'. by subst x.
  - apply NoDup_singleton.
Qed.

Lemma add_edge_NoDup (u v : string) (g : DiGraph) :
  NoDup (nodes g) -> NoDup (nodes (add_edge u v g)).
Proof.
  intros Hg. unfold add_edge. rewrite nodes_add_succ.
  by apply add_node_NoDup, add_node_NoDup.
Qed.

Lemma add_edge_closed (u v : string) (g : DiGraph) :
  edge_closed g -> edge_closed (add_edge u v g).
Proof.
  intros Hg a b Hab. rewrite !nodes_add_edge.
  apply graph_edges_add_edge in Hab as [Hab|[-> ->]]; [|auto].
  destruct (Hg a b Hab). auto.
Qed.

Lemma add_edge_well_formed (u v : string) (g : DiGraph) :
  well_formed g -> well_formed (add_edge u v g).
Proof.
  intros [Hnd Hclosed]. split; [by apply add_edge_NoDup|by apply add_edge_closed].
Qed.

Lemma add_chosen_edges_well_formed (service : string) (chosen : list string)
      (g : DiGraph) :
  well_formed g -> well_formed (add_chosen_edges service chosen g).
Proof.
  unfold add_chosen_edges. revert g.
  induction chosen as [|d chosen IH]; intros g Hg; cbn; [exact Hg|].
  apply IH. destruct (decide (d <> service)); [|exact Hg].
  by apply add_edge_well_formed.
Qed.

Lemma add_nodes_from_well_formed (ns : list string) :
  well_formed (add_nodes_from ns []).
Proof.
  split.
  - unfold add_nodes_from.
    assert (Hgen : forall g, NoDup (nodes g) ->
              NoDup (nodes (foldl (fun g n => add_node n g) g ns))).
    { induction ns as [|n ns IH]; intros g Hg; cbn; [exact Hg|].
      by apply IH, add_node_NoDup. }
    apply Hgen. constructor.
  - intros u v Huv. rewrite graph_edges_add_nodes_from in Huv.
    by apply elem_of_nil in Huv.
Qed.

End RunRecords.

Section GeneratorInversion.
Context {G : Type} `{Generator G}.
Variable settings : Settings.

Lemma draw_edges_inv (service : string) (g g' : DiGraph) (rng rng' : G) :
  draw_edges settings service (g, rng) = Ok (g', rng') ->
  exists chosen, g' = add_chosen_edges service chosen g.
Proof.
  unfold draw_edges.
  destruct (default [] (dependency_candidates settings !! service)) as [|c cs].
  - intros Hd. injection Hd as <- <-. by exists [].
  - intros Hd.
    apply bind_Ok in Hd as ([edge_count rng1] & _ & Hd).
    apply bind_Ok in Hd as ([chosen rng2] & _ & Hd).
    injection Hd as <- <-. by exists chosen.
Qed.

Lemma repair_node_inv (node : string) (g g' : DiGraph) (rng rng' : G) :
  repair_node settings node (g, rng) = Ok (g', rng') ->
  exists other, g' = add_edge other node g.
Proof.
  unfold repair_node. intros Hrep.
  apply bind_Ok in Hrep as ([other rng1] & _ & Hrep).
  injection Hrep as <- <-. by exists other.
Qed.

(** The two loops behind a generated graph. *)
Lemma generate_dependency_graph_inv (rng rng' : G) (graph : DiGraph) :
  _generate_dependency_graph settings rng = Ok (graph, rng') ->
  exists g1 rng1,
    for_each (draw_edges settings) (service_names settings)
             (add_nodes_from (service_names settings) [], rng) = Ok (g1, rng1) /\
    for_each (repair_node settings) (isolates g1) (g1, rng1) = Ok (graph, rng').
Proof.
  unfold _generate_dependency_graph. intros Hgen.
  apply bind_Ok in Hgen as ([g1 rng1] & Hdraw & Hrepair). eauto.
Qed.

(** A generated graph has no repeated node and every edge joins two of its
    nodes. *)
Lemma generated_graph_well_formed (rng rng' : G) (graph : DiGraph) :
  _generate_dependency_graph settings rng = Ok (graph, rng') ->
  well_formed graph.
Proof.
  intros Hgen. apply generate_dependency_graph_inv in Hgen
    as (g1 & rng1 & Hdraw & Hrepair).
  assert (Hg1 : well_formed g1).
  { apply (for_each_invariant (fun st : DiGraph * G => well_formed st.1)
             (draw_edges settings) (service_names settings)) with
      (s := (add_nodes_from (service_names settings) [], rng)) (s' := (g1, rng1));
      [|apply add_nodes_from_well_formed|exact Hdraw].
    intros x [g r] [g' r'] _ Hg Hstep. cbn in *.
    apply draw_edges_inv in Hstep as [chosen ->].
    by apply add_chosen_edges_well_formed. }
  apply (for_each_invariant (fun st : DiGraph * G => well_formed st.1)
           (repair_node settings) (isolates g1)) with
    (s := (g1, rng1)) (s' := (graph, rng')); [|exact Hg1|exact Hrepair].
  intros x [g r] [g' r'] _ Hg Hstep. cbn in *.
  apply repair_node_inv in Hstep as [other ->].
  by apply add_edge_well_formed.
Qed.

Lemma repair_loop_incident (isolated : list string) (graph graph' : DiGraph)
      (rng rng' : G) :
  for_each (repair_node settings) isolated (graph, rng) = Ok (graph', rng') ->
  (forall n, incident graph n -> incident graph' n) /\
  (forall n, n ∈ isolated -> incident graph' n) /\
  (forall n, n ∈ nodes graph' -> n ∈ nodes graph \/ incident graph' n).
Proof.
  revert graph rng. induction isolated as [|node rest IH]; intros graph rng Hloop.
  - cbn in Hloop. injection Hloop as <- <-. repeat split; auto.
    intros n Hn. by apply elem_of_nil in Hn.
  - rewrite for_each_cons in Hloop.
    apply bind_Ok in Hloop as ([g1 rng1] & Hstep & Hloop).
    apply repair_node_inv in Hstep as [other ->].
    destruct (IH _ _ Hloop) as (Hmono & Hvisited & Hnodes).
    split; [|split].
    + intros n Hn. by apply Hmono, incident_add_edge_mono.
    + intros n Hn. apply elem_of_cons in Hn as [->|Hn]; [|by apply Hvisited].
      apply Hmono, incident_add_edge_target.
    + intros n Hn. destruct (Hnodes n Hn) as [Hold|Hinc]; [|by right].
      apply nodes_add_edge in Hold as [->|[->|Hold]].
      * right. apply Hmono, incident_add_edge_source.
      * right. apply Hmono, incident_add_edge_target.
      * by left.
Qed.

(** Whenever generation returns, every node of the graph has an edge. *)
Lemma generated_graph_all_incident (rng rng' : G) (graph : DiGraph) (n : string) :
  _generate_dependency_graph settings rng = Ok (graph, rng') ->
  n ∈ nodes graph -> incident graph n.
Proof.
  intros Hgen Hn. apply generate_dependency_graph_inv in Hgen
    as (g1 & rng1 & _ & Hrepair).
  apply repair_loop_incident in Hrepair as (Hmono & Hvisited & Hnodes).
  destruct (Hnodes n Hn) as [Hold|Hinc]; [|exact Hinc].
  destruct (decide (1 <= in_degree g1 n + out_degree g1 n)) as [Hdeg|Hdeg].
  - by apply Hmono, degree_incident.
  - apply Hvisited, elem_of_isolates. split; [exact Hold|].
    by rewrite <- degree_incident.
Qed.

End GeneratorInversion.

(** When the candidate table names configured services only, the nodes of
    a generated graph are exactly the configured services, none of them
    twice, and every edge joins two configured services. *)
Theorem generated_graph_over_configured_services
        {G : Type} `{GeneratorLaws G} (settings : Settings) (rng rng' : G)
        (graph : DiGraph) :
  (forall service candidates d,
      dependency_candidates settings !! service = Some candidates ->
      d ∈ candidates -> d ∈ service_names settings) ->
  _generate_dependency_graph settings rng = Ok (graph, rng') ->
  NoDup (nodes graph) /\
  (forall n, n ∈ nodes graph <-> n ∈ service_names settings) /\
  (forall u v, (u, v) ∈ graph_edges graph ->
               u ∈ service_names settings /\ v ∈ service_names settings).
Proof.
  intros Hconfigured Hgen.
  destruct (generated_graph_well_formed settings _ _ _ Hgen) as [Hnodup _].
  destruct (generated_graph_within_configured settings Hconfigured _ _ _ Hgen)
    as [Hnodes Hedges].
  split; [exact Hnodup|]. split; [exact Hnodes|exact Hedges].
Qed.

(** Generation at the default configuration and seed 123. *)
Lemma generated_graph_over_configured_services_witness :
  exists graph rng',
    _generate_dependency_graph default_settings (seed_rng 123) = Ok (graph, rng') /\
    NoDup (nodes graph) /\
    (forall n, n ∈ nodes graph <-> n ∈ service_names default_settings) /\
    (forall u v, (u, v) ∈ graph_edges graph ->
                 u ∈ service_names default_settings /\
                 v ∈ service_names default_settings).
Proof.
  eexists. eexists. split; [vm_compute; reflexivity|].
  eapply (generated_graph_over_configured_services (G := list Z) default_settings
            (seed_rng 123)).
  - exact default_candidates_configured.
  - vm_compute. reflexivity.
Defined.

(** Every record of a run was built by [_build_service_metrics]. *)
Lemma run_record_facts
      {G : Type} `{Generator G} `{Betweenness}
      (settings : Settings) (env : Env G) (history : list HistoricalRecord)
      (seed : option Z) (result : SimulationResult) (m : ServiceMetrics) :
  run_simulation settings env history seed = Ok result ->
  m ∈ result_services result ->
  ServiceMetrics_init m = Ok m /\
  decision m = _classify_risk (risk_score m) /\
  Forall (fun x => py_round2 x = x)
         [dependency_impact_score m; rollback_rate m; change_frequency m;
          error_spike_history m; latency_instability m; risk_score m].
Proof.
  intros Hrun Hm.
  apply run_simulation_Ok in Hrun
    as (rng & graph & rng' & summary & _ & _ & Hgen & _).
  destruct (generated_metrics_built _ _ _ _ _ Hgen Hm) as (s & rng0 & _ & Hbuild).
  by apply built_record_facts in Hbuild.
Qed.

(** In every run each record passes the model's validation, every stored
    number has two decimals, and the decision is the classification of the
    stored risk score. *)
Theorem run_records_validated
        {G : Type} `{Generator G} `{Betweenness}
        (settings : Settings) (env : Env G) (history : list HistoricalRecord)
        (seed : option Z) (result : SimulationResult) :
  run_simulation settings env history seed = Ok result ->
  Forall (fun m =>
            ServiceMetrics_init m = Ok m /\
            decision m = _classify_risk (risk_score m) /\
            Forall (fun x => py_round2 x = x /\ (0 <= x)%Q /\ (x <= 100)%Q)
                   [dependency_impact_score m; rollback_rate m;
                    change_frequency m; error_spike_history m;
                    latency_instability m; risk_score m])
         (result_services result).
Proof.
  intros Hrun. apply Forall_forall. intros m Hm.
  destruct (run_record_facts _ _ _ _ _ _ Hrun Hm) as (Hvalid & Hdec & Hround).
  split; [exact Hvalid|]. split; [exact Hdec|].
  unfold ServiceMetrics_init in Hvalid.
  destruct (_ && _) eqn:Hall in Hvalid; [|discriminate].
  rewrite !andb_true_iff, !ge0_le100_spec in Hall.
  destruct Hall as (((((H1 & H2) & H3) & H4) & H5) & H6).
  rewrite !Forall_cons in Hround. destruct Hround as (R1 & R2 & R3 & R4 & R5 & R6 & _).
  repeat constructor; tauto.
Qed.

Lemma run_records_validated_witness :
  Forall (fun m =>
            ServiceMetrics_init m = Ok m /\
            decision m = _classify_risk (risk_score m) /\
            Forall (fun x => py_round2 x = x /\ (0 <= x)%Q /\ (x <= 100)%Q)
                   [dependency_impact_score m; rollback_rate m;
                    change_frequency m; error_spike_history m;
                    latency_instability m; risk_score m])
         (result_services Scripted.sample_result).
Proof.
  apply (@run_records_validated _ Scripted.generator Scripted.no_interior
           Scripted.two_services (Scripted.env 0 Scripted.tape) [] None
           Scripted.sample_result).
  vm_compute. reflexivity.
Defined.

(** In every run the records come in non-decreasing order of service name
    and no service name appears twice. *)
Theorem run_services_sorted_unique
        {G : Type} `{Generator G} `{Betweenness}
        (settings : Settings) (env : Env G) (history : list HistoricalRecord)
        (seed : option Z) (result : SimulationResult) :
  run_simulation settings env history seed = Ok result ->
  Sorted name_le (result_services result) /\
  NoDup (service_name <$> result_services result).
Proof.
  intros Hrun.
  apply run_simulation_Ok in Hrun
    as (rng & graph & rng' & summary & _ & Hgraph & Hgen & _).
  split.
  - unfold _generate_service_metrics in Hgen.
    apply bind_Ok in Hgen as ([out rng1] & _ & Hsort).
    injection Hsort as <-. apply sorted_by_name_sorted.
  - rewrite (generate_service_metrics_names _ _ _ _ Hgen).
    by destruct (generated_graph_well_formed settings _ _ _ Hgraph).
Qed.

Lemma run_services_sorted_unique_witness :
  Sorted name_le (result_services Scripted.sample_result) /\
  NoDup (service_name <$> result_services Scripted.sample_result).
Proof.
  apply (@run_services_sorted_unique _ Scripted.generator Scripted.no_interior
           Scripted.two_services (Scripted.env 0 Scripted.tape) [] None
           Scripted.sample_result).
  vm_compute. reflexivity.
Defined.

(** When the configured names are distinct and the candidate table names
    configured services only, a run reports each configured service exactly
    once: the names of its records are the configured names, rearranged. *)
Theorem run_reports_each_configured_service
        {G : Type} `{GeneratorLaws G} `{Betweenness}
        (settings : Settings) (env : Env G) (history : list HistoricalRecord)
        (seed : option Z) (result : SimulationResult) :
  NoDup (service_names settings) ->
  (forall service candidates d,
      dependency_candidates settings !! service = Some candidates ->
      d ∈ candidates -> d ∈ service_names settings) ->
  run_simulation settings env history seed = Ok result ->
  service_name <$> result_services result ≡ₚ service_names settings /\
  length (result_services result) = length (service_names settings).
Proof.
  intros Hnodup Hconfigured Hrun.
  apply run_simulation_Ok in Hrun
    as (rng & graph & rng' & summary & _ & Hgraph & Hgen & _).
  assert (Hperm : service_name <$> result_services result ≡ₚ service_names settings).
  { rewrite (generate_service_metrics_names _ _ _ _ Hgen).
    apply NoDup_Permutation; [|exact Hnodup|].
    - by destruct (generated_graph_well_formed settings _ _ _ Hgraph).
    - by destruct (generated_graph_within_configured settings Hconfigured _ _ _ Hgraph). }
  split; [exact Hperm|].
  rewrite <- (length_fmap service_name). by rewrite Hperm.
Qed.

Lemma run_reports_each_configured_service_witness :
  service_name <$> result_services Scripted.sample_result
    ≡ₚ service_names Scripted.two_services /\
  length (result_services Scripted.sample_result)
  = length (service_names Scripted.two_services).
Proof.
  apply (@run_reports_each_configured_service _ Scripted.generator scripted_laws
           Scripted.no_interior
           Scripted.two_services (Scripted.env 0 Scripted.tape) [] None
           Scripted.sample_result).
  - apply (bool_decide_unpack _). vm_compute. exact I.
  - intros service candidates d Hc. cbn in Hc. by rewrite lookup_empty in Hc.
  - vm_compute. reflexivity.
Defined.

(** Every run has at least one dependency edge, and both endpoints of each
    edge are services of the result. *)
Theorem run_edges_nonempty_and_known
        {G : Type} `{Generator G} `{Betweenness}
        (settings : Settings) (env : Env G) (history : list HistoricalRecord)
        (seed : option Z) (result : SimulationResult) :
  run_simulation settings env history seed = Ok result ->
  result_edges result <> [] /\
  forall edge, edge ∈ result_edges result ->
    source edge ∈ (service_name <$> result_services result) /\
    target edge ∈ (service_name <$> result_services result).
Proof.
  intros Hrun.
  apply run_simulation_Ok in Hrun
    as (rng & graph & rng' & summary & _ & Hgraph & Hgen & Hsum & _ & Hedges).
  pose proof (generate_service_metrics_names _ _ _ _ Hgen) as Hnames.
  rewrite Hedges. split.
  - assert (Hne : result_services result <> []).
    { intros Hnil. rewrite Hnil in Hsum. cbn in Hsum. discriminate. }
    destruct (result_services result) as [|m ms] eqn:Hs; [congruence|].
    assert (Hn : service_name m ∈ nodes graph) by (rewrite <- Hnames; cbn; left).
    destruct (generated_graph_all_incident settings _ _ _ _ Hgraph Hn)
      as (e & He & _).
    intros Hnil. apply fmap_nil_inv in Hnil. rewrite Hnil in He.
    by apply elem_of_nil in He.
  - intros edge Hedge.
    apply list_elem_of_fmap in Hedge as ([u v] & -> & Huv). cbn.
    destruct (generated_graph_well_formed settings _ _ _ Hgraph) as [_ Hclosed].
    rewrite Hnames. by apply Hclosed.
Qed.

Lemma run_edges_nonempty_and_known_witness :
  result_edges Scripted.sample_result <> [] /\
  forall edge, edge ∈ result_edges Scripted.sample_result ->
    source edge ∈ (service_name <$> result_services Scripted.sample_result) /\
    target edge ∈ (service_name <$> result_services Scripted.sample_result).
Proof.
  apply (@run_edges_nonempty_and_known _ Scripted.generator Scripted.no_interior
           Scripted.two_services (Scripted.env 0 Scripted.tape) [] None
           Scripted.sample_result).
  vm_compute. reflexivity.
Defined.

(* ===================================================================== *)
(** * Further properties: the summary of a run                            *)
(* ===================================================================== *)

Lemma SimulationSummary_init_Ok (s s' : SimulationSummary) :
  SimulationSummary_init s = Ok s' -> s' = s.
Proof.
  unfold SimulationSummary_init. intros Hinit.
  destruct (_ && _) in Hinit; congruence.
Qed.

(** The summary that was built, field by field. *)
Lemma summarise_services_inv (now : Z) (services : list ServiceMetrics)
      (summary : SimulationSummary) :
  _summarise_services now services = Ok summary ->
  services <> [] /\
  exists i m,
    first_max_at risk_score services i m /\
    summary
    = {| average_risk := py_round2 (np_mean (risk_score <$> services));
         highest_risk_service := service_name m;
         highest_risk_score := risk_score m;
         blocked_services :=
           service_name <$>
             filter (fun svc => decision svc = BLOCK_DEPLOYMENT) services;
         blocked_count :=
           Z.of_nat (length (service_name <$>
             filter (fun svc => decision svc = BLOCK_DEPLOYMENT) services));
         timestamp_utc := now |}.
Proof.
  intros Hsum.
  assert (Hne : services <> []).
  { intros ->. cbn in Hsum. discriminate. }
  split; [exact Hne|].
  destruct (py_max_by_first_max risk_score services Hne) as (i & m & Hmax & Hfirst).
  exists i, m. split; [exact Hfirst|].
  unfold _summarise_services in Hsum. rewrite Hmax in Hsum. cbn in Hsum.
  apply SimulationSummary_init_Ok in Hsum. rewrite Hsum.
  destruct services; [congruence|reflexivity].
Qed.

Lemma classify_block_iff (score : Q) :
  _classify_risk score = BLOCK_DEPLOYMENT <-> (70 <= score)%Q.
Proof.
  unfold _classify_risk.
  destruct (Qltb score 40) eqn:E40; destruct (Qltb score 70) eqn:E70;
    try apply Qltb_lt in E40; try apply Qltb_ge in E40;
    try apply Qltb_lt in E70; try apply Qltb_ge in E70;
    split; try discriminate; try tauto; intros; exfalso; lra.
Qed.

Lemma foldl_Qplus_upper (xs : list Q) (a bound : Q) :
  Forall (fun x => (x <= bound)%Q) xs ->
  (foldl Qplus a xs <= a + bound * inject_Z (Z.of_nat (length xs)))%Q.
Proof.
  revert a. induction xs as [|x xs IH]; intros a Hall.
  - cbn [foldl length]. change (inject_Z (Z.of_nat 0)) with 0%Q. lra.
  - apply Forall_cons in Hall as [Hx Hall].
    specialize (IH (a + x)%Q Hall).
    cbn [foldl length]. rewrite inject_Z_of_nat_S. lra.
Qed.

(** The mean of a non-empty list is at most any bound of its elements. *)
Lemma np_mean_upper (xs : list Q) (bound : Q) :
  xs <> [] -> Forall (fun x => (x <= bound)%Q) xs -> (np_mean xs <= bound)%Q.
Proof.
  intros Hne Hall. unfold np_mean, Qsum.
  pose proof (foldl_Qplus_upper xs 0 bound Hall) as Hup.
  assert (Hn : (0 < inject_Z (Z.of_nat (length xs)))%Q).
  { destruct xs; [congruence|]. cbn [length]. rewrite inject_Z_of_nat_S.
    assert (0 <= inject_Z (Z.of_nat (length xs)))%Q
      by (unfold Qle, inject_Z; cbn; lia).
    lra. }
  apply Qle_shift_div_r; [exact Hn|lra].
Qed.

(** Rounding a number below a two-decimal bound stays below the bound. *)
Lemma py_round2_le_fixed (x bound : Q) :
  (x <= bound)%Q -> py_round2 bound = bound -> (py_round2 x <= bound)%Q.
Proof.
  intros Hle Hfixed. unfold py_round2 in Hfixed.
  set (z := round_half_even (bound * 100)) in *.
  assert (Hb : (bound == inject_Z z * 0.01)%Q) by (rewrite <- Hfixed at 1; apply hundredths).
  pose proof (round_half_even_lower (x * 100)) as Hlow.
  unfold py_round2. set (a := round_half_even (x * 100)) in *.
  assert (Haz : (inject_Z a <= inject_Z z + 0.5)%Q) by lra.
  assert (Hz : a <= z).
  { unfold Qle, Qplus, inject_Z in Haz. cbn in Haz. lia. }
  rewrite <- Hfixed. unfold Qle. cbn. lia.
Qed.

(** In every run the summary agrees with the records: the highest-risk
    service is one of them, the average does not exceed the highest score,
    the blocked list names exactly the services scoring 70 or more, so it is
    non-empty exactly when the highest score is at least 70, and the blocked
    count is at most the number of services. *)
Theorem run_summary_consistent
        {G : Type} `{Generator G} `{Betweenness}
        (settings : Settings) (env : Env G) (history : list HistoricalRecord)
        (seed : option Z) (result : SimulationResult) :
  run_simulation settings env history seed = Ok result ->
  highest_risk_service (result_summary result)
    ∈ (service_name <$> result_services result) /\
  (average_risk (result_summary result)
   <= highest_risk_score (result_summary result))%Q /\
  (forall name,
      name ∈ blocked_services (result_summary result) <->
      exists m, m ∈ result_services result /\ service_name m = name /\
                (70 <= risk_score m)%Q) /\
  (blocked_services (result_summary result) <> [] <->
   (70 <= highest_risk_score (result_summary result))%Q) /\
  0 <= blocked_count (result_summary result)
    <= Z.of_nat (length (result_services result)).
Proof.
  intros Hrun.
  pose proof (fun m => run_record_facts _ _ _ _ _ m Hrun) as Hvalid.
  apply run_simulation_Ok in Hrun
    as (rng & graph & rng' & summary & _ & _ & _ & Hsum & Hres & _).
  rewrite Hres. clear Hres.
  apply summarise_services_inv in Hsum as (Hne & i & m & Hfirst & ->). cbn.
  destruct Hfirst as (Hat & Hall & _).
  assert (Hm : m ∈ result_services result) by (by apply list_elem_of_lookup_2 in Hat).
  assert (Hblocked : forall name,
             name ∈ service_name <$>
                      filter (fun svc => decision svc = BLOCK_DEPLOYMENT)
                             (result_services result) <->
             exists m', m' ∈ result_services result /\ service_name m' = name /\
                        (70 <= risk_score m')%Q).
  { intros name. rewrite list_elem_of_fmap. split.
    - intros (m' & -> & Hm'). apply list_elem_of_filter in Hm' as [Hblock Hin].
      exists m'. split; [exact Hin|]. split; [reflexivity|].
      destruct (Hvalid m' Hin) as (_ & Hdec & _).
      apply classify_block_iff. congruence.
    - intros (m' & Hin & <- & H70). exists m'. split; [reflexivity|].
      apply list_elem_of_filter. split; [|exact Hin].
      destruct (Hvalid m' Hin) as (_ & Hdec & _).
      rewrite Hdec. by apply classify_block_iff. }
  split; [apply list_elem_of_fmap; eauto|].
  split.
  { apply py_round2_le_fixed.
    - apply np_mean_upper; [by destruct (result_services result)|].
      apply Forall_fmap, Forall_forall. intros m' Hm'. by apply Hall.
    - destruct (Hvalid m Hm) as (_ & _ & Hfields).
      rewrite !Forall_cons in Hfields. tauto. }
  split; [exact Hblocked|].
  split.
  - split.
    + intros Hnonempty.
      assert (Hsome : exists name,
                 name ∈ service_name <$>
                          filter (fun svc => decision svc = BLOCK_DEPLOYMENT)
                                 (result_services result)).
      { destruct (service_name <$> filter _ (result_services result))
          as [|name rest]; [congruence|]. exists name. left. }
      destruct Hsome as [name Hname].
      apply Hblocked in Hname as (m' & Hin & _ & H70).
      specialize (Hall m' Hin). lra.
    + intros H70 Hnil.
      assert (Hname : service_name m ∈ service_name <$>
                filter (fun svc => decision svc = BLOCK_DEPLOYMENT)
                       (result_services result))
        by (apply Hblocked; eauto).
      rewrite Hnil in Hname. by apply elem_of_nil in Hname.
  - rewrite length_fmap.
    pose proof (length_filter (fun svc => decision svc = BLOCK_DEPLOYMENT)
                  (result_services result)). lia.
Qed.

Lemma run_summary_consistent_witness :
  highest_risk_service (result_summary Scripted.sample_result)
    ∈ (service_name <$> result_services Scripted.sample_result) /\
  (average_risk (result_summary Scripted.sample_result)
   <= highest_risk_score (result_summary Scripted.sample_result))%Q /\
  (forall name,
      name ∈ blocked_services (result_summary Scripted.sample_result) <->
      exists m, m ∈ result_services Scripted.sample_result /\
                service_name m = name /\ (70 <= risk_score m)%Q) /\
  (blocked_services (result_summary Scripted.sample_result) <> [] <->
   (70 <= highest_risk_score (result_summary Scripted.sample_result))%Q) /\
  0 <= blocked_count (result_summary Scripted.sample_result)
    <= Z.of_nat (length (result_services Scripted.sample_result)).
Proof.
  apply (@run_summary_consistent _ Scripted.generator Scripted.no_interior
           Scripted.two_services (Scripted.env 0 Scripted.tape) [] None
           Scripted.sample_result).
  vm_compute. reflexivity.
Defined.

(** On validated records [_summarise_services] fails exactly on the empty
    list, with the [ValueError] of [max]; on any other list it returns. *)
Theorem summarise_services_fails_on_empty_only (now : Z)
        (services : list ServiceMetrics) :
  Forall (fun m => ServiceMetrics_init m = Ok m) services ->
  (services = [] <-> _summarise_services now services = Raise ValueError) /\
  (services <> [] <-> exists summary, _summarise_services now services = Ok summary).
Proof.
  intros Hvalid. destruct services as [|m ms].
  - split; split; try congruence; try reflexivity.
    intros [summary Hsum]. cbn in Hsum. discriminate.
  - destruct (summarise_services_Ok now (m :: ms) ltac:(discriminate) Hvalid)
      as (i & best & _ & Hsum).
    rewrite Hsum. split; split; try discriminate; eauto.
Qed.

Lemma summarise_services_fails_on_empty_only_witness :
  ([Scripted.service_a; Scripted.service_b] = [] <->
   _summarise_services 0 [Scripted.service_a; Scripted.service_b] = Raise ValueError) /\
  ([Scripted.service_a; Scripted.service_b] <> [] <->
   exists summary,
     _summarise_services 0 [Scripted.service_a; Scripted.service_b] = Ok summary).
Proof.
  apply (summarise_services_fails_on_empty_only 0
           [Scripted.service_a; Scripted.service_b]).
  constructor; [vm_compute; reflexivity|].
  constructor; [vm_compute; reflexivity|]. constructor.
Defined.

(* ===================================================================== *)
(** * Further properties: the ledger around a run                         *)
(* ===================================================================== *)

Lemma summarise_services_valid (now : Z) (services : list ServiceMetrics)
      (summary : SimulationSummary) :
  _summarise_services now services = Ok summary ->
  SimulationSummary_init summary = Ok summary.
Proof.
  intros Hsum. unfold _summarise_services in Hsum.
  apply bind_Ok in Hsum as (highest & _ & Hinit).
  pose proof (SimulationSummary_init_Ok _ _ Hinit) as Heq.
  by rewrite <- Heq in Hinit.
Qed.

Lemma find_service_metric_elem (result : SimulationResult) (name : string)
      (m : ServiceMetrics) :
  _find_service_metric result name = Ok m ->
  m ∈ result_services result /\
  (name ∈ (service_name <$> result_services result) -> service_name m = name).
Proof.
  unfold _find_service_metric.
  destruct (List.find _ (result_services result)) as [found|] eqn:Hfind.
  - intros Hm. injection Hm as <-.
    apply find_first in Hfind as (i & Hi & Hname & _).
    apply bool_decide_eq_true in Hname.
    split; [by apply list_elem_of_lookup_2 in Hi|by intros _].
  - intros Hmax. pose proof (find_absent _ _ Hfind) as Habsent. split.
    + destruct (result_services result) as [|x rest] eqn:Hs; [discriminate|].
      destruct (py_max_by_first_max risk_score (x :: rest) ltac:(discriminate))
        as (i & best & Hbest & Hat & _).
      rewrite Hbest in Hmax. injection Hmax as <-.
      by apply list_elem_of_lookup_2 in Hat.
    + intros Hpresent. exfalso.
      apply list_elem_of_fmap in Hpresent as (m' & -> & Hm').
      specialize (Habsent m' Hm'). by apply bool_decide_eq_false in Habsent.
Qed.

Lemma find_service_metric_total (result : SimulationResult) (name : string) :
  result_services result <> [] ->
  exists m, _find_service_metric result name = Ok m.
Proof.
  intros Hne. unfold _find_service_metric.
  destruct (List.find _ (result_services result)) as [found|]; [eauto|].
  destruct (py_max_by_first_max risk_score _ Hne) as (i & m & Hmax & _). eauto.
Qed.

Section AroundARun.
Context {G : Type} `{Generator G} `{Betweenness}.
Variable settings : Settings.

Lemma execute_simulation_inv (env : Env G) (storage storage' : SimulationStorage)
      (seed : option Z) (result : SimulationResult) :
  _execute_simulation settings env storage seed = Ok (result, storage') ->
  run_simulation settings env (snapshot storage) seed = Ok result /\
  storage' = record settings (build_history_entry result) (Some result) storage.
Proof.
  unfold _execute_simulation. intros Hexec.
  apply bind_Ok in Hexec as (r & Hrun & Hexec). injection Hexec as <- <-. auto.
Qed.

End AroundARun.

(** After an executed simulation the ledger ends with that run, stays
    within its capacity, remembers the run as the latest result, and the
    blocked set the next run will read is exactly the blocked list of this
    run's summary. *)
Theorem execute_simulation_feeds_next_run
        {G : Type} `{Generator G} `{Betweenness}
        (settings : Settings) (env : Env G) (storage storage' : SimulationStorage)
        (seed : option Z) (result : SimulationResult) :
  1 <= history_limit settings <= 20 ->
  _execute_simulation settings env storage seed = Ok (result, storage') ->
  _latest_result storage' = Some result /\
  last (snapshot storage') = Some (build_history_entry result) /\
  (length (snapshot storage') <= Z.to_nat (history_limit settings))%nat /\
  forall name,
    name ∈ _collect_blocked_services (snapshot storage') <->
    name ∈ blocked_services (result_summary result).
Proof.
  intros Hlimit Hexec.
  apply execute_simulation_inv in Hexec as [Hrun ->].
  split; [reflexivity|].
  unfold snapshot. rewrite record_history by exact Hlimit.
  assert (Hlast : last (keep_last (Z.to_nat (history_limit settings))
                                  (_history storage ++ [build_history_entry result]))
                  = Some (build_history_entry result)).
  { unfold keep_last. rewrite drop_app_le by (rewrite length_app; cbn; lia).
    apply last_snoc. }
  split; [exact Hlast|]. split; [apply length_keep_last|].
  intros name. unfold _collect_blocked_services. rewrite Hlast. cbn.
  apply run_simulation_Ok in Hrun
    as (rng & graph & rng' & summary & _ & _ & _ & Hsum & Hres & _).
  apply summarise_services_inv in Hsum as (_ & i & m & _ & Hsummary).
  rewrite Hres, Hsummary. cbn. by rewrite elem_of_list_to_set.
Qed.

Lemma execute_simulation_feeds_next_run_witness :
  exists storage',
    @_execute_simulation _ Scripted.generator Scripted.no_interior
      Scripted.two_services (Scripted.env 0 Scripted.tape) storage_init None
    = Ok (Scripted.sample_result, storage') /\
    _latest_result storage' = Some Scripted.sample_result /\
    last (snapshot storage') = Some (build_history_entry Scripted.sample_result) /\
    (length (snapshot storage')
     <= Z.to_nat (history_limit Scripted.two_services))%nat /\
    forall name,
      name ∈ _collect_blocked_services (snapshot storage') <->
      name ∈ blocked_services (result_summary Scripted.sample_result).
Proof.
  eexists. split; [vm_compute; reflexivity|].
  eapply (@execute_simulation_feeds_next_run _ Scripted.generator Scripted.no_interior
            Scripted.two_services (Scripted.env 0 Scripted.tape) storage_init _
            None Scripted.sample_result).
  - cbn. lia.
  - vm_compute. reflexivity.
Defined.

(** With a source that draws as numpy documents, a usable seed and two
    distinct configured services, [simulate] never fails: it returns a
    result with at least one record and stores it as the latest result. *)
Theorem simulate_returns
        {G : Type} `{GeneratorLaws G} `{Betweenness}
        (settings : Settings) (env : Env G) (storage : SimulationStorage)
        (seed : option Z) :
  (forall s, seed = Some s -> 0 <= s) ->
  (exists a b, a ∈ service_names settings /\ b ∈ service_names settings /\ a <> b) ->
  exists result storage',
    simulate settings env storage seed = Ok (result, storage') /\
    result_services result <> [] /\
    get_services storage' = Served result.
Proof.
  intros Hseed Hdistinct.
  destruct (run_simulation_returns settings env (snapshot storage) seed Hseed Hdistinct)
    as (result & Hrun & Hne & _).
  exists result, (record settings (build_history_entry result) (Some result) storage).
  unfold simulate, _execute_simulation. rewrite Hrun. cbn.
  split; [reflexivity|]. split; [exact Hne|reflexivity].
Qed.

Lemma simulate_returns_witness :
  exists result storage',
    @simulate _ Scripted.generator Scripted.no_interior
      default_settings (Scripted.env 0 Scripted.tape) storage_init (Some 123)
    = Ok (result, storage') /\
    result_services result <> [] /\
    get_services storage' = Served result.
Proof.
  apply (@simulate_returns _ Scripted.generator scripted_laws Scripted.no_interior
           default_settings (Scripted.env 0 Scripted.tape) storage_init (Some 123)).
  - intros s Hs. injection Hs as <-. lia.
  - exists "auth-service"%string, "payment-service"%string.
    split; [left|]. split; [right; left|]. discriminate.
Defined.

(* ===================================================================== *)
(** * Further properties: queries and hooks                               *)
(* ===================================================================== *)

(** Once a simulation has been executed, the summary query serves the four
    figures of that run's summary and the services query serves the run. *)
Theorem queries_after_run
        {G : Type} `{Generator G} `{Betweenness}
        (settings : Settings) (env : Env G) (storage storage' : SimulationStorage)
        (seed : option Z) (result : SimulationResult) :
  _execute_simulation settings env storage seed = Ok (result, storage') ->
  get_services storage' = Served result /\
  get_summary storage'
  = Served {| summary_average_risk := average_risk (result_summary result);
              summary_highest_risk_service :=
                highest_risk_service (result_summary result);
              summary_highest_risk_score :=
                highest_risk_score (result_summary result);
              summary_blocked_count := blocked_count (result_summary result) |}.
Proof.
  intros Hexec. apply execute_simulation_inv in Hexec as [Hrun ->].
  split; [reflexivity|].
  apply run_simulation_Ok in Hrun
    as (rng & graph & rng' & summary & _ & _ & _ & Hsum & Hres & _).
  apply summarise_services_valid in Hsum. rewrite <- Hres in Hsum.
  unfold get_summary, record. cbn.
  unfold SimulationSummary_init in Hsum. unfold SummaryResponse_init. cbn.
  destruct (_ && _) in Hsum |- *; [reflexivity|discriminate].
Qed.

Lemma queries_after_run_witness :
  exists storage',
    @_execute_simulation _ Scripted.generator Scripted.no_interior
      Scripted.two_services (Scripted.env 0 Scripted.tape) storage_init None
    = Ok (Scripted.sample_result, storage') /\
    get_services storage' = Served Scripted.sample_result /\
    get_summary storage'
    = Served {| summary_average_risk := 16.00;
                summary_highest_risk_service := "a";
                summary_highest_risk_score := 16.00;
                summary_blocked_count := 0 |}.
Proof.
  eexists. split; [vm_compute; reflexivity|].
  eapply (@queries_after_run _ Scripted.generator Scripted.no_interior
            Scripted.two_services (Scripted.env 0 Scripted.tape) storage_init _
            None Scripted.sample_result).
  vm_compute. reflexivity.
Defined.

Lemma keep_latest_some (calls : list (HistoricalRecord * option SimulationResult))
      (r : SimulationResult) :
  is_Some (foldl (fun latest call => match call.2 with
                                     | Some r' => Some r'
                                     | None => latest
                                     end) (Some r) calls).
Proof.
  revert r. induction calls as [|[entry [r'|]] calls IH]; intros r; cbn; eauto.
Qed.

Lemma keep_latest_from (calls : list (HistoricalRecord * option SimulationResult))
      (acc : option SimulationResult) :
  foldl (fun latest call => match call.2 with
                            | Some r => Some r
                            | None => latest
                            end) acc calls
  = match foldl (fun latest call => match call.2 with
                                    | Some r => Some r
                                    | None => latest
                                    end) None calls with
    | Some r => Some r
    | None => acc
    end.
Proof.
  revert acc. induction calls as [|[entry [r|]] calls IH]; intros acc; cbn.
  - reflexivity.
  - destruct (keep_latest_some calls r) as [r' Hr']. by rewrite Hr'.
  - apply IH.
Qed.

Lemma record_all_latest (settings : Settings)
      (calls : list (HistoricalRecord * option SimulationResult))
      (self : SimulationStorage) :
  _latest_result (record_all settings calls self)
  = foldl (fun latest call => match call.2 with
                              | Some r => Some r
                              | None => latest
                              end) (_latest_result self) calls.
Proof.
  unfold record_all. revert self.
  induction calls as [|[entry result] calls IH]; intros self; cbn; [reflexivity|].
  rewrite IH. reflexivity.
Qed.

(** The latest result is outside the history cap: after any sequence of
    [record] calls it is the result of the last call that carried one, or
    the earlier one when none did.  Both queries report "no data" with
    status 404 exactly when no result is stored, as after [clear]. *)
Theorem latest_result_and_no_data (settings : Settings)
        (calls : list (HistoricalRecord * option SimulationResult))
        (self : SimulationStorage) :
  _latest_result (record_all settings calls self)
  = match last_result calls with
    | Some r => Some r
    | None => _latest_result self
    end /\
  (_latest_result self = None <->
   get_summary self = HTTPException 404 "Simulation not run yet.") /\
  (_latest_result self = None <->
   get_services self = HTTPException 404 "No simulation results available yet.") /\
  get_summary (clear self) = HTTPException 404 "Simulation not run yet." /\
  get_services (clear self)
  = HTTPException 404 "No simulation results available yet." /\
  snapshot (clear self) = [].
Proof.
  split; [|split; [|split; [|repeat split]]].
  - rewrite record_all_latest. unfold last_result. apply keep_latest_from.
  - unfold get_summary. destruct (_latest_result self) as [latest|].
    + split; [discriminate|]. cbn. destruct (SummaryResponse_init _); discriminate.
    + split; reflexivity.
  - unfold get_services. destruct (_latest_result self) as [latest|].
    + split; discriminate.
    + split; reflexivity.
Qed.

(** [simulate_with_history] returns the run together with the ledger as it
    stands after recording that run: the history is never empty, its last
    record is the run just returned, and it holds at most [history_limit]
    records. *)
Theorem simulate_with_history_reports_run
        {G : Type} `{Generator G} `{Betweenness}
        (settings : Settings) (env : Env G) (storage storage' : SimulationStorage)
        (seed : option Z) (response : HistoricalSimulationResult) :
  1 <= history_limit settings <= 20 ->
  simulate_with_history settings env storage seed = Ok (response, storage') ->
  hist_history response = snapshot storage' /\
  last (hist_history response)
  = Some {| record_summary := hist_summary response;
            record_services := hist_services response |} /\
  (1 <= length (hist_history response) <= Z.to_nat (history_limit settings))%nat /\
  (exists evicted,
      snapshot storage ++ [{| record_summary := hist_summary response;
                              record_services := hist_services response |}]
      = evicted ++ hist_history response).
Proof.
  intros Hlimit Hsim. unfold simulate_with_history in Hsim.
  apply bind_Ok in Hsim as ([result st] & Hexec & Hsim).
  injection Hsim as <- <-. cbn.
  apply execute_simulation_inv in Hexec as [_ ->].
  unfold storage_history, snapshot. rewrite record_history by exact Hlimit.
  fold (build_history_entry result).
  assert (Hlast : last (keep_last (Z.to_nat (history_limit settings))
                                  (_history storage ++ [build_history_entry result]))
                  = Some (build_history_entry result)).
  { unfold keep_last. rewrite drop_app_le by (rewrite length_app; cbn; lia).
    apply last_snoc. }
  split; [reflexivity|]. split; [exact Hlast|]. split.
  - split; [|apply length_keep_last].
    destruct (keep_last _ _); [discriminate|cbn; lia].
  - unfold keep_last.
    exists (take (length (_history storage ++ [build_history_entry result])
                  - Z.to_nat (history_limit settings))
                 (_history storage ++ [build_history_entry result])).
    by rewrite take_drop.
Qed.

Lemma simulate_with_history_reports_run_witness :
  exists response storage',
    @simulate_with_history _ Scripted.generator Scripted.no_interior
      Scripted.two_services (Scripted.env 0 Scripted.tape) storage_init None
    = Ok (response, storage') /\
    hist_history response = snapshot storage' /\
    last (hist_history response)
    = Some {| record_summary := hist_summary response;
              record_services := hist_services response |} /\
    (1 <= length (hist_history response)
     <= Z.to_nat (history_limit Scripted.two_services))%nat /\
    (exists evicted,
        snapshot storage_init
          ++ [{| record_summary := hist_summary response;
                 record_services := hist_services response |}]
        = evicted ++ hist_history response).
Proof.
  eexists. eexists. split; [vm_compute; reflexivity|].
  eapply (@simulate_with_history_reports_run _ Scripted.generator Scripted.no_interior
            Scripted.two_services (Scripted.env 0 Scripted.tape) storage_init _ None).
  - cbn. lia.
  - vm_compute. reflexivity.
Defined.

Lemma hook_response_inv (m : ServiceMetrics) (response : CICDHookResponse) :
  hook_response m = Ok response ->
  response_risk_score response = risk_score m /\
  response_decision response = decision m /\
  (0 <= risk_score m)%Q /\ (risk_score m <= 100)%Q.
Proof.
  unfold hook_response, CICDHookResponse_init. cbn.
  destruct (ge0_le100 (risk_score m)) eqn:E; [|discriminate].
  intros Hr. injection Hr as <-. cbn. apply ge0_le100_spec in E. tauto.
Qed.

(** Whatever the hook answers, it has executed and recorded a fresh run,
    the score and decision it reports are those of one service of that run
    (the requested one when the run has it), the score is a percentage, and
    the decision is the classification of the score. *)
Theorem cicd_hook_response_consistent
        {G : Type} `{Generator G} `{Betweenness}
        (settings : Settings) (env : Env G) (payload : CICDHookRequest)
        (storage storage' : SimulationStorage) (response : CICDHookResponse) :
  cicd_hook settings env payload storage = Ok (response, storage') ->
  exists result m,
    _execute_simulation settings env storage None = Ok (result, storage') /\
    m ∈ result_services result /\
    (request_service_name payload ∈ (service_name <$> result_services result) ->
     service_name m = request_service_name payload) /\
    response_risk_score response = risk_score m /\
    response_decision response = decision m /\
    response_decision response = _classify_risk (response_risk_score response) /\
    (0 <= response_risk_score response)%Q /\
    (response_risk_score response <= 100)%Q.
Proof.
  unfold cicd_hook. intros Hhook.
  apply bind_Ok in Hhook as ([result st] & Hexec & Hhook).
  apply bind_Ok in Hhook as (m & Hfind & Hhook).
  apply bind_Ok in Hhook as (r & Hresp & Hhook).
  injection Hhook as <- <-.
  exists result, m. split; [exact Hexec|].
  apply find_service_metric_elem in Hfind as [Hin Hname].
  apply hook_response_inv in Hresp as (Hrisk & Hdec & Hlo & Hhi).
  pose proof Hexec as Hrun. apply execute_simulation_inv in Hrun as [Hrun _].
  destruct (run_record_facts _ _ _ _ _ _ Hrun Hin) as (_ & Hclass & _).
  rewrite Hrisk, Hdec. repeat split; assumption.
Qed.

Lemma cicd_hook_response_consistent_witness :
  exists response storage',
    @cicd_hook _ Scripted.generator Scripted.no_interior Scripted.two_services
      (Scripted.env 0 Scripted.tape) (Scripted.request "b") storage_init
    = Ok (response, storage') /\
    exists result m,
      @_execute_simulation _ Scripted.generator Scripted.no_interior
        Scripted.two_services (Scripted.env 0 Scripted.tape) storage_init None
      = Ok (result, storage') /\
      m ∈ result_services result /\
      (request_service_name (Scripted.request "b")
         ∈ (service_name <$> result_services result) ->
       service_name m = request_service_name (Scripted.request "b")) /\
      response_risk_score response = risk_score m /\
      response_decision response = decision m /\
      response_decision response = _classify_risk (response_risk_score response) /\
      (0 <= response_risk_score response)%Q /\
      (response_risk_score response <= 100)%Q.
Proof.
  eexists. eexists. split; [vm_compute; reflexivity|].
  eapply (@cicd_hook_response_consistent _ Scripted.generator Scripted.no_interior
            Scripted.two_services (Scripted.env 0 Scripted.tape)
            (Scripted.request "b") storage_init).
  vm_compute. reflexivity.
Defined.

(** With a source that draws as numpy documents and two distinct
    configured services the hook always answers, whatever service is
    requested and whatever the ledger holds. *)
Theorem cicd_hook_returns
        {G : Type} `{GeneratorLaws G} `{Betweenness}
        (settings : Settings) (env : Env G) (payload : CICDHookRequest)
        (storage : SimulationStorage) :
  (exists a b, a ∈ service_names settings /\ b ∈ service_names settings /\ a <> b) ->
  exists response storage',
    cicd_hook settings env payload storage = Ok (response, storage').
Proof.
  intros Hdistinct.
  destruct (run_simulation_returns settings env (snapshot storage) None
              ltac:(discriminate) Hdistinct) as (result & Hrun & Hne & Hvalid).
  destruct (find_service_metric_total result (request_service_name payload) Hne)
    as [m Hfind].
  pose proof (find_service_metric_elem _ _ _ Hfind) as [Hin _].
  rewrite Forall_forall in Hvalid.
  pose proof (ServiceMetrics_init_hook m (Hvalid m Hin)) as Hresp.
  unfold cicd_hook, _execute_simulation. rewrite Hrun. cbn.
  rewrite Hfind. cbn. rewrite Hresp. cbn. eauto.
Qed.

Lemma cicd_hook_returns_witness :
  exists response storage',
    @cicd_hook _ Scripted.generator Scripted.no_interior default_settings
      (Scripted.env 0 Scripted.tape) (Scripted.request "unknown-service")
      storage_init
    = Ok (response, storage').
Proof.
  apply (@cicd_hook_returns _ Scripted.generator scripted_laws Scripted.no_interior
           default_settings (Scripted.env 0 Scripted.tape)
           (Scripted.request "unknown-service") storage_init).
  exists "auth-service"%string, "payment-service"%string.
  split; [left|]. split; [right; left|]. discriminate.
Defined.

(** [Settings] can be constructed exactly when [history_limit] is between
    1 and 20, and is then unchanged; a ledger under constructed settings
    never holds more than 20 records and is never emptied by [record]. *)
Theorem constructed_settings_bound_ledger (s s' : Settings)
        (calls : list (HistoricalRecord * option SimulationResult))
        (self : SimulationStorage) :
  Settings_init s = Ok s' ->
  s' = s /\
  1 <= history_limit s <= 20 /\
  (calls <> [] ->
   (1 <= length (_history (record_all s' calls self)) <= 20)%nat) /\
  (length (_history (record_all s' calls storage_init)) <= 20)%nat.
Proof.
  unfold Settings_init, _validate_history_limit. intros Hinit.
  destruct (history_limit s <? 1) eqn:E1; [discriminate|].
  destruct (20 <? history_limit s) eqn:E2; [discriminate|].
  injection Hinit as <-.
  assert (Hlimit : 1 <= history_limit s <= 20) by lia.
  split; [by destruct s|]. split; [exact Hlimit|].
  replace {| service_names := service_names s;
             dependency_candidates := dependency_candidates s;
             history_limit := history_limit s |} with s by (by destruct s).
  split.
  - intros Hne. destruct calls as [|call calls]; [congruence|].
    rewrite record_all_history by exact Hlimit.
    pose proof (length_keep_last (Z.to_nat (history_limit s))
                  (_history self ++ (call :: calls).*1)) as Hlen.
    split; [|lia].
    unfold keep_last. rewrite length_drop, length_app. cbn. lia.
  - destruct calls as [|call calls]; [cbn; lia|].
    rewrite record_all_history by exact Hlimit.
    pose proof (length_keep_last (Z.to_nat (history_limit s))
                  (_history storage_init ++ (call :: calls).*1)). lia.
Qed.

Lemma constructed_settings_bound_ledger_witness :
  default_settings = default_settings /\
  1 <= history_limit default_settings <= 20 /\
  (Scripted.six_calls <> [] ->
   (1 <= length (_history (record_all default_settings Scripted.six_calls
                             storage_init)) <= 20)%nat) /\
  (length (_history (record_all default_settings Scripted.six_calls storage_init))
   <= 20)%nat.
Proof.
  apply (constructed_settings_bound_ledger default_settings default_settings
           Scripted.six_calls storage_init).
  reflexivity.
Defined.

(** [Settings] construction fails, with a validation error, exactly for a
    [history_limit] outside 1..20. *)
Theorem settings_rejected_out_of_range (s : Settings) :
  Settings_init s = Raise ValidationError <->
  history_limit s < 1 \/ 20 < history_limit s.
Proof.
  unfold Settings_init, _validate_history_limit.
  destruct (history_limit s <? 1) eqn:E1; [split; [lia|reflexivity]|].
  destruct (20 <? history_limit s) eqn:E2; [split; [lia|reflexivity]|].
  split; [discriminate|lia].
Qed.

(* ===================================================================== *)
(** * Further properties: configurations that cannot run                  *)
(* ===================================================================== *)

(** With no configured service the run fails in the summary ([max] of an
    empty list); with a single configured service that has no candidate
    dependencies it fails in the repair pass (no other service to draw).
    Either way [run_simulation] raises [ValueError], for every seed and
    history. *)
Theorem run_simulation_needs_two_services
        {G : Type} `{Generator G} `{Betweenness}
        (settings : Settings) (env : Env G) (history : list HistoricalRecord)
        (seed : option Z) :
  service_names settings = [] \/
  (exists a, service_names settings = [a] /\
             default [] (dependency_candidates settings !! a) = []) ->
  run_simulation settings env history seed = Raise ValueError.
Proof.
  intros Hconfig. unfold run_simulation.
  destruct (default_rng seed (entropy env)) as [rng|e] eqn:Hrng.
  2:{ destruct seed as [s|]; cbn in Hrng; [|discriminate].
      destruct (s <? 0); [|discriminate]. by injection Hrng as <-. }
  cbn. destruct Hconfig as [Hnames|(a & Hnames & Hcand)].
  - unfold _generate_dependency_graph. rewrite Hnames. reflexivity.
  - assert (Hgen : _generate_dependency_graph settings rng = Raise ValueError).
    { assert (Hnode : add_node a [] = [(a, [])]).
      { unfold add_node. destruct (decide (a ∈ nodes [])) as [Hin|_]; [|reflexivity].
        by apply elem_of_nil in Hin. }
      assert (Hnone : filter (fun n => n <> a) [a] = []).
      { rewrite filter_cons, filter_nil.
        destruct (decide (a <> a)); [congruence|reflexivity]. }
      unfold _generate_dependency_graph. rewrite Hnames. cbn.
      rewrite Hcand. cbn. rewrite Hnode.
      change (isolates [(a, [])]) with [a]. cbn.
      unfold repair_node. rewrite Hnames, Hnone. reflexivity. }
    by rewrite Hgen.
Qed.

Lemma run_simulation_needs_two_services_witness :
  @run_simulation _ Scripted.generator Scripted.no_interior
    {| service_names := ["solo"]%string;
       dependency_candidates := ∅;
       history_limit := 5 |}
    (Scripted.env 0 Scripted.tape) [] (Some 123)
  = Raise ValueError.
Proof.
  apply (@run_simulation_needs_two_services _ Scripted.generator Scripted.no_interior).
  right. exists "solo"%string. split; reflexivity.
Defined.

(* ===================================================================== *)
(** * Further properties: chart helpers                                   *)
(* ===================================================================== *)

Lemma py_min_of_spec (rest : list Q) (first : Q) :
  py_min_of first rest ∈ first :: rest /\
  forall x, x ∈ first :: rest -> (py_min_of first rest <= x)%Q.
Proof.
  revert first. induction rest as [|v rest IH]; intros first.
  - cbn. split; [left|]. intros x Hx. apply list_elem_of_singleton in Hx. subst x. lra.
  - change (py_min_of first (v :: rest))
      with (py_min_of (if Qltb v first then v else first) rest).
    destruct (IH (if Qltb v first then v else first)) as [Hin Hle].
    assert (Hhead : ((if Qltb v first then v else first) <= first)%Q /\
                    ((if Qltb v first then v else first) <= v)%Q /\
                    (if Qltb v first then v else first) ∈ first :: v :: rest).
    { destruct (Qltb v first) eqn:E.
      - apply Qltb_lt in E. repeat split; try lra. right. left.
      - apply Qltb_ge in E. repeat split; try lra. left. }
    destruct Hhead as (Hf & Hv & Hmem).
    assert (Hmin : (py_min_of (if Qltb v first then v else first) rest
                    <= (if Qltb v first then v else first))%Q) by (apply Hle; left).
    split.
    + apply elem_of_cons in Hin as [->|Hin]; [exact Hmem|]. right. by right.
    + intros x Hx. apply elem_of_cons in Hx as [->|Hx]; [lra|].
      apply elem_of_cons in Hx as [->|Hx]; [lra|]. apply Hle. by right.
Qed.

Lemma py_max_of_spec (rest : list Q) (first : Q) :
  py_max_of first rest ∈ first :: rest /\
  forall x, x ∈ first :: rest -> (x <= py_max_of first rest)%Q.
Proof.
  revert first. induction rest as [|v rest IH]; intros first.
  - cbn. split; [left|]. intros x Hx. apply list_elem_of_singleton in Hx. subst x. lra.
  - change (py_max_of first (v :: rest))
      with (py_max_of (if Qltb first v then v else first) rest).
    destruct (IH (if Qltb first v then v else first)) as [Hin Hle].
    assert (Hhead : (first <= (if Qltb first v then v else first))%Q /\
                    (v <= (if Qltb first v then v else first))%Q /\
                    (if Qltb first v then v else first) ∈ first :: v :: rest).
    { destruct (Qltb first v) eqn:E.
      - apply Qltb_lt in E. repeat split; try lra. right. left.
      - apply Qltb_ge in E. repeat split; try lra. left. }
    destruct Hhead as (Hf & Hv & Hmem).
    assert (Hmax : ((if Qltb first v then v else first)
                    <= py_max_of (if Qltb first v then v else first) rest)%Q)
      by (apply Hle; left).
    split.
    + apply elem_of_cons in Hin as [->|Hin]; [exact Hmem|]. right. by right.
    + intros x Hx. apply elem_of_cons in Hx as [->|Hx]; [lra|].
      apply elem_of_cons in Hx as [->|Hx]; [lra|]. apply Hle. by right.
Qed.

Lemma gradient_entry_range (v lo hi : Q) :
  (lo <= v)%Q -> (v <= hi)%Q -> (lo < hi)%Q ->
  (0 <= (v - lo) / (hi - lo))%Q /\ ((v - lo) / (hi - lo) <= 1)%Q.
Proof.
  intros Hlo Hhi Hlt. split.
  - apply Qle_shift_div_l; lra.
  - apply Qle_shift_div_r; lra.
Qed.

Lemma gradient_entry_monotone (v w lo hi : Q) :
  (v <= w)%Q -> (lo < hi)%Q ->
  ((v - lo) / (hi - lo) <= (w - lo) / (hi - lo))%Q.
Proof.
  intros Hvw Hlt. unfold Qdiv. apply Qmult_le_compat_r; [lra|].
  apply Qinv_le_0_compat. lra.
Qed.

(** [_get_colour_gradient] returns one colour per value, each between 0
    and 1, and never reverses the order of two values.  When all values
    are equal every colour is 0.5; when two of them differ, every
    occurrence of the smallest value is coloured 0, every occurrence of
    the largest is coloured 1, so that some colour is 0 and some is 1. *)
Theorem colour_gradient_normalised (values : list Q) :
  length (_get_colour_gradient values) = length values /\
  Forall (fun c => (0 <= c)%Q /\ (c <= 1)%Q) (_get_colour_gradient values) /\
  (forall i j vi vj ci cj,
      values !! i = Some vi -> values !! j = Some vj ->
      _get_colour_gradient values !! i = Some ci ->
      _get_colour_gradient values !! j = Some cj ->
      (vi <= vj)%Q -> (ci <= cj)%Q) /\
  ((forall x y, x ∈ values -> y ∈ values -> (x == y)%Q) ->
   _get_colour_gradient values = replicate (length values) 0.5%Q) /\
  ((exists x y, x ∈ values /\ y ∈ values /\ ~ (x == y)%Q) ->
   (forall i vi ci,
       values !! i = Some vi -> _get_colour_gradient values !! i = Some ci ->
       ((forall x, x ∈ values -> (vi <= x)%Q) -> (ci == 0)%Q) /\
       ((forall x, x ∈ values -> (x <= vi)%Q) -> (ci == 1)%Q)) /\
   Exists (fun c => (c == 0)%Q) (_get_colour_gradient values) /\
   Exists (fun c => (c == 1)%Q) (_get_colour_gradient values)).
Proof.
  destruct values as [|v vs].
  - cbn. split; [reflexivity|]. split; [constructor|].
    split; [intros i j vi vj ci cj Hi; by rewrite lookup_nil in Hi|].
    split; [reflexivity|].
    intros (x & _ & Hx & _). by apply elem_of_nil in Hx.
  - unfold _get_colour_gradient.
    destruct (py_min_of_spec vs v) as [Hmin_in Hmin].
    destruct (py_max_of_spec vs v) as [Hmax_in Hmax].
    set (lo := py_min_of v vs) in *. set (hi := py_max_of v vs) in *.
    destruct (Qeq_bool hi lo) eqn:Heq.
    + apply Qeq_bool_iff in Heq.
      split; [apply length_replicate|]. split; [|split; [|split]].
      * apply Forall_replicate. split; lra.
      * intros i j vi vj ci cj _ _ Hci Hcj _.
        apply lookup_replicate in Hci as [-> _].
        apply lookup_replicate in Hcj as [-> _]. lra.
      * reflexivity.
      * intros (x & y & Hx & Hy & Hxy). exfalso. apply Hxy.
        pose proof (Hmin x Hx). pose proof (Hmax x Hx).
        pose proof (Hmin y Hy). pose proof (Hmax y Hy). lra.
    + apply Qeq_bool_neq in Heq.
      assert (Hlt : (lo < hi)%Q).
      { specialize (Hmin hi Hmax_in). apply Qle_lteq in Hmin as [Hlt|Heq']; [exact Hlt|].
        exfalso. apply Heq. by symmetry. }
      split; [apply length_fmap|]. split; [|split; [|split]].
      * apply Forall_fmap, Forall_forall. intros x Hx. cbn.
        apply gradient_entry_range; [by apply Hmin|by apply Hmax|exact Hlt].
      * intros i j vi vj ci cj Hi Hj Hci Hcj Hle.
        rewrite list_lookup_fmap, Hi in Hci. rewrite list_lookup_fmap, Hj in Hcj.
        cbn in Hci, Hcj. injection Hci as <-. injection Hcj as <-.
        by apply gradient_entry_monotone.
      * intros Hall. exfalso. apply Heq. by apply Hall.
      * intros _. split; [|split].
        -- intros i vi ci Hi Hci. rewrite list_lookup_fmap, Hi in Hci.
           cbn in Hci. injection Hci as <-.
           pose proof (list_elem_of_lookup_2 _ _ _ Hi) as Hvi. split.
           ++ intros Hsmallest.
              assert (Hvlo : (vi == lo)%Q)
                by (pose proof (Hsmallest lo Hmin_in); pose proof (Hmin vi Hvi); lra).
              rewrite Hvlo. unfold Qdiv. ring.
           ++ intros Hlargest.
              assert (Hvhi : (vi == hi)%Q)
                by (pose proof (Hlargest hi Hmax_in); pose proof (Hmax vi Hvi); lra).
              rewrite Hvhi. apply Qmult_inv_r. lra.
        -- apply Exists_exists. exists ((lo - lo) / (hi - lo))%Q. split.
           ++ apply list_elem_of_fmap. exists lo. split; [reflexivity|exact Hmin_in].
           ++ unfold Qdiv. ring.
        -- apply Exists_exists. exists ((hi - lo) / (hi - lo))%Q. split.
           ++ apply list_elem_of_fmap. exists hi. split; [reflexivity|exact Hmax_in].
           ++ apply Qmult_inv_r. lra.
Qed.

Lemma insert_by_risk_perm (m : ServiceMetrics) (l : list ServiceMetrics) :
  insert_by_risk m l ≡ₚ m :: l.
Proof.
  induction l as [|x l IH]; cbn; [reflexivity|].
  destruct (Qltb _ _); [reflexivity|].
  rewrite IH. apply Permutation_swap.
Qed.

Lemma insert_by_risk_sorted (m : ServiceMetrics) (l : list ServiceMetrics) :
  StronglySorted risk_ge l -> StronglySorted risk_ge (insert_by_risk m l).
Proof.
  induction 1 as [|x rest Hsorted IH Hall]; cbn; [repeat constructor|].
  destruct (Qltb (risk_score x) (risk_score m)) eqn:E.
  - apply Qltb_lt in E. constructor; [by constructor|].
    constructor; [unfold risk_ge; lra|].
    eapply Forall_impl; [exact Hall|]. unfold risk_ge. intros y Hy. lra.
  - apply Qltb_ge in E. constructor; [exact IH|].
    rewrite insert_by_risk_perm. constructor; [exact E|exact Hall].
Qed.

Lemma filter_none {A : Type} (P : A -> Prop) `{forall x, Decision (P x)}
      (l : list A) :
  Forall (fun x => ~ P x) l -> filter P l = [].
Proof.
  induction 1 as [|x l Hx Hl IH]; [reflexivity|].
  rewrite filter_cons. destruct (decide (P x)); [contradiction|exact IH].
Qed.

(** Inserting into a sorted list puts the new record behind the records of
    the same score. *)
Lemma insert_by_risk_stable (score : Q) (m : ServiceMetrics)
      (l : list ServiceMetrics) :
  StronglySorted risk_ge l ->
  filter (fun x => Qeq_bool (risk_score x) score = true) (insert_by_risk m l)
  = filter (fun x => Qeq_bool (risk_score x) score = true) (l ++ [m]).
Proof.
  induction 1 as [|x rest Hsorted IH Hall]; [reflexivity|]. cbn [insert_by_risk].
  destruct (Qltb (risk_score x) (risk_score m)) eqn:E.
  - apply Qltb_lt in E.
    change ((x :: rest) ++ [m]) with (x :: rest ++ [m]).
    rewrite !filter_cons, filter_app, filter_cons, filter_nil.
    destruct (decide (Qeq_bool (risk_score m) score = true)) as [Hm|Hm];
      [|by rewrite app_nil_r].
    apply Qeq_bool_iff in Hm.
    destruct (decide (Qeq_bool (risk_score x) score = true)) as [Hx|_].
    { apply Qeq_bool_iff in Hx. lra. }
    rewrite (filter_none (fun y => Qeq_bool (risk_score y) score = true) rest).
    + reflexivity.
    + eapply Forall_impl; [exact Hall|]. unfold risk_ge. intros y Hy Hys.
      apply Qeq_bool_iff in Hys. lra.
  - change ((x :: rest) ++ [m]) with (x :: rest ++ [m]).
    rewrite !(filter_cons _ x), IH. reflexivity.
Qed.

(** [_sort_services_by_risk] rearranges the services into non-increasing
    order of risk score and keeps services of equal score in the order they
    came in. *)
Theorem sort_services_by_risk_descending (services : list ServiceMetrics) :
  _sort_services_by_risk services ≡ₚ services /\
  StronglySorted risk_ge (_sort_services_by_risk services) /\
  forall score,
    filter (fun m => Qeq_bool (risk_score m) score = true)
           (_sort_services_by_risk services)
    = filter (fun m => Qeq_bool (risk_score m) score = true) services.
Proof.
  unfold _sort_services_by_risk.
  assert (Hgen : forall acc,
             StronglySorted risk_ge acc ->
             foldl (fun acc m => insert_by_risk m acc) acc services ≡ₚ acc ++ services /\
             StronglySorted risk_ge
               (foldl (fun acc m => insert_by_risk m acc) acc services) /\
             forall score,
               filter (fun m => Qeq_bool (risk_score m) score = true)
                      (foldl (fun acc m => insert_by_risk m acc) acc services)
               = filter (fun m => Qeq_bool (risk_score m) score = true)
                        (acc ++ services)).
  { induction services as [|x services IH]; intros acc Hacc; cbn [foldl].
    - rewrite app_nil_r. auto.
    - destruct (IH (insert_by_risk x acc) (insert_by_risk_sorted x acc Hacc))
        as (Hperm & Hsorted & Hstable).
      split; [|split; [exact Hsorted|]].
      + rewrite Hperm, insert_by_risk_perm. by rewrite (Permutation_middle acc services x).
      + intros score. rewrite Hstable, !filter_app.
        rewrite (insert_by_risk_stable score x acc Hacc), filter_app.
        rewrite (filter_cons _ x services), (filter_cons _ x []), filter_nil.
        destruct (decide (Qeq_bool (risk_score x) score = true));
          by rewrite <- ?app_assoc, ?app_nil_r. }
  destruct (Hgen [] ltac:(constructor)) as (Hperm & Hsorted & Hstable).
  split; [exact Hperm|]. split; [exact Hsorted|exact Hstable].
Qed.

(* ===================================================================== *)
(** * Further properties: lookup on an empty run, in-degrees              *)
(* ===================================================================== *)

(** The lookup fails exactly when the run has no service at all, with the
    [ValueError] of [max]; on any other run it returns a service. *)
Theorem find_service_metric_fails_on_empty_only (result : SimulationResult)
        (name : string) :
  (result_services result = [] <->
   _find_service_metric result name = Raise ValueError) /\
  (result_services result <> [] <->
   exists m, _find_service_metric result name = Ok m).
Proof.
  destruct (result_services result) as [|x rest] eqn:Hs.
  - unfold _find_service_metric. rewrite Hs. cbn.
    split; split; try congruence; try reflexivity.
    intros [m Hm]. discriminate.
  - destruct (find_service_metric_total result name) as [m Hm];
      [rewrite Hs; discriminate|].
    rewrite Hm. split; split; try discriminate; eauto.
Qed.

Lemma foldl_Zmax_ge (l : list Z) (d : Z) :
  d <= foldl Z.max d l /\ forall x, x ∈ l -> x <= foldl Z.max d l.
Proof.
  revert d. induction l as [|y l IH]; intros d; cbn.
  - split; [lia|]. intros x Hx. by apply elem_of_nil in Hx.
  - destruct (IH (Z.max d y)) as [Hd Hall]. split; [lia|].
    intros x Hx. apply elem_of_cons in Hx as [->|Hx]; [lia|by apply Hall].
Qed.

(** No node has more incoming edges than [max_in_degree]. *)
Lemma in_degree_le_max (graph : DiGraph) (n : string) :
  n ∈ nodes graph -> 0 <= in_degree graph n <= max_in_degree_of graph.
Proof.
  intros Hn. split; [unfold in_degree; lia|].
  unfold max_in_degree_of.
  assert (Hin : in_degree graph n ∈ in_degree graph <$> nodes graph)
    by (by apply list_elem_of_fmap_2).
  destruct (in_degree graph <$> nodes graph) as [|d ds]; [by apply elem_of_nil in Hin|].
  destruct (foldl_Zmax_ge ds d) as [Hd Hall].
  apply elem_of_cons in Hin as [->|Hin]; [exact Hd|by apply Hall].
Qed.

(** In a graph with an edge, some node has an incoming edge. *)
Lemma max_in_degree_positive (graph : DiGraph) :
  edge_closed graph -> graph_edges graph <> [] -> 1 <= max_in_degree_of graph.
Proof.
  intros Hclosed Hne.
  destruct (graph_edges graph) as [|[u v] rest] eqn:He; [congruence|].
  assert (Huv : (u, v) ∈ graph_edges graph) by (rewrite He; left).
  destruct (Hclosed u v Huv) as [_ Hv].
  pose proof (in_degree_le_max graph v Hv) as [_ Hle].
  assert (Hpos : 1 <= in_degree graph v).
  { unfold in_degree.
    assert (0 < length (filter (fun e => e.2 = v) (graph_edges graph)))%nat
      by (apply filter_length_pos; exists (u, v); auto).
    lia. }
  lia.
Qed.

(* ===================================================================== *)
(** * Properties: the engine on binary64 values                           *)
(* ===================================================================== *)

Section IeeeNumbers.
Import PrimFloat.




(** A float that passes [ge=0, le=100] is finite and stands for a number
    of that range. *)
Lemma ge0_le100_Finite (x : float) :
  Ieee.ge0_le100 x = true ->
  exists q, Ieee.real_of x = Ieee.Finite q /\ (0 <= q)%Q /\ (q <= 100)%Q.
Proof.
  unfold Ieee.ge0_le100, Ieee.float_le.
  replace (Ieee.real_of 0%float) with (Ieee.Finite 0) by (vm_compute; reflexivity).
  replace (Ieee.real_of 100%float)
    with (Ieee.Finite (7036874417766400 # 70368744177664))
    by (vm_compute; reflexivity).
  destruct (Ieee.real_of x) as [q|[|]|]; cbn; try discriminate.
  rewrite andb_true_iff, !Qle_bool_iff. intros [H0 H100].
  exists q. split; [reflexivity|]. split; [exact H0|].
  assert (E : (7036874417766400 # 70368744177664 == 100)%Q) by reflexivity.
  by rewrite E in H100.
Qed.


(** Every double [z/100] of a percentage is a fixed point of
    [round(x, 2)], by evaluation on each of them. *)
Lemma py_round2_table :
  (fun z => Ieee.py_round2 (Ieee.int_div z 100)) <$> seqZ 0 10001
  = (fun z => Ieee.int_div z 100) <$> seqZ 0 10001.
Proof. vm_compute. reflexivity. Qed.

Lemma py_round2_hundredths (z : Z) :
  0 <= z <= 10000 -> Ieee.py_round2 (Ieee.int_div z 100) = Ieee.int_div z 100.
Proof.
  intros Hz.
  pose proof (f_equal (fun l => l !! Z.to_nat z) py_round2_table) as E.
  cbn beta in E. rewrite !list_lookup_fmap in E.
  rewrite (lookup_seqZ_lt 0 10001 (Z.to_nat z)) in E by lia.
  cbn in E. injection E as E.
  by replace (0 + Z.of_nat (Z.to_nat z)) with z in E by lia.
Qed.

(** Rounding a percentage a second time changes nothing. *)
Lemma ieee_py_round2_fixed (x : float) :
  Ieee.ge0_le100 x = true -> Ieee.py_round2 (Ieee.py_round2 x) = Ieee.py_round2 x.
Proof.
  intros Hx. apply ge0_le100_Finite in Hx as (q & Hq & H0 & H100).
  unfold Ieee.py_round2 at 2 3. rewrite Hq.
  pose proof (round_half_even_lower (q * 100)) as Hl.
  pose proof (round_half_even_upper (q * 100)) as Hu.
  set (z := round_half_even (q * 100)) in *.
  assert (Hz : 0 <= z <= 10000).
  { assert (Ha : (-1 < inject_Z z)%Q) by lra.
    assert (Hb : (inject_Z z < 10001)%Q) by lra.
    unfold Qlt, inject_Z in Ha, Hb. cbn in Ha, Hb. lia. }
  destruct (Z.eqb_spec z 0) as [_|_].
  - destruct (get_sign x); vm_compute; reflexivity.
  - by apply py_round2_hundredths.
Qed.

(** The scripted source draws within the limits. *)
#[global] Instance tape_source_laws : Ieee.FloatSourceLaws (list Z).
Proof.
  intros tape. unfold Ieee.rng_uniform, Ieee.tape_source.
  destruct (Scripted.next tape) as [x tape']. cbn [fst].
  destruct (Ieee.ge0_le100 (Ieee.int_div x 1000)) eqn:E; [exact E|].
  vm_compute. reflexivity.
Qed.

End IeeeNumbers.

Section IeeeRecords.
Context {G : Type} `{Generator G} `{Ieee.FloatSource G} `{Ieee.Betweenness} `{Ieee.Mean}.
Import PrimFloat.

Lemma ieee_ServiceMetrics_init_Ok (m m' : Ieee.ServiceMetrics) :
  Ieee.ServiceMetrics_init m = Ok m' -> m' = m.
Proof.
  unfold Ieee.ServiceMetrics_init. intros Hinit.
  destruct (_ && _) in Hinit; congruence.
Qed.

(** What a successfully built record holds, field by field. *)
Lemma ieee_build_service_metrics_fields (service : string) (md : Ieee.MetricsDict)
      (m : Ieee.ServiceMetrics) :
  Ieee._build_service_metrics service md = Ok m ->
  Ieee.service_name m = service /\
  Ieee.dependency_impact_score m = Ieee.py_round2 (Ieee.md_dependency_impact_score md) /\
  Ieee.rollback_rate m = Ieee.py_round2 (Ieee.md_rollback_rate md) /\
  Ieee.change_frequency m = Ieee.py_round2 (Ieee.md_change_frequency md) /\
  Ieee.error_spike_history m = Ieee.py_round2 (Ieee.md_error_spike_history md) /\
  Ieee.latency_instability m = Ieee.py_round2 (Ieee.md_latency_instability md) /\
  Ieee.risk_score m =
    Ieee.py_round2
      (Ieee.clamp_0_100
         (0.4 * Ieee.md_dependency_impact_score md
          + 0.2 * Ieee.md_rollback_rate md
          + 0.15 * Ieee.md_change_frequency md
          + 0.15 * Ieee.md_error_spike_history md
          + 0.1 * Ieee.md_latency_instability md)%float) /\
  Ieee.decision m = Ieee._classify_risk (Ieee.risk_score m).
Proof.
  unfold Ieee._build_service_metrics. intros Hb.
  apply ieee_ServiceMetrics_init_Ok in Hb. subst m. cbn. repeat split; reflexivity.
Qed.

Lemma ieee_insert_by_name_perm (m : Ieee.ServiceMetrics) (l : list Ieee.ServiceMetrics) :
  Ieee.insert_by_name m l ≡ₚ m :: l.
Proof.
  induction l as [|x l IH]; cbn; [reflexivity|].
  destruct (String.ltb _ _); [reflexivity|].
  rewrite IH. apply Permutation_swap.
Qed.

Lemma ieee_sorted_by_name_perm (l : list Ieee.ServiceMetrics) :
  Ieee.sorted_by_name l ≡ₚ l.
Proof.
  unfold Ieee.sorted_by_name.
  assert (Hgen : forall acc,
             foldl (fun acc m => Ieee.insert_by_name m acc) acc l ≡ₚ acc ++ l).
  { induction l as [|x l IH]; intros acc; cbn.
    - by rewrite app_nil_r.
    - rewrite IH, ieee_insert_by_name_perm.
      by rewrite (Permutation_middle acc l x). }
  apply (Hgen []).
Qed.

(** The loop appends one record per pass, built from the dictionary drawn
    in that pass. *)
Lemma ieee_service_loop_passes (graph : DiGraph) (blocked : gset string) (mx : Z)
      (ns : list string) (acc out : list Ieee.ServiceMetrics) (rng rng' : G) :
  for_each (Ieee.service_step graph blocked mx) ns (acc, rng) = Ok (out, rng') ->
  exists built,
    out = acc ++ built /\
    Forall2 (fun pass m =>
               Ieee._build_service_metrics pass.1
                 (Ieee.draw_metrics graph blocked mx pass.1 pass.2).1 = Ok m)
            (Ieee.passes graph blocked mx ns rng) built.
Proof.
  revert acc rng. induction ns as [|n ns IH]; intros acc rng Hloop; cbn in Hloop.
  - injection Hloop as <- <-. exists []. rewrite app_nil_r. split; [reflexivity|].
    constructor.
  - unfold Ieee.service_step at 1 in Hloop.
    destruct (Ieee.draw_metrics graph blocked mx n rng) as [md rng1] eqn:Hdraw.
    destruct (Ieee._build_service_metrics n md) as [fm|e] eqn:Hbuild; cbn in Hloop;
      [|discriminate].
    destruct (IH _ _ Hloop) as (built & -> & Hall).
    exists (fm :: built). rewrite <- app_assoc. split; [reflexivity|].
    cbn [Ieee.passes]. rewrite Hdraw. constructor; [|exact Hall].
    cbn. by rewrite Hdraw.
Qed.




(** The three directly drawn signals reach the dictionary already
    rounded: the record's rounding leaves them as they are. *)
Lemma ieee_draw_metrics_rounded `{!Ieee.FloatSourceLaws G}
      (graph : DiGraph) (blocked : gset string) (mx : Z)
      (service : string) (rng : G) :
  Ieee.py_round2 (Ieee.md_change_frequency
                    (Ieee.draw_metrics graph blocked mx service rng).1)
  = Ieee.md_change_frequency (Ieee.draw_metrics graph blocked mx service rng).1 /\
  Ieee.py_round2 (Ieee.md_error_spike_history
                    (Ieee.draw_metrics graph blocked mx service rng).1)
  = Ieee.md_error_spike_history (Ieee.draw_metrics graph blocked mx service rng).1 /\
  Ieee.py_round2 (Ieee.md_latency_instability
                    (Ieee.draw_metrics graph blocked mx service rng).1)
  = Ieee.md_latency_instability (Ieee.draw_metrics graph blocked mx service rng).1.
Proof.
  unfold Ieee.draw_metrics.
  destruct (Ieee.rng_uniform 0 100 rng) as [v0 r0].
  pose proof (Ieee.uniform_percentage r0) as Hv1.
  destruct (Ieee.rng_uniform 0 100 r0) as [v1 r1].
  pose proof (Ieee.uniform_percentage r1) as Hv2.
  destruct (Ieee.rng_uniform 0 100 r1) as [v2 r2].
  pose proof (Ieee.uniform_percentage r2) as Hv3.
  destruct (Ieee.rng_uniform 0 100 r2) as [v3 r3].
  cbn in *. repeat split; by apply ieee_py_round2_fixed.
Qed.


(** The records [_generate_service_metrics] returns are those the passes
    over the nodes built, sorted by name. *)
Lemma ieee_generate_service_metrics_passes (graph : DiGraph) (blocked : gset string)
      (rng : G) (services : list Ieee.ServiceMetrics) :
  Ieee._generate_service_metrics graph blocked rng = Ok services ->
  exists built,
    services = Ieee.sorted_by_name built /\
    Forall2 (fun pass m =>
               Ieee._build_service_metrics pass.1
                 (Ieee.draw_metrics graph blocked (max_in_degree_of graph)
                                    pass.1 pass.2).1 = Ok m)
            (Ieee.passes graph blocked (max_in_degree_of graph) (nodes graph) rng)
            built.
Proof.
  unfold Ieee._generate_service_metrics. intros Hgen.
  apply bind_Ok in Hgen as ([out rng'] & Hloop & Hsort).
  injection Hsort as <-.
  apply ieee_service_loop_passes in Hloop as (built & -> & Hall).
  exists built. split; [reflexivity|exact Hall].
Qed.

(** The dependency entry of the dictionary. *)
Lemma ieee_draw_metrics_dependency (graph : DiGraph) (blocked : gset string) (mx : Z)
      (service : string) (rng : G) :
  Ieee.md_dependency_impact_score (Ieee.draw_metrics graph blocked mx service rng).1
  = Ieee._normalise_to_percentage
      (0.6 * default 0%float (Ieee.betweenness_centrality graph !! service)
       + 0.4 * (if Z.eqb mx 0 then 0%float
                else Ieee.int_div (in_degree graph service) mx))%float.
Proof.
  unfold Ieee.draw_metrics.
  destruct (Ieee.rng_uniform 0 100 rng) as [v0 r0].
  destruct (Ieee.rng_uniform 0 100 r0) as [v1 r1].
  destruct (Ieee.rng_uniform 0 100 r1) as [v2 r2].
  destruct (Ieee.rng_uniform 0 100 r2) as [v3 r3].
  reflexivity.
Qed.

(** The stages of a successful run. *)
Lemma ieee_run_simulation_Ok (settings : Settings) (env : Env G)
      (history : list Ieee.HistoricalRecord) (seed : option Z)
      (result : Ieee.SimulationResult) :
  Ieee.run_simulation settings env history seed = Ok result ->
  exists rng graph rng',
    default_rng seed (entropy env) = Ok rng /\
    _generate_dependency_graph settings rng = Ok (graph, rng') /\
    Ieee._generate_service_metrics graph (Ieee._collect_blocked_services history) rng'
      = Ok (Ieee.result_services result) /\
    Ieee._summarise_services (clock env) (Ieee.result_services result)
      = Ok (Ieee.result_summary result).
Proof.
  unfold Ieee.run_simulation. intros Hrun.
  apply bind_Ok in Hrun as (rng & Hrng & Hrun).
  apply bind_Ok in Hrun as ([graph rng'] & Hgraph & Hrun).
  apply bind_Ok in Hrun as (services & Hservices & Hrun).
  apply bind_Ok in Hrun as (summary & Hsummary & Hrun).
  injection Hrun as <-. cbn.
  exists rng, graph, rng'. repeat split; assumption.
Qed.

End IeeeRecords.

Section IeeeScores.
Import PrimFloat.

(** C1 (as amended): in every run the services of the result are the
    records built in the passes over the graph's nodes, one per node,
    sorted by name, and each record's stored [risk_score] is
    [round(clamp(0.4*dep + 0.2*rb + 0.15*cf + 0.15*es + 0.1*li, 0, 100), 2)]
    in double arithmetic, where [dep] and [rb] are the dependency score
    and the rollback rate before their 2-decimal rounding, the entries of
    the metrics dictionary drawn for that node in its pass, whose
    roundings are stored, and [cf], [es], [li] are the stored values. *)
Theorem risk_score_from_metrics_dictionary
        {G : Type} `{Generator G} `{Ieee.FloatSourceLaws G} `{Ieee.Betweenness}
        `{Ieee.Mean}
        (settings : Settings) (env : Env G) (history : list Ieee.HistoricalRecord)
        (seed : option Z) (result : Ieee.SimulationResult) :
  Ieee.run_simulation settings env history seed = Ok result ->
  exists rng graph rng' built,
    default_rng seed (entropy env) = Ok rng /\
    _generate_dependency_graph settings rng = Ok (graph, rng') /\
    Ieee.result_services result = Ieee.sorted_by_name built /\
    Ieee.result_services result ≡ₚ built /\
    Forall2
      (fun pass m =>
         let metrics :=
           (Ieee.draw_metrics graph (Ieee._collect_blocked_services history)
                              (max_in_degree_of graph) pass.1 pass.2).1 in
         let dependency_score := Ieee.md_dependency_impact_score metrics in
         let rollback := Ieee.md_rollback_rate metrics in
         Ieee.service_name m = pass.1 /\
         Ieee.dependency_impact_score m = Ieee.py_round2 dependency_score /\
         Ieee.rollback_rate m = Ieee.py_round2 rollback /\
         Ieee.change_frequency m = Ieee.md_change_frequency metrics /\
         Ieee.error_spike_history m = Ieee.md_error_spike_history metrics /\
         Ieee.latency_instability m = Ieee.md_latency_instability metrics /\
         Ieee.risk_score m
         = Ieee.py_round2
             (Ieee.clamp_0_100
                (0.4 * dependency_score
                 + 0.2 * rollback
                 + 0.15 * Ieee.change_frequency m
                 + 0.15 * Ieee.error_spike_history m
                 + 0.1 * Ieee.latency_instability m)%float))
      (Ieee.passes graph (Ieee._collect_blocked_services history)
                   (max_in_degree_of graph) (nodes graph) rng')
      built.
Proof.
  intros Hrun.
  apply ieee_run_simulation_Ok in Hrun
    as (rng & graph & rng' & Hrng & Hgraph & Hgen & _).
  apply ieee_generate_service_metrics_passes in Hgen as (built & Hsorted & Hall).
  exists rng, graph, rng', built.
  split; [exact Hrng|]. split; [exact Hgraph|]. split; [exact Hsorted|].
  split; [rewrite Hsorted; apply ieee_sorted_by_name_perm|].
  eapply Forall2_impl; [exact Hall|].
  intros [service rng0] m Hbuild. cbn [fst snd] in *. cbn zeta.
  apply ieee_build_service_metrics_fields in Hbuild
    as (Hname & Hdep & Hrb & Hcf & Hes & Hli & Hrisk & _).
  destruct (ieee_draw_metrics_rounded graph (Ieee._collect_blocked_services history)
              (max_in_degree_of graph) service rng0) as (Ec & Ee & El).
  rewrite Ec in Hcf. rewrite Ee in Hes. rewrite El in Hli.
  rewrite Hcf, Hes, Hli. repeat split; assumption.
Qed.

(** The scripted run on binary64 values. *)
Lemma ieee_sample_run :
  @Ieee.run_simulation _ Scripted.generator Ieee.tape_source Ieee.no_interior
    Ieee.running_mean Scripted.two_services (Scripted.env 0 Scripted.tape) [] None
  = Ok Ieee.sample_result.
Proof. vm_compute. reflexivity. Qed.

(** C1 as the specification states it does not hold: with two services,
    no candidate dependencies and the draws 0.016 (rollback) and 0.01
    (change frequency) for service [a], the run stores the signals
    (40.0, 0.02, 0.01, 0.0, 0.0) and the score 16.0 for [a], while the
    formula on the stored signals gives 16.01. *)
Lemma stored_formula_counterexample :
  @Ieee.run_simulation _ Scripted.generator Ieee.tape_source Ieee.no_interior
    Ieee.running_mean Scripted.two_services (Scripted.env 0 Scripted.tape) [] None
  = Ok Ieee.sample_result /\
  Ieee.service_a ∈ Ieee.result_services Ieee.sample_result /\
  Ieee.risk_score Ieee.service_a = 16%float /\
  Ieee.formula_on_stored Ieee.service_a = 16.01%float /\
  Ieee.risk_score Ieee.service_a <> Ieee.formula_on_stored Ieee.service_a /\
  Ieee.float_lt (Ieee.risk_score Ieee.service_a)
                (Ieee.formula_on_stored Ieee.service_a) = true.
Proof.
  split; [vm_compute; reflexivity|].
  split; [left|].
  split; [reflexivity|].
  split; [vm_compute; reflexivity|].
  split; [|vm_compute; reflexivity].
  intros E. apply (f_equal Ieee.real_of) in E. vm_compute in E. discriminate.
Qed.

(** The amended statement at the same run. *)
Lemma risk_score_from_metrics_dictionary_witness :
  exists rng graph rng' built,
    default_rng None (entropy (Scripted.env 0 Scripted.tape)) = Ok rng /\
    _generate_dependency_graph Scripted.two_services rng = Ok (graph, rng') /\
    Ieee.result_services Ieee.sample_result = Ieee.sorted_by_name built /\
    Ieee.result_services Ieee.sample_result ≡ₚ built /\
    Forall2
      (fun pass m =>
         let metrics :=
           (@Ieee.draw_metrics _ Ieee.tape_source Ieee.no_interior
              graph (Ieee._collect_blocked_services [])
              (max_in_degree_of graph) pass.1 pass.2).1 in
         let dependency_score := Ieee.md_dependency_impact_score metrics in
         let rollback := Ieee.md_rollback_rate metrics in
         Ieee.service_name m = pass.1 /\
         Ieee.dependency_impact_score m = Ieee.py_round2 dependency_score /\
         Ieee.rollback_rate m = Ieee.py_round2 rollback /\
         Ieee.change_frequency m = Ieee.md_change_frequency metrics /\
         Ieee.error_spike_history m = Ieee.md_error_spike_history metrics /\
         Ieee.latency_instability m = Ieee.md_latency_instability metrics /\
         Ieee.risk_score m
         = Ieee.py_round2
             (Ieee.clamp_0_100
                (0.4 * dependency_score
                 + 0.2 * rollback
                 + 0.15 * Ieee.change_frequency m
                 + 0.15 * Ieee.error_spike_history m
                 + 0.1 * Ieee.latency_instability m)%float))
      (@Ieee.passes _ Ieee.tape_source Ieee.no_interior
         graph (Ieee._collect_blocked_services [])
         (max_in_degree_of graph) (nodes graph) rng')
      built.
Proof.
  apply (@risk_score_from_metrics_dictionary _ Scripted.generator Ieee.tape_source
           tape_source_laws Ieee.no_interior Ieee.running_mean Scripted.two_services
           (Scripted.env 0 Scripted.tape) [] None Ieee.sample_result).
  vm_compute. reflexivity.
Defined.









(** The values of that summary. *)
Lemma summary_of_two_scores :
  @Ieee._summarise_services Ieee.running_mean 0 [Ieee.service_b; Ieee.service_c]
  = Ok {| Ieee.average_risk := 16.01%float;
          Ieee.highest_risk_service := "c";
          Ieee.highest_risk_score := 16.01%float;
          Ieee.blocked_services := [];
          Ieee.blocked_count := 0;
          Ieee.timestamp_utc := 0 |}.
Proof. vm_compute. reflexivity. Qed.

(** The weighted sum rounds after every operation: on the signals
    (11.21, 69.41, 48.38, 59.68, 54.2) it is the double printed 39.995,
    which stands for 39.99499999999999744..., so the score is 39.99 and
    the decision AutoApprove; over the rationals the sum is 39.995. *)
Lemma weighted_sum_below_threshold :
  Ieee._build_service_metrics "s"
    {| Ieee.md_dependency_impact_score := 11.21;
       Ieee.md_rollback_rate := 69.41;
       Ieee.md_change_frequency := 48.38;
       Ieee.md_error_spike_history := 59.68;
       Ieee.md_latency_instability := 54.2 |}
  = Ok {| Ieee.service_name := "s";
          Ieee.dependency_impact_score := 11.21;
          Ieee.rollback_rate := 69.41;
          Ieee.change_frequency := 48.38;
          Ieee.error_spike_history := 59.68;
          Ieee.latency_instability := 54.2;
          Ieee.risk_score := 39.99;
          Ieee.decision := AUTO_APPROVE |}.
Proof. vm_compute. reflexivity. Qed.

(** [float_lt] and [float_le] agree with the processor's comparisons on
    every pair of a sample holding zeros, subnormals, boundary scores,
    infinities and a NaN. *)
Lemma float_order_on_samples :
  forallb (fun p : float * float =>
             Bool.eqb (Ieee.float_lt p.1 p.2) (p.1 <? p.2)%float
             && Bool.eqb (Ieee.float_le p.1 p.2) (p.1 <=? p.2)%float)
          (x ← Ieee.order_samples; (fun y => (x, y)) <$> Ieee.order_samples)
  = true.
Proof. vm_compute. reflexivity. Qed.

(** In a graph whose edges join nodes and which has an edge, no node,
    and no other name, has more incoming edges than [max_in_degree]. *)
Lemma in_degree_share (graph : DiGraph) (n : string) :
  edge_closed graph -> graph_edges graph <> [] ->
  0 <= in_degree graph n <= max_in_degree_of graph.
Proof.
  intros Hclosed Hne.
  pose proof (max_in_degree_positive graph Hclosed Hne) as Hmax.
  destruct (decide (n ∈ nodes graph)) as [Hn|Hn]; [by apply in_degree_le_max|].
  unfold in_degree.
  destruct (filter (fun e => e.2 = n) (graph_edges graph)) as [|[u v] rest] eqn:Hf;
    [cbn; lia|].
  assert (Huv : (u, v) ∈ filter (fun e => e.2 = n) (graph_edges graph))
    by (rewrite Hf; left).
  apply list_elem_of_filter in Huv as [Hv Huv]. cbn in Hv. subst v.
  destruct (Hclosed u n Huv) as [_ Hin]. contradiction.
Qed.

(** In every run the largest in-degree of the generated graph is at least
    1, so neither [if in_degrees else 1] nor [if max_in_degree else 0]
    takes its second branch, and each record's dependency score is the
    rounding of
    [_normalise_to_percentage(0.6 * betweenness + 0.4 * (in_degree / max_in_degree))]
    for a share [in_degree / max_in_degree] of integers between 0 and
    [max_in_degree]. *)
Theorem dependency_score_from_degree_share
        {G : Type} `{GeneratorLaws G} `{Ieee.FloatSource G} `{Ieee.Betweenness}
        `{Ieee.Mean}
        (settings : Settings) (env : Env G) (history : list Ieee.HistoricalRecord)
        (seed : option Z) (result : Ieee.SimulationResult) :
  Ieee.run_simulation settings env history seed = Ok result ->
  exists rng graph rng' built,
    default_rng seed (entropy env) = Ok rng /\
    _generate_dependency_graph settings rng = Ok (graph, rng') /\
    Ieee.result_services result ≡ₚ built /\
    nodes graph <> [] /\
    1 <= max_in_degree_of graph /\
    Forall2
      (fun pass m =>
         Ieee.service_name m = pass.1 /\
         0 <= in_degree graph pass.1 <= max_in_degree_of graph /\
         Ieee.dependency_impact_score m
         = Ieee.py_round2
             (Ieee._normalise_to_percentage
                (0.6 * default 0 (Ieee.betweenness_centrality graph !! pass.1)
                 + 0.4 * Ieee.int_div (in_degree graph pass.1)
                                      (max_in_degree_of graph))%float))
      (Ieee.passes graph (Ieee._collect_blocked_services history)
                   (max_in_degree_of graph) (nodes graph) rng')
      built.
Proof.
  intros Hrun.
  apply ieee_run_simulation_Ok in Hrun
    as (rng & graph & rng' & Hrng & Hgraph & Hgen & Hsum).
  apply ieee_generate_service_metrics_passes in Hgen as (built & Hsorted & Hall).
  assert (Hperm : Ieee.result_services result ≡ₚ built)
    by (rewrite Hsorted; apply ieee_sorted_by_name_perm).
  assert (Hnodes : nodes graph <> []).
  { intros Hnil. rewrite Hnil in Hall. cbn in Hall.
    apply Forall2_nil_inv_l in Hall. subst built.
    apply Permutation_nil_r in Hperm. rewrite Hperm in Hsum.
    unfold Ieee._summarise_services in Hsum. cbn in Hsum. discriminate. }
  destruct (generated_graph_well_formed settings _ _ _ Hgraph) as [_ Hclosed].
  assert (Hedges : graph_edges graph <> []).
  { destruct (nodes graph) as [|n ns] eqn:Hn; [congruence|].
    destruct (generated_graph_all_incident settings _ _ _ n Hgraph) as (e & He & _);
      [rewrite Hn; left|].
    intros Hnil. rewrite Hnil in He. by apply elem_of_nil in He. }
  pose proof (max_in_degree_positive graph Hclosed Hedges) as Hmax.
  exists rng, graph, rng', built.
  split; [exact Hrng|]. split; [exact Hgraph|]. split; [exact Hperm|].
  split; [exact Hnodes|]. split; [exact Hmax|].
  eapply Forall2_impl; [exact Hall|].
  intros [service rng0] m Hbuild. cbn [fst snd] in *.
  apply ieee_build_service_metrics_fields in Hbuild as (Hname & Hdep & _).
  split; [exact Hname|]. split; [by apply in_degree_share|].
  rewrite Hdep, ieee_draw_metrics_dependency.
  destruct (Z.eqb_spec (max_in_degree_of graph) 0); [lia|reflexivity].
Qed.

(** The statement at the scripted run, and the share of a node with three
    of at most four incoming edges and no betweenness, whose score in
    double arithmetic is 30.000000000000004 before rounding. *)
Lemma dependency_score_from_degree_share_witness :
  (exists rng graph rng' built,
    default_rng None (entropy (Scripted.env 0 Scripted.tape)) = Ok rng /\
    _generate_dependency_graph Scripted.two_services rng = Ok (graph, rng') /\
    Ieee.result_services Ieee.sample_result ≡ₚ built /\
    nodes graph <> [] /\
    1 <= max_in_degree_of graph /\
    Forall2
      (fun pass m =>
         Ieee.service_name m = pass.1 /\
         0 <= in_degree graph pass.1 <= max_in_degree_of graph /\
         Ieee.dependency_impact_score m
         = Ieee.py_round2
             (Ieee._normalise_to_percentage
                (0.6 * default 0 (@Ieee.betweenness_centrality Ieee.no_interior
                                    graph !! pass.1)
                 + 0.4 * Ieee.int_div (in_degree graph pass.1)
                                      (max_in_degree_of graph))%float))
      (@Ieee.passes _ Ieee.tape_source Ieee.no_interior
         graph (Ieee._collect_blocked_services [])
         (max_in_degree_of graph) (nodes graph) rng')
      built) /\
  Ieee._normalise_to_percentage (0.6 * 0 + 0.4 * Ieee.int_div 3 4)%float
  = 30.000000000000004%float.
Proof.
  split; [|vm_compute; reflexivity].
  apply (@dependency_score_from_degree_share _ Scripted.generator scripted_laws
           Ieee.tape_source Ieee.no_interior Ieee.running_mean Scripted.two_services
           (Scripted.env 0 Scripted.tape) [] None Ieee.sample_result).
  vm_compute. reflexivity.
Defined.

End IeeeScores.
